(** * MAGI-1 front end: the prompt modal and the video generator

    A shallow embedding of the two React components of
    [frontend/src/components]: [AIModal.js] and [VideoGenerator.js].

    A function component is a function of its state: every render produces
    fresh handler closures that read the state values of that render.  The
    embedding keeps this visible:
    - a handler is a function from the render's state to the straight-line
      list of commands it executes (state setters, timer calls, HTTP calls),
      in source order; an [await] splits a handler into the part before the
      request and the continuations for its resolution and its rejection;
    - [useEffect] bodies and cleanups are such functions too; the world
      remembers the dependency values of the last run and the value that the
      pending cleanup closure captured;
    - a timer started with [setInterval] keeps the callback closure it was
      given, with the state values captured when it was created.

    Strings are sequences of code units in the range 0..255; a prompt with
    code units above that range is outside the model.  Rationals stand for
    the number literals of the JSON answers and for the numbers of the
    settings; where the source computes with a number, the binary64
    arithmetic is written out.  The first part follows one mounted instance
    of each component; [App.js] and the unmount of the generator come after
    it. *)

From Stdlib Require Import Ascii String QArith Qround.
From stdpp Require Import base strings list gmap.

Local Open Scope string_scope.
Local Open Scope list_scope.

(** ** JavaScript values *)

Module Js.

(** [String.prototype.trim] removes WhiteSpace and LineTerminator code
    points from both ends.  Below 256 these are TAB, LF, VT, FF, CR, SP
    and NBSP. *)
Definition is_white_space (c : ascii) : bool :=
  let n := nat_of_ascii c in
  (Nat.eqb n 9 || Nat.eqb n 10 || Nat.eqb n 11 || Nat.eqb n 12
   || Nat.eqb n 13 || Nat.eqb n 32 || Nat.eqb n 160)%bool.

Fixpoint trimStart (s : string) : string :=
  match s with
  | EmptyString => EmptyString
  | String c s' => if is_white_space c then trimStart s' else s
  end.

Fixpoint trimEnd (s : string) : string :=
  match s with
  | EmptyString => EmptyString
  | String c s' =>
      match trimEnd s' with
      | EmptyString => if is_white_space c then EmptyString else String c EmptyString
      | r => String c r
      end
  end.

Definition trim (s : string) : string := trimEnd (trimStart s).

(** Every code unit of the string is white space (true of the empty
    string). *)
Fixpoint all_white_space (s : string) : bool :=
  match s with
  | EmptyString => true
  | String c s' => is_white_space c && all_white_space s'
  end.

(** ToBoolean on a string: only the empty string is falsy. *)
Definition truthy (s : string) : bool :=
  match s with EmptyString => false | String _ _ => true end.

(** ToBoolean on a value that is [null] or a string. *)
Definition truthy_opt (o : option string) : bool :=
  match o with None => false | Some s => truthy s end.

(** [a || b] on strings where [a] may be undefined. *)
Definition or_else (o : option string) (d : string) : string :=
  match o with
  | Some s => if truthy s then s else d
  | None => d
  end.

(** [s.startsWith(p)] *)
Definition startsWith (s p : string) : bool := String.prefix p s.

(** Numbers as the number inputs produce them: [parseInt] and
    [parseFloat] return a number or [NaN]. *)
Inductive number := Num (q : Q) | NaN.

(** [Math.round]: the nearest integer, halves towards +infinity. *)
Definition round (q : Q) : Z := Qfloor (q + (1 # 2)).

(** The values of the Number type in arithmetic: the finite binary64
    values, written as the rationals they are, the infinities and NaN.
    The sign of a zero is not kept: no operation below tells the zeros
    apart. *)
Inductive double := Finite (q : Q) | Infinity (negative : bool) | NotANumber.

Definition pow2 (e : Z) : Q :=
  if (0 <=? e)%Z then inject_Z (2 ^ e) else 1 # Z.to_pos (2 ^ (- e)).

(** The binary exponent of a positive rational: [pow2 e <= q < pow2 (e + 1)]. *)
Definition ilog2 (q : Q) : Z :=
  let e := (Z.log2 (Qnum q) - Z.log2 (Zpos (Qden q)))%Z in
  if Qle_bool (pow2 e) q then e else (e - 1)%Z.

Definition roundTiesToEven (r : Q) : Z :=
  let f := Qfloor r in
  match ((r - inject_Z f) ?= (1 # 2))%Q with
  | Lt => f
  | Gt => (f + 1)%Z
  | Eq => if Z.even f then f else (f + 1)%Z
  end.

(** The multiple of the unit in the last place that is nearest to a
    positive rational: 53 significant bits, the subnormal values below
    [pow2 (-1022)]. *)
Definition nearest (q : Q) : Q :=
  let e := Z.max (ilog2 q - 52) (-1074) in
  Qred (inject_Z (roundTiesToEven (q / pow2 e)) * pow2 e).

(** The binary64 value of a real number, in the rounding mode of every
    operation of the language: what [JSON.parse] makes of a number literal
    and what an arithmetic operation makes of its exact result. *)
Definition to_double (q : Q) : double :=
  match Qnum q with
  | Z0 => Finite 0
  | Zpos _ =>
      if Qle_bool (pow2 1024) (nearest q) then Infinity false
      else Finite (nearest q)
  | Zneg _ =>
      if Qle_bool (pow2 1024) (nearest (- q)) then Infinity true
      else Finite (Qred (- nearest (- q)))
  end.

Definition is_negative (q : Q) : bool :=
  match Qnum q with Zneg _ => true | _ => false end.

(** [a * b] *)
Definition mul (a b : double) : double :=
  match a, b with
  | Finite x, Finite y => to_double (x * y)
  | Finite x, Infinity s | Infinity s, Finite x =>
      match Qnum x with
      | Z0 => NotANumber
      | _ => Infinity (xorb s (is_negative x))
      end
  | Infinity s, Infinity s' => Infinity (xorb s s')
  | _, _ => NotANumber
  end.

(** [Math.round] on the Number type; the rounding is exact. *)
Definition Math_round (a : double) : double :=
  match a with
  | Finite q => Finite (inject_Z (round q))
  | _ => a
  end.

(** [a || 0] where [a] may be undefined: zero and NaN are falsy. *)
Definition or_zero (o : option double) : double :=
  match o with
  | Some (Finite q) => match Qnum q with Z0 => Finite 0 | _ => Finite q end
  | Some (Infinity s) => Infinity s
  | Some NotANumber | None => Finite 0
  end.

(** The accented letters of the French messages, as code units. *)
Definition e_acute : string := String (ascii_of_nat 233) EmptyString.
Definition E_acute : string := String (ascii_of_nat 201) EmptyString.

End Js.

(** The records of the backend's JSON answers. *)

Record VideoInfo := { file_id : string; filename : string }.

Module TaskStatus.
(** [GET /api/video-generation-status/{task_id}] answers
    [{status, progress, video_info?, error?}]; [progress] is the number
    literal of the JSON text. *)
Record t := {
  status : string;
  progress : option Q;
  video_info : option VideoInfo;
  error : option string }.

(** [status === 'completed' || status === 'failed'] *)
Definition is_terminal (d : t) : bool :=
  (String.eqb (status d) "completed" || String.eqb (status d) "failed")%bool.
End TaskStatus.

(** ** VideoGenerator.js *)

Module VideoGenerator.

Abbreviation Settings := (gmap string Js.number).

(** The values of the [useState] cells of one render.  [taskStatus] holds a
    response object: the number is the identity of the object, which is
    what the dependency comparison of [useEffect] looks at. *)
Record State := {
  prompt : string;
  provider : string;
  settings : Settings;
  loading : bool;
  error : string;
  taskId : option string;
  taskStatus : option (nat * TaskStatus.t);
  generatedVideo : option VideoInfo;
  statusInterval : option positive;
  showAdvancedSettings : bool }.

(** An integer literal of the source. *)
Definition int (z : Z) : Js.number := Js.Num (inject_Z z).

Definition replicate_template : Settings :=
  <["num_frames" := int 24]> (<["fps" := int 8]> (<["width" := int 576]>
    (<["height" := int 320]> (<["motion_bucket_id" := int 127]> ∅)))).

Definition stability_template : Settings :=
  <["duration" := int 3]> (<["width" := int 768]> (<["height" := int 432]>
    (<["cfg_scale" := Js.Num (75 # 10)]> ∅))).

Definition runway_template : Settings :=
  <["num_steps" := int 50]> (<["fps" := int 24]> ∅).

(** The own properties of the [settingsTemplates] object. *)
Definition settingsTemplates (name : string) : option Settings :=
  if String.eqb name "replicate" then Some replicate_template
  else if String.eqb name "stability" then Some stability_template
  else if String.eqb name "runway" then Some runway_template
  else None.

Definition initial_state : State := {|
  prompt := "";
  provider := "replicate";
  settings := replicate_template;
  loading := false;
  error := "";
  taskId := None;
  taskStatus := None;
  generatedVideo := None;
  statusInterval := None;
  showAdvancedSettings := false |}.

(** What a [checkTaskStatus] closure captured from its render. *)
Record Closure := {
  cl_taskId : option string;
  cl_statusInterval : option positive }.

Definition closure_of (r : State) : Closure :=
  {| cl_taskId := taskId r; cl_statusInterval := statusInterval r |}.

Record Timer := { timer_id : positive; callback : Closure }.

Inductive Request :=
| POST_generate_video (prompt provider : string) (settings : Settings)
| GET_video_generation_status (task_id : string).

Definition url (q : Request) : string :=
  match q with
  | POST_generate_video _ _ _ => "http://localhost:8000/api/generate-video"
  | GET_video_generation_status t =>
      "http://localhost:8000/api/video-generation-status/" ++ t
  end.

(** The commands a handler or an effect executes. *)
Inductive Cmd :=
| setPrompt (v : string)
| setProvider (v : string)
| setSettings (v : Settings)
| setLoading (v : bool)
| setError (v : string)
| setTaskId (v : option string)
| setTaskStatus (v : option TaskStatus.t)
| setGeneratedVideo (v : option VideoInfo)
| setStatusInterval (v : option positive)
| setShowAdvancedSettings (v : bool)
| setInterval (id : positive) (cb : Closure)
| clearInterval (id : positive)
| axios_post (q : Request)
| axios_get (q : Request) (k : Closure).

(** *** Handlers and effects, as functions of the render's state *)

(** [useEffect(() => setSettings(settingsTemplates[provider] ||
    settingsTemplates.replicate), [provider])] *)
Definition effect_provider (r : State) : list Cmd :=
  [setSettings (default replicate_template (settingsTemplates (provider r)))].

(** The poll-timer effect, dependencies [[taskId]].  [fresh] is the handle
    that [setInterval] returns. *)
Definition effect_poll_timer (r : State) (fresh : positive) : list Cmd :=
  if (Js.truthy_opt (taskId r) && negb (bool_decide (is_Some (statusInterval r))))%bool
  then [setInterval fresh (closure_of r); setStatusInterval (Some fresh)]
  else [].

(** Its cleanup, which reads the [statusInterval] of the render that
    installed it. *)
Definition effect_poll_timer_cleanup (captured : option positive) : list Cmd :=
  match captured with
  | Some i => [clearInterval i]
  | None => []
  end.

(** The terminal-status effect, dependencies [[taskStatus]]. *)
Definition effect_terminal (r : State) : list Cmd :=
  match taskStatus r with
  | Some (_, d) =>
      if TaskStatus.is_terminal d then
        match statusInterval r with
        | Some i => [clearInterval i; setStatusInterval None]
        | None => []
        end
        ++
        (if String.eqb (TaskStatus.status d) "completed" then
           match TaskStatus.video_info d with
           | Some v => [setGeneratedVideo (Some v)]
           | None => []
           end
         else [])
      else []
  | None => []
  end.

Definition poll_error_message : string :=
  "Erreur lors de la v" ++ Js.e_acute ++ "rification du statut de la g"
    ++ Js.e_acute ++ "n" ++ Js.e_acute ++ "ration".

(** [checkTaskStatus], up to the request. *)
Definition checkTaskStatus (k : Closure) : list Cmd :=
  match cl_taskId k with
  | Some t => if Js.truthy t then [axios_get (GET_video_generation_status t) k] else []
  | None => []
  end.

(** [checkTaskStatus], after the request resolved with [data]. *)
Definition checkTaskStatus_then (data : TaskStatus.t) : list Cmd :=
  [setTaskStatus (Some data)].

(** [checkTaskStatus], the [catch] block. *)
Definition checkTaskStatus_catch (k : Closure) : list Cmd :=
  setError poll_error_message ::
  match cl_statusInterval k with
  | Some i => [clearInterval i; setStatusInterval None]
  | None => []
  end.

Definition empty_prompt_message : string :=
  "Veuillez entrer une description pour la vid" ++ Js.e_acute ++ "o".

(** [handleGenerateVideo], up to the request. *)
Definition handleGenerateVideo (r : State) : list Cmd :=
  if negb (Js.truthy (Js.trim (prompt r))) then
    [setError empty_prompt_message]
  else
    [setLoading true; setError ""; setTaskId None; setTaskStatus None;
     setGeneratedVideo None;
     axios_post (POST_generate_video (prompt r) (provider r) (settings r))].

(** [handleGenerateVideo], after the request resolved. *)
Definition handleGenerateVideo_then (task_id : string) : list Cmd :=
  [setTaskId (Some task_id)].

(** [handleGenerateVideo], the [catch] block; [detail] is
    [err.response?.data?.detail]. *)
Definition handleGenerateVideo_catch (detail : option string) : list Cmd :=
  [setError ("Erreur: " ++ Js.or_else detail "Impossible de communiquer avec le serveur");
   setLoading false].

(** [updateSetting]: [setSettings({...settings, [key]: value})] *)
Definition updateSetting (r : State) (key : string) (value : Js.number) : list Cmd :=
  [setSettings (<[key := value]> (settings r))].

(** *** The world around the component *)

(** Besides the state cells: the dependency values of the last effect run,
    the [statusInterval] that the pending cleanup of the poll-timer effect
    captured, the browser's active interval timers, the requests in flight
    and the log of every request issued. *)
Record World := {
  state : State;
  deps_provider : string;
  deps_taskId : option string;
  deps_taskStatus : option nat;
  cleanup_statusInterval : option positive;
  timers : list Timer;
  next_timer : positive;
  next_object : nat;
  pending_posts : nat;
  pending_gets : list Closure;
  requests : list Request }.

Definition with_state (f : State -> State) (w : World) : World :=
  {| state := f (state w);
     deps_provider := deps_provider w; deps_taskId := deps_taskId w;
     deps_taskStatus := deps_taskStatus w;
     cleanup_statusInterval := cleanup_statusInterval w;
     timers := timers w; next_timer := next_timer w;
     next_object := next_object w; pending_posts := pending_posts w;
     pending_gets := pending_gets w; requests := requests w |}.

Definition exec_cmd (w : World) (c : Cmd) : World :=
  match c with
  | setPrompt v => with_state (fun s =>
      {| prompt := v; provider := provider s; settings := settings s;
         loading := loading s; error := error s; taskId := taskId s;
         taskStatus := taskStatus s; generatedVideo := generatedVideo s;
         statusInterval := statusInterval s;
         showAdvancedSettings := showAdvancedSettings s |}) w
  | setProvider v => with_state (fun s =>
      {| prompt := prompt s; provider := v; settings := settings s;
         loading := loading s; error := error s; taskId := taskId s;
         taskStatus := taskStatus s; generatedVideo := generatedVideo s;
         statusInterval := statusInterval s;
         showAdvancedSettings := showAdvancedSettings s |}) w
  | setSettings v => with_state (fun s =>
      {| prompt := prompt s; provider := provider s; settings := v;
         loading := loading s; error := error s; taskId := taskId s;
         taskStatus := taskStatus s; generatedVideo := generatedVideo s;
         statusInterval := statusInterval s;
         showAdvancedSettings := showAdvancedSettings s |}) w
  | setLoading v => with_state (fun s =>
      {| prompt := prompt s; provider := provider s; settings := settings s;
         loading := v; error := error s; taskId := taskId s;
         taskStatus := taskStatus s; generatedVideo := generatedVideo s;
         statusInterval := statusInterval s;
         showAdvancedSettings := showAdvancedSettings s |}) w
  | setError v => with_state (fun s =>
      {| prompt := prompt s; provider := provider s; settings := settings s;
         loading := loading s; error := v; taskId := taskId s;
         taskStatus := taskStatus s; generatedVideo := generatedVideo s;
         statusInterval := statusInterval s;
         showAdvancedSettings := showAdvancedSettings s |}) w
  | setTaskId v => with_state (fun s =>
      {| prompt := prompt s; provider := provider s; settings := settings s;
         loading := loading s; error := error s; taskId := v;
         taskStatus := taskStatus s; generatedVideo := generatedVideo s;
         statusInterval := statusInterval s;
         showAdvancedSettings := showAdvancedSettings s |}) w
  | setTaskStatus v =>
      (* a response is a new object each time *)
      let s := state w in
      {| state :=
           {| prompt := prompt s; provider := provider s; settings := settings s;
              loading := loading s; error := error s; taskId := taskId s;
              taskStatus := (fun d => (next_object w, d)) <$> v;
              generatedVideo := generatedVideo s;
              statusInterval := statusInterval s;
              showAdvancedSettings := showAdvancedSettings s |};
         deps_provider := deps_provider w; deps_taskId := deps_taskId w;
         deps_taskStatus := deps_taskStatus w;
         cleanup_statusInterval := cleanup_statusInterval w;
         timers := timers w; next_timer := next_timer w;
         next_object := S (next_object w); pending_posts := pending_posts w;
         pending_gets := pending_gets w; requests := requests w |}
  | setGeneratedVideo v => with_state (fun s =>
      {| prompt := prompt s; provider := provider s; settings := settings s;
         loading := loading s; error := error s; taskId := taskId s;
         taskStatus := taskStatus s; generatedVideo := v;
         statusInterval := statusInterval s;
         showAdvancedSettings := showAdvancedSettings s |}) w
  | setStatusInterval v => with_state (fun s =>
      {| prompt := prompt s; provider := provider s; settings := settings s;
         loading := loading s; error := error s; taskId := taskId s;
         taskStatus := taskStatus s; generatedVideo := generatedVideo s;
         statusInterval := v;
         showAdvancedSettings := showAdvancedSettings s |}) w
  | setShowAdvancedSettings v => with_state (fun s =>
      {| prompt := prompt s; provider := provider s; settings := settings s;
         loading := loading s; error := error s; taskId := taskId s;
         taskStatus := taskStatus s; generatedVideo := generatedVideo s;
         statusInterval := statusInterval s;
         showAdvancedSettings := v |}) w
  | setInterval id cb =>
      {| state := state w;
         deps_provider := deps_provider w; deps_taskId := deps_taskId w;
         deps_taskStatus := deps_taskStatus w;
         cleanup_statusInterval := cleanup_statusInterval w;
         timers := timers w ++ [{| timer_id := id; callback := cb |}];
         next_timer := Pos.succ id;
         next_object := next_object w; pending_posts := pending_posts w;
         pending_gets := pending_gets w; requests := requests w |}
  | clearInterval id =>
      {| state := state w;
         deps_provider := deps_provider w; deps_taskId := deps_taskId w;
         deps_taskStatus := deps_taskStatus w;
         cleanup_statusInterval := cleanup_statusInterval w;
         timers := filter (fun t => timer_id t ≠ id) (timers w);
         next_timer := next_timer w;
         next_object := next_object w; pending_posts := pending_posts w;
         pending_gets := pending_gets w; requests := requests w |}
  | axios_post q =>
      {| state := state w;
         deps_provider := deps_provider w; deps_taskId := deps_taskId w;
         deps_taskStatus := deps_taskStatus w;
         cleanup_statusInterval := cleanup_statusInterval w;
         timers := timers w; next_timer := next_timer w;
         next_object := next_object w; pending_posts := S (pending_posts w);
         pending_gets := pending_gets w; requests := requests w ++ [q] |}
  | axios_get q k =>
      {| state := state w;
         deps_provider := deps_provider w; deps_taskId := deps_taskId w;
         deps_taskStatus := deps_taskStatus w;
         cleanup_statusInterval := cleanup_statusInterval w;
         timers := timers w; next_timer := next_timer w;
         next_object := next_object w; pending_posts := pending_posts w;
         pending_gets := pending_gets w ++ [k]; requests := requests w ++ [q] |}
  end.

Definition exec (cmds : list Cmd) (w : World) : World :=
  fold_left exec_cmd cmds w.

(** The commit after a batch of state updates: the effects whose
    dependencies changed run on the state of this render, cleanups first,
    then the bodies in the order of the source.  The state they set is not
    a dependency of any effect, so the render that follows runs none. *)
Definition effects_due (w : World) : list Cmd :=
  let r := state w in
  let provider_changed := negb (bool_decide (provider r = deps_provider w)) in
  let taskId_changed := negb (bool_decide (taskId r = deps_taskId w)) in
  let taskStatus_changed :=
    negb (bool_decide (fst <$> taskStatus r = deps_taskStatus w)) in
  (if taskId_changed
   then effect_poll_timer_cleanup (cleanup_statusInterval w) else [])
  ++ (if provider_changed then effect_provider r else [])
  ++ (if taskId_changed then effect_poll_timer r (next_timer w) else [])
  ++ (if taskStatus_changed then effect_terminal r else []).

Definition commit (w : World) : World :=
  let r := state w in
  exec (effects_due w)
    {| state := r;
       deps_provider := provider r; deps_taskId := taskId r;
       deps_taskStatus := fst <$> taskStatus r;
       cleanup_statusInterval :=
         if negb (bool_decide (taskId r = deps_taskId w))
         then statusInterval r else cleanup_statusInterval w;
       timers := timers w; next_timer := next_timer w;
       next_object := next_object w; pending_posts := pending_posts w;
       pending_gets := pending_gets w; requests := requests w |}.

(** A handler runs to its end (or to its [await]), then React commits. *)
Definition dispatch (cmds : list Cmd) (w : World) : World :=
  commit (exec cmds w).

(** Mounting renders the initial state and runs every effect once. *)
Definition mount : World :=
  let r := initial_state in
  exec (effect_provider r ++ effect_poll_timer r 1%positive ++ effect_terminal r)
    {| state := r;
       deps_provider := provider r; deps_taskId := taskId r;
       deps_taskStatus := fst <$> taskStatus r;
       cleanup_statusInterval := statusInterval r;
       timers := []; next_timer := 1%positive; next_object := 0;
       pending_posts := 0; pending_gets := []; requests := [] |}.

(** *** Events *)

(** The options of the provider [<select>]. *)
Inductive ProviderOption := opt_replicate | opt_stability | opt_runway.

Definition option_value (o : ProviderOption) : string :=
  match o with
  | opt_replicate => "replicate"
  | opt_stability => "stability"
  | opt_runway => "runway"
  end.

Inductive Event :=
| ChangePrompt (value : string)
| ChangeProvider (o : ProviderOption)
| ToggleAdvancedSettings
| ChangeSetting (key : string) (value : Js.number)
| SubmitForm
| PostResolved (task_id : string)
| PostRejected (detail : option string)
| TimerFired (id : positive)
| GetResolved (n : nat) (data : TaskStatus.t)
| GetRejected (n : nat).

Definition forget_post (w : World) : World :=
  {| state := state w;
     deps_provider := deps_provider w; deps_taskId := deps_taskId w;
     deps_taskStatus := deps_taskStatus w;
     cleanup_statusInterval := cleanup_statusInterval w;
     timers := timers w; next_timer := next_timer w;
     next_object := next_object w; pending_posts := pred (pending_posts w);
     pending_gets := pending_gets w; requests := requests w |}.

Definition forget_get (n : nat) (w : World) : World :=
  {| state := state w;
     deps_provider := deps_provider w; deps_taskId := deps_taskId w;
     deps_taskStatus := deps_taskStatus w;
     cleanup_statusInterval := cleanup_statusInterval w;
     timers := timers w; next_timer := next_timer w;
     next_object := next_object w; pending_posts := pending_posts w;
     pending_gets := delete n (pending_gets w); requests := requests w |}.

Definition find_timer (id : positive) (w : World) : option Timer :=
  head (filter (fun t => timer_id t = id) (timers w)).

(** One turn of the event loop.  An event that cannot happen (the answer
    to a request that is not in flight, the tick of a timer that is not
    active) leaves the world as it is. *)
Definition step (w : World) (e : Event) : World :=
  match e with
  | ChangePrompt v => dispatch [setPrompt v] w
  | ChangeProvider o => dispatch [setProvider (option_value o)] w
  | ToggleAdvancedSettings =>
      dispatch [setShowAdvancedSettings (negb (showAdvancedSettings (state w)))] w
  | ChangeSetting key value => dispatch (updateSetting (state w) key value) w
  | SubmitForm => dispatch (handleGenerateVideo (state w)) w
  | PostResolved task_id =>
      match pending_posts w with
      | O => w
      | S _ => dispatch (handleGenerateVideo_then task_id) (forget_post w)
      end
  | PostRejected detail =>
      match pending_posts w with
      | O => w
      | S _ => dispatch (handleGenerateVideo_catch detail) (forget_post w)
      end
  | TimerFired id =>
      match find_timer id w with
      | Some t => dispatch (checkTaskStatus (callback t)) w
      | None => w
      end
  | GetResolved n data =>
      match pending_gets w !! n with
      | Some _ => dispatch (checkTaskStatus_then data) (forget_get n w)
      | None => w
      end
  | GetRejected n =>
      match pending_gets w !! n with
      | Some k => dispatch (checkTaskStatus_catch k) (forget_get n w)
      | None => w
      end
  end.

Definition run (w : World) (es : list Event) : World := fold_left step es w.

(** *** What the render shows *)

Record StatusView := {
  status_label : string;
  progress_text : option Js.double;
  generation_error : option string }.

Record View := {
  prompt_disabled : bool;
  provider_disabled : bool;
  settings_toggle_disabled : bool;
  settings_fields : list string;
  generate_disabled : bool;
  generate_label : string;
  error_message : option string;
  generation_status : option StatusView;
  generated_video : option (string * string * string) }.

(** [renderSettings]: the keys of the inputs shown for the provider. *)
Definition renderSettings (r : State) : list string :=
  if negb (showAdvancedSettings r) then []
  else if String.eqb (provider r) "replicate"
    then ["num_frames"; "fps"; "width"; "height"; "motion_bucket_id"]
  else if String.eqb (provider r) "stability"
    then ["duration"; "width"; "height"; "cfg_scale"]
  else if String.eqb (provider r) "runway"
    then ["num_steps"; "fps"]
  else [].

Definition renderGenerationStatus (r : State) : option StatusView :=
  match taskStatus r with
  | Some (_, d) =>
      if negb (Js.truthy_opt (taskId r)) then None
      else
        let progress := Js.or_zero (Js.to_double <$> TaskStatus.progress d) in
        let progressPercent := Js.Math_round (Js.mul progress (Js.Finite 100)) in
        let st := TaskStatus.status d in
        Some {|
          status_label :=
            if String.eqb st "pending" then "En attente"
            else if String.eqb st "running" then "En cours de g" ++ Js.e_acute ++ "n" ++ Js.e_acute ++ "ration"
            else if String.eqb st "completed" then "Termin" ++ Js.e_acute
            else if String.eqb st "failed" then Js.E_acute ++ "chec"
            else "Inconnu";
          progress_text :=
            if String.eqb st "running" then Some progressPercent else None;
          generation_error :=
            if String.eqb st "failed" then
              match TaskStatus.error d with
              | Some m => if Js.truthy m then Some ("Erreur: " ++ m)%string else None
              | None => None
              end
            else None |}
  | None => None
  end.

Definition render (r : State) : View := {|
  prompt_disabled := loading r;
  provider_disabled := loading r;
  settings_toggle_disabled := loading r;
  settings_fields := renderSettings r;
  generate_disabled := loading r || negb (Js.truthy (Js.trim (prompt r)));
  generate_label :=
    if loading r then "G" ++ Js.e_acute ++ "n" ++ Js.e_acute ++ "ration en cours..."
    else "G" ++ Js.e_acute ++ "n" ++ Js.e_acute ++ "rer la vid" ++ Js.e_acute ++ "o";
  error_message := if Js.truthy (error r) then Some (error r) else None;
  generation_status := renderGenerationStatus r;
  generated_video :=
    (fun v => (prompt r, provider r, file_id v)) <$> generatedVideo r |}.

(** An event that the rendered page lets happen: a disabled control does
    not fire, a setting can only be edited through an input that is
    shown.  Timers and answers of the network are not the page's to
    refuse. *)
Definition offered (w : World) (e : Event) : bool :=
  let v := render (state w) in
  match e with
  | ChangePrompt _ => negb (prompt_disabled v)
  | ChangeProvider _ => negb (provider_disabled v)
  | ToggleAdvancedSettings => negb (settings_toggle_disabled v)
  | ChangeSetting key _ => bool_decide (key ∈ settings_fields v)
  | SubmitForm => negb (generate_disabled v)
  | _ => true
  end.

(** Every event of the run was offered by the page when it happened. *)
Fixpoint offered_run (w : World) (es : list Event) : bool :=
  match es with
  | [] => true
  | e :: es' => offered w e && offered_run (step w e) es'
  end.

(** The status requests among the requests issued: those for the task
    ids that [P] selects, those for one task, all of them. *)
Definition is_status_request (P : string -> bool) (q : Request) : bool :=
  match q with
  | GET_video_generation_status t => P t
  | POST_generate_video _ _ _ => false
  end.

Definition status_requests_for (t : string) (l : list Request) : list Request :=
  List.filter (is_status_request (String.eqb t)) l.

Definition status_requests (l : list Request) : list Request :=
  List.filter (is_status_request (fun _ => true)) l.

End VideoGenerator.

(** ** AIModal.js *)

Module AIModal.

(** A [File] of the file input: its name and its declared MIME type. *)
Record File := { name : string; type : string }.

Record State := {
  prompt : string;
  response : string;
  loading : bool;
  error : string;
  provider : string;
  video : option VideoInfo;
  showVideoViewer : bool }.

Definition initial_state : State := {|
  prompt := "";
  response := "";
  loading := false;
  error := "";
  provider := "openai";
  video := None;
  showVideoViewer := false |}.

Inductive Request :=
| POST_process (prompt provider : string)
| POST_analyze_video (video_id prompt provider : string)
| POST_upload_video (file : File).

Definition url (q : Request) : string :=
  match q with
  | POST_process _ _ => "http://localhost:8000/api/process"
  | POST_analyze_video _ _ _ => "http://localhost:8000/api/analyze-video"
  | POST_upload_video _ => "http://localhost:8000/api/upload-video"
  end.

Inductive Cmd :=
| setPrompt (v : string)
| setResponse (v : string)
| setLoading (v : bool)
| setError (v : string)
| setProvider (v : string)
| setVideo (v : option VideoInfo)
| setShowVideoViewer (v : bool)
| axios_post (q : Request).

(** [handleSubmit], up to the request. *)
Definition handleSubmit (r : State) : list Cmd :=
  if negb (Js.truthy (Js.trim (prompt r))) then []
  else
    [setLoading true; setError "";
     axios_post
       match video r with
       | Some v => POST_analyze_video (file_id v) (prompt r) (provider r)
       | None => POST_process (prompt r) (provider r)
       end].

(** [handleSubmit] after the request resolved, with its [finally]. *)
Definition handleSubmit_then (result : string) : list Cmd :=
  [setResponse result; setLoading false].

(** [handleSubmit], the [catch] block and the [finally]; [detail] is
    [err.response?.data?.detail]. *)
Definition handleSubmit_catch (detail : option string) : list Cmd :=
  [setError ("Erreur: " ++ Js.or_else detail "Communication avec l'API impossible");
   setLoading false].

Definition not_a_video_message : string :=
  "Veuillez s" ++ Js.e_acute ++ "lectionner un fichier vid" ++ Js.e_acute ++ "o valide.".

Definition upload_failed_message : string :=
  "Erreur lors de l'upload de la vid" ++ Js.e_acute ++ "o. Veuillez r"
    ++ Js.e_acute ++ "essayer.".

(** [handleVideoUpload], up to the request; [files] is [e.target.files]. *)
Definition handleVideoUpload (files : list File) : list Cmd :=
  match files with
  | [] => []
  | file :: _ =>
      if negb (Js.startsWith (type file) "video/") then
        [setError not_a_video_message]
      else
        [setLoading true; setError ""; axios_post (POST_upload_video file)]
  end.

Definition handleVideoUpload_then (data : VideoInfo) : list Cmd :=
  [setVideo (Some data); setShowVideoViewer true; setLoading false].

Definition handleVideoUpload_catch : list Cmd :=
  [setError upload_failed_message; setLoading false].

Record World := {
  state : State;
  pending_submits : nat;
  pending_uploads : nat;
  requests : list Request }.

Definition with_state (f : State -> State) (w : World) : World :=
  {| state := f (state w); pending_submits := pending_submits w;
     pending_uploads := pending_uploads w; requests := requests w |}.

Definition exec_cmd (w : World) (c : Cmd) : World :=
  match c with
  | setPrompt v => with_state (fun s =>
      {| prompt := v; response := response s; loading := loading s;
         error := error s; provider := provider s; video := video s;
         showVideoViewer := showVideoViewer s |}) w
  | setResponse v => with_state (fun s =>
      {| prompt := prompt s; response := v; loading := loading s;
         error := error s; provider := provider s; video := video s;
         showVideoViewer := showVideoViewer s |}) w
  | setLoading v => with_state (fun s =>
      {| prompt := prompt s; response := response s; loading := v;
         error := error s; provider := provider s; video := video s;
         showVideoViewer := showVideoViewer s |}) w
  | setError v => with_state (fun s =>
      {| prompt := prompt s; response := response s; loading := loading s;
         error := v; provider := provider s; video := video s;
         showVideoViewer := showVideoViewer s |}) w
  | setProvider v => with_state (fun s =>
      {| prompt := prompt s; response := response s; loading := loading s;
         error := error s; provider := v; video := video s;
         showVideoViewer := showVideoViewer s |}) w
  | setVideo v => with_state (fun s =>
      {| prompt := prompt s; response := response s; loading := loading s;
         error := error s; provider := provider s; video := v;
         showVideoViewer := showVideoViewer s |}) w
  | setShowVideoViewer v => with_state (fun s =>
      {| prompt := prompt s; response := response s; loading := loading s;
         error := error s; provider := provider s; video := video s;
         showVideoViewer := v |}) w
  | axios_post q =>
      match q with
      | POST_upload_video _ =>
          {| state := state w; pending_submits := pending_submits w;
             pending_uploads := S (pending_uploads w);
             requests := requests w ++ [q] |}
      | _ =>
          {| state := state w; pending_submits := S (pending_submits w);
             pending_uploads := pending_uploads w;
             requests := requests w ++ [q] |}
      end
  end.

Definition exec (cmds : list Cmd) (w : World) : World :=
  fold_left exec_cmd cmds w.

Definition mount : World :=
  {| state := initial_state; pending_submits := 0; pending_uploads := 0;
     requests := [] |}.

Inductive ProviderOption := opt_openai | opt_anthropic | opt_deepseek.

Definition option_value (o : ProviderOption) : string :=
  match o with
  | opt_openai => "openai"
  | opt_anthropic => "anthropic"
  | opt_deepseek => "deepseek"
  end.

Inductive Event :=
| ChangePrompt (value : string)
| ChangeProvider (o : ProviderOption)
| ToggleVideoViewer
| SubmitForm
| SubmitResolved (result : string)
| SubmitRejected (detail : option string)
| SelectFiles (files : list File)
| UploadResolved (data : VideoInfo)
| UploadRejected.

Definition forget_submit (w : World) : World :=
  {| state := state w; pending_submits := pred (pending_submits w);
     pending_uploads := pending_uploads w; requests := requests w |}.

Definition forget_upload (w : World) : World :=
  {| state := state w; pending_submits := pending_submits w;
     pending_uploads := pred (pending_uploads w); requests := requests w |}.

(** The component has no effects: a turn of the event loop is the
    handler. *)
Definition step (w : World) (e : Event) : World :=
  match e with
  | ChangePrompt v => exec [setPrompt v] w
  | ChangeProvider o => exec [setProvider (option_value o)] w
  | ToggleVideoViewer =>
      exec [setShowVideoViewer (negb (showVideoViewer (state w)))] w
  | SubmitForm => exec (handleSubmit (state w)) w
  | SubmitResolved result =>
      match pending_submits w with
      | O => w
      | S _ => exec (handleSubmit_then result) (forget_submit w)
      end
  | SubmitRejected detail =>
      match pending_submits w with
      | O => w
      | S _ => exec (handleSubmit_catch detail) (forget_submit w)
      end
  | SelectFiles files => exec (handleVideoUpload files) w
  | UploadResolved data =>
      match pending_uploads w with
      | O => w
      | S _ => exec (handleVideoUpload_then data) (forget_upload w)
      end
  | UploadRejected =>
      match pending_uploads w with
      | O => w
      | S _ => exec handleVideoUpload_catch (forget_upload w)
      end
  end.

Definition run (w : World) (es : list Event) : World := fold_left step es w.

(** What the open modal shows of the state the claims are about. *)
Record View := {
  submit_disabled : bool;
  error_message : option string;
  response_content : option string;
  selected_video : option string }.

(** The component renders nothing unless its [isOpen] prop is set. *)
Definition render (isOpen : bool) (r : State) : option View :=
  if negb isOpen then None
  else Some {|
    submit_disabled := loading r || negb (Js.truthy (Js.trim (prompt r)));
    error_message := if Js.truthy (error r) then Some (error r) else None;
    response_content := if Js.truthy (response r) then Some (response r) else None;
    selected_video := filename <$> video r |}.

End AIModal.

(** * Vocabulary of the properties *)

Module VideoGeneratorSpec.
Import VideoGenerator.

(** The commands of effects: no request, and of the state cells only
    [settings], [statusInterval] and [generatedVideo]. *)
Definition effect_cmd (c : Cmd) : Prop :=
  match c with
  | setSettings _ | setGeneratedVideo _ | setStatusInterval _
  | setInterval _ _ | clearInterval _ => True
  | _ => False
  end.

(** The dependencies recorded by a commit are those of its state. *)
Definition deps_synced (w : World) : Prop :=
  deps_provider w = provider (state w)
  /\ deps_taskId w = taskId (state w)
  /\ deps_taskStatus w = fst <$> taskStatus (state w).

(** A callback given to [setInterval] was created in a render in which
    [taskId] was truthy and [statusInterval] was still [null]. *)
Definition stale_closure (k : Closure) : Prop :=
  cl_statusInterval k = None /\ Js.truthy_opt (cl_taskId k) = true.

(** The timer and its handle: an active timer has its handle stored in
    [statusInterval], there is at most one, timers and requests in flight
    carry stale closures, and the stored answer is an object that exists. *)
Record timers_ok (w : World) : Prop := {
  ok_handle :
    forall t, t ∈ timers w -> statusInterval (state w) = Some (timer_id t);
  ok_at_most_one : (length (timers w) <= 1)%nat;
  ok_callbacks : Forall (fun t => stale_closure (callback t)) (timers w);
  ok_gets : Forall stale_closure (pending_gets w);
  ok_object :
    forall o d, taskStatus (state w) = Some (o, d) -> (o < next_object w)%nat }.

(** What the handlers execute: they never touch the timer or its handle,
    except for the [catch] of [checkTaskStatus], whose closure is stale. *)
Definition handler_cmd (c : Cmd) : Prop :=
  match c with
  | setStatusInterval _ | setInterval _ _ | clearInterval _ => False
  | axios_get _ k => stale_closure k
  | _ => True
  end.

(** The handler that an event runs, with the world in which the answered
    request is no longer in flight; [None] for an event that cannot
    happen. *)
Definition handler_of (w : World) (e : Event) : option (list Cmd * World) :=
  match e with
  | ChangePrompt v => Some ([setPrompt v], w)
  | ChangeProvider o => Some ([setProvider (option_value o)], w)
  | ToggleAdvancedSettings =>
      Some ([setShowAdvancedSettings (negb (showAdvancedSettings (state w)))], w)
  | ChangeSetting key value => Some (updateSetting (state w) key value, w)
  | SubmitForm => Some (handleGenerateVideo (state w), w)
  | PostResolved task_id =>
      match pending_posts w with
      | O => None
      | S _ => Some (handleGenerateVideo_then task_id, forget_post w)
      end
  | PostRejected detail =>
      match pending_posts w with
      | O => None
      | S _ => Some (handleGenerateVideo_catch detail, forget_post w)
      end
  | TimerFired id =>
      (fun t => (checkTaskStatus (callback t), w)) <$> find_timer id w
  | GetResolved n data =>
      (fun _ => (checkTaskStatus_then data, forget_get n w)) <$> pending_gets w !! n
  | GetRejected n =>
      (fun k => (checkTaskStatus_catch k, forget_get n w)) <$> pending_gets w !! n
  end.

(** [w0] is [w] with some of the requests in flight forgotten. *)
Record same_but_pending (w0 w : World) : Prop := {
  sbp_state : state w0 = state w;
  sbp_deps_provider : deps_provider w0 = deps_provider w;
  sbp_deps_taskId : deps_taskId w0 = deps_taskId w;
  sbp_deps_taskStatus : deps_taskStatus w0 = deps_taskStatus w;
  sbp_cleanup : cleanup_statusInterval w0 = cleanup_statusInterval w;
  sbp_timers : timers w0 = timers w;
  sbp_next_timer : next_timer w0 = next_timer w;
  sbp_next_object : next_object w0 = next_object w;
  sbp_requests : requests w0 = requests w;
  sbp_posts : (pending_posts w0 <= pending_posts w)%nat;
  sbp_gets : forall k, k ∈ pending_gets w0 -> k ∈ pending_gets w }.

(** The invariant of the mounted component, between two turns of the event
    loop. *)
Definition Inv (w : World) : Prop := timers_ok w /\ deps_synced w.

(** The [generatedVideo] after a terminal answer [d]. *)
Definition result_of (d : TaskStatus.t) (old : option VideoInfo) : option VideoInfo :=
  if String.eqb (TaskStatus.status d) "completed" then
    match TaskStatus.video_info d with
    | Some v => Some v
    | None => old
    end
  else old.

(** A command that starts a timer, if at all, with a callback in [P]. *)
Definition starts_only (P : Closure -> Prop) (c : Cmd) : Prop :=
  match c with
  | setInterval _ k => P k
  | _ => True
  end.

(** No active timer polls a task that [P] selects. *)
Definition no_timer_of (P : string -> bool) (w : World) : Prop :=
  forall tm t, tm ∈ timers w -> cl_taskId (callback tm) = Some t -> P t = false.

(** The event is not the answer of a generation request with a task id
    that [P] selects. *)
Definition not_post_of (P : string -> bool) (e : Event) : Prop :=
  match e with
  | PostResolved t => P t = false
  | _ => True
  end.

(** The closures that can still issue or answer a status request. *)
Definition polling_closure (w : World) (k : Closure) : Prop :=
  k ∈ pending_gets w \/ exists tm, tm ∈ timers w /\ callback tm = k.

(** What holds in addition when every event was offered by the page:
    submissions do not overlap, and while a task is polled the form stays
    disabled and the polled task is the stored one. *)
Record page_ok (w : World) : Prop := {
  page_inv : Inv w;
  page_posts : (pending_posts w <= 1)%nat;
  page_posting : pending_posts w = 1%nat -> loading (state w) = true;
  page_polling : forall k, polling_closure w k ->
    cl_taskId k = taskId (state w)
    /\ loading (state w) = true /\ pending_posts w = 0%nat }.

(** The first timer of the mount, polling task [t]. *)
Definition first_timer (t : string) : Timer :=
  {| timer_id := 1;
     callback := {| cl_taskId := Some t; cl_statusInterval := None |} |}.

(** Task [t], submitted with prompt [p], is being polled by the first timer
    and no request is in flight. *)
Record polling (p t : string) (w : World) : Prop := {
  polling_inv : Inv w;
  polling_timer : timers w = [first_timer t];
  polling_gets : pending_gets w = [];
  polling_posts : pending_posts w = 0%nat;
  polling_loading : loading (state w) = true;
  polling_prompt : prompt (state w) = p;
  polling_provider : provider (state w) = "replicate";
  polling_taskId : taskId (state w) = Some t }.

(** The events by which the user acts on a control of the form. *)
Definition form_control (e : Event) : bool :=
  match e with
  | ChangePrompt _ | ChangeProvider _ | ToggleAdvancedSettings
  | ChangeSetting _ _ | SubmitForm => true
  | _ => false
  end.

(** Answers of the status endpoint. *)
Definition pending_answer : TaskStatus.t :=
  {| TaskStatus.status := "pending"; TaskStatus.progress := Some 0%Q;
     TaskStatus.video_info := None; TaskStatus.error := None |}.

Definition running_answer (progress : Q) : TaskStatus.t :=
  {| TaskStatus.status := "running"; TaskStatus.progress := Some progress;
     TaskStatus.video_info := None; TaskStatus.error := None |}.

Definition completed_answer (v : VideoInfo) : TaskStatus.t :=
  {| TaskStatus.status := "completed"; TaskStatus.progress := Some 1%Q;
     TaskStatus.video_info := Some v; TaskStatus.error := None |}.

Definition failed_answer (message : string) : TaskStatus.t :=
  {| TaskStatus.status := "failed"; TaskStatus.progress := None;
     TaskStatus.video_info := None; TaskStatus.error := Some message |}.

(** One tick of the first timer and the answer to its request. *)
Definition poll_round (data : TaskStatus.t) : list Event :=
  [TimerFired 1; GetResolved 0 data].

(** A submission, then the scripted answers pending, running(0.3),
    running(0.7), completed. *)
Definition scripted_run (p t : string) (v : VideoInfo) : list Event :=
  [ChangePrompt p; SubmitForm; PostResolved t]
  ++ poll_round pending_answer
  ++ poll_round (running_answer (3 # 10))
  ++ poll_round (running_answer (7 # 10))
  ++ poll_round (completed_answer v).

Definition cat_video : VideoInfo := {| file_id := "v42"; filename := "cat.mp4" |}.

(** A submission that the backend accepted as task [t1]. *)
Definition accepted_run : list Event :=
  [ChangePrompt "a cat"; SubmitForm; PostResolved "t1"].

(** The same, with the first status request in flight. *)
Definition first_poll_run : list Event := accepted_run ++ [TimerFired 1].

End VideoGeneratorSpec.

Module AIModalSpec.

(** A file that is not a video. *)
Definition notes_txt : AIModal.File :=
  {| AIModal.name := "notes.txt"; AIModal.type := "text/plain" |}.

End AIModalSpec.

(** * The rest of the front end *)

(** ** VideoGenerator.js: the unmount *)

Module VideoGeneratorUnmount.
Import VideoGenerator.

(** Unmounting the component runs the cleanup that the poll-timer effect
    returned last; the other two effects return none. *)
Definition unmount (w : World) : World :=
  exec (effect_poll_timer_cleanup (cleanup_statusInterval w)) w.

(** After the unmount the state setters do nothing; timers and HTTP calls
    are the browser's and work as before. *)
Definition exec_cmd_unmounted (w : World) (c : Cmd) : World :=
  match c with
  | setInterval _ _ | clearInterval _ | axios_post _ | axios_get _ _ =>
      exec_cmd w c
  | _ => w
  end.

Definition exec_unmounted (cmds : list Cmd) (w : World) : World :=
  fold_left exec_cmd_unmounted cmds w.

(** One turn of the event loop for an instance that was unmounted: its
    controls are gone, its timers and the continuations of its requests
    still run, and nothing renders. *)
Definition step_unmounted (w : World) (e : Event) : World :=
  match e with
  | PostResolved task_id =>
      match pending_posts w with
      | O => w
      | S _ => exec_unmounted (handleGenerateVideo_then task_id) (forget_post w)
      end
  | PostRejected detail =>
      match pending_posts w with
      | O => w
      | S _ => exec_unmounted (handleGenerateVideo_catch detail) (forget_post w)
      end
  | TimerFired id =>
      match find_timer id w with
      | Some t => exec_unmounted (checkTaskStatus (callback t)) w
      | None => w
      end
  | GetResolved n data =>
      match pending_gets w !! n with
      | Some _ => exec_unmounted (checkTaskStatus_then data) (forget_get n w)
      | None => w
      end
  | GetRejected n =>
      match pending_gets w !! n with
      | Some k => exec_unmounted (checkTaskStatus_catch k) (forget_get n w)
      | None => w
      end
  | _ => w
  end.

Definition run_unmounted (w : World) (es : list Event) : World :=
  fold_left step_unmounted es w.

End VideoGeneratorUnmount.

(** ** AIModal.js: what the open modal offers *)

Module AIModalPage.
Import AIModal.

(** The textarea, the provider select and the upload button are disabled
    while [loading]; the hidden file input opens through the upload button
    only; the viewer toggle exists once a video is selected.  A closed
    modal renders nothing and offers less. *)
Definition offered (w : World) (e : Event) : bool :=
  match e with
  | ChangePrompt _ | ChangeProvider _ | SelectFiles _ => negb (loading (state w))
  | ToggleVideoViewer => bool_decide (is_Some (video (state w)))
  | SubmitForm =>
      negb (loading (state w) || negb (Js.truthy (Js.trim (prompt (state w)))))
  | _ => true
  end.

Fixpoint offered_run (w : World) (es : list Event) : bool :=
  match es with
  | [] => true
  | e :: es' => offered w e && offered_run (step w e) es'
  end.

(** The requests in flight. *)
Definition in_flight (w : World) : nat := pending_submits w + pending_uploads w.

End AIModalPage.

(** ** App.js *)

Module App.

Record State := { isModalOpen : bool; activeTab : string }.

Definition initial_state : State :=
  {| isModalOpen := false; activeTab := "home" |}.

Inductive Cmd :=
| setIsModalOpen (v : bool)
| setActiveTab (v : string).

Definition openModal : list Cmd := [setIsModalOpen true].
Definition closeModal : list Cmd := [setIsModalOpen false].

(** What [renderContent] returns. *)
Inductive Content := Home | Generator | NotFound.

Definition renderContent (r : State) : Content :=
  if String.eqb (activeTab r) "home" then Home
  else if String.eqb (activeTab r) "video-generator" then Generator
  else NotFound.

(** The two buttons of the navigation bar. *)
Inductive NavButton := nav_home | nav_video_generator.

Definition nav_target (b : NavButton) : string :=
  match b with
  | nav_home => "home"
  | nav_video_generator => "video-generator"
  end.

(** The application with its children: the modal is rendered always (it
    returns [null] itself while closed), the generator only under its tab.
    [detached] are the generator instances that were unmounted, with what
    they left in the browser. *)
Record World := {
  state : State;
  modal : AIModal.World;
  generator : option VideoGenerator.World;
  detached : list VideoGenerator.World }.

Definition mount : World :=
  {| state := initial_state; modal := AIModal.mount; generator := None;
     detached := [] |}.

Definition exec_cmd (r : State) (c : Cmd) : State :=
  match c with
  | setIsModalOpen v => {| isModalOpen := v; activeTab := activeTab r |}
  | setActiveTab v => {| isModalOpen := isModalOpen r; activeTab := v |}
  end.

Definition exec (cmds : list Cmd) (r : State) : State := fold_left exec_cmd cmds r.

(** The commit of a new application state: a generator that is no longer
    rendered is unmounted, one that is newly rendered is mounted. *)
Definition reconcile (w : World) (r' : State) : World :=
  match renderContent (state w), renderContent r' with
  | Generator, Generator =>
      {| state := r'; modal := modal w; generator := generator w;
         detached := detached w |}
  | _, Generator =>
      {| state := r'; modal := modal w; generator := Some VideoGenerator.mount;
         detached := detached w |}
  | _, _ =>
      {| state := r'; modal := modal w; generator := None;
         detached :=
           detached w
           ++ match generator w with
              | Some g => [VideoGeneratorUnmount.unmount g]
              | None => []
              end |}
  end.

Inductive Event :=
| ClickOpenModal
| ClickCloseModal
| ClickNav (b : NavButton)
| ModalEvent (e : AIModal.Event)
| GeneratorEvent (e : VideoGenerator.Event)
| DetachedEvent (i : nat) (e : VideoGenerator.Event).

Definition step (w : World) (e : Event) : World :=
  match e with
  | ClickOpenModal => reconcile w (exec openModal (state w))
  | ClickCloseModal => reconcile w (exec closeModal (state w))
  | ClickNav b => reconcile w (exec [setActiveTab (nav_target b)] (state w))
  | ModalEvent e =>
      {| state := state w; modal := AIModal.step (modal w) e;
         generator := generator w; detached := detached w |}
  | GeneratorEvent e =>
      {| state := state w; modal := modal w;
         generator := (fun g => VideoGenerator.step g e) <$> generator w;
         detached := detached w |}
  | DetachedEvent i e =>
      {| state := state w; modal := modal w; generator := generator w;
         detached :=
           alter (fun g => VideoGeneratorUnmount.step_unmounted g e) i
             (detached w) |}
  end.

Definition run (w : World) (es : list Event) : World := fold_left step es w.

(** The events of a run that go to the modal. *)
Definition modal_events (es : list Event) : list AIModal.Event :=
  omap (fun e => match e with ModalEvent e' => Some e' | _ => None end) es.

(** What the application shows of the modal. *)
Definition render_modal (w : World) : option AIModal.View :=
  AIModal.render (isModalOpen (state w)) (AIModal.state (modal w)).

End App.

(** ** Vocabulary of the further properties *)

Module ExtraSpec.
Import VideoGenerator VideoGeneratorSpec VideoGeneratorUnmount.

(** The generation requests among the requests issued. *)
Definition is_post (q : Request) : bool :=
  match q with
  | POST_generate_video _ _ _ => true
  | GET_video_generation_status _ => false
  end.

(** The settings have exactly the fields of the template of [name]. *)
Definition shaped (name : string) (s : Settings) : Prop :=
  exists tpl, settingsTemplates name = Some tpl /\ dom s = dom tpl.

(** The provider is one of the select's options, and the settings, in the
    state and in every generation request issued, have the fields of the
    provider they go with. *)
Record settings_ok (w : World) : Prop := {
  so_provider : exists o, provider (state w) = option_value o;
  so_settings : shaped (provider (state w)) (settings (state w));
  so_requests : forall p pr s,
    POST_generate_video p pr s ∈ requests w -> shaped pr s }.

(** What holds of a run of the page before a submission is accepted: no
    cleanup closure has captured a handle, and until then no task and no
    handle are stored; a submission in flight has a prompt that is not
    blank. *)
Record page_more (w : World) : Prop := {
  pm_page : page_ok w;
  pm_cleanup : cleanup_statusInterval w = None;
  pm_before :
    loading (state w) = false \/ pending_posts w = 1%nat ->
    taskId (state w) = None /\ statusInterval (state w) = None;
  pm_prompt :
    pending_posts w = 1%nat -> Js.truthy (Js.trim (prompt (state w))) = true }.

(** The closures left to an unmounted instance are stale. *)
Definition unmounted_ok (w : World) : Prop :=
  Forall (fun t => stale_closure (callback t)) (timers w)
  /\ Forall stale_closure (pending_gets w).

(** The edits of a list of keys and values, as events and as updates of
    the settings object. *)
Definition edits (kvs : list (string * Js.number)) : list Event :=
  (fun kv => ChangeSetting kv.1 kv.2) <$> kvs.

Definition apply_edits (kvs : list (string * Js.number)) (s : Settings) : Settings :=
  fold_left (fun s kv => <[kv.1 := kv.2]> s) kvs s.

(** A resubmission while the first task is polled, accepted as [t2]. *)
Definition resubmitted_run : list Event :=
  accepted_run ++ [SubmitForm].

End ExtraSpec.

Module AIModalExtraSpec.
Import AIModal AIModalPage.

(** In a run of the open modal: at most one request is in flight, [loading]
    is set exactly then, and no error message is stored meanwhile. *)
Record page_ok (w : World) : Prop := {
  one_in_flight : (in_flight w <= 1)%nat;
  loading_in_flight : loading (state w) = true <-> in_flight w = 1%nat;
  no_error_in_flight : in_flight w = 1%nat -> error (state w) = "" }.

Definition is_process (q : Request) : bool :=
  match q with
  | POST_process _ _ => true
  | _ => false
  end.

(** What a request of a run [es] carries: a prompt that is not blank and a
    provider of the select, for an analysis the identifier of a video whose
    upload succeeded in the run, for an upload a file of a video type. *)
Definition request_ok (es : list Event) (q : Request) : Prop :=
  match q with
  | POST_process p pr =>
      Js.truthy (Js.trim p) = true /\ (exists o, pr = option_value o)
  | POST_analyze_video id p pr =>
      (exists data, UploadResolved data ∈ es /\ file_id data = id)
      /\ Js.truthy (Js.trim p) = true /\ (exists o, pr = option_value o)
  | POST_upload_video f => Js.startsWith (type f) "video/" = true
  end.

Definition clip_mp4 : File := {| name := "clip.mp4"; type := "video/mp4" |}.

Definition clip_info : VideoInfo := {| file_id := "f7"; filename := "clip.mp4" |}.

End AIModalExtraSpec.


(** * Properties *)

Module JsFacts.

Lemma trimStart_all_white_space (s : string) :
  Js.all_white_space s = true -> Js.trimStart s = "".
Proof.
  induction s as [|c s IH]; simpl; [reflexivity|].
  destruct (Js.is_white_space c); simpl; [exact IH | discriminate].
Qed.

Lemma trim_all_white_space (s : string) :
  Js.all_white_space s = true -> Js.trim s = "".
Proof.
  intros H. unfold Js.trim. now rewrite trimStart_all_white_space.
Qed.

Lemma trimEnd_empty_inv (s : string) :
  Js.trimEnd s = "" -> Js.all_white_space s = true.
Proof.
  induction s as [|c s IH]; simpl; [reflexivity|].
  destruct (Js.trimEnd s) eqn:E; [|discriminate].
  destruct (Js.is_white_space c); [intros _; now apply IH | discriminate].
Qed.

Lemma trimStart_white_space_inv (s : string) :
  Js.all_white_space (Js.trimStart s) = true -> Js.all_white_space s = true.
Proof.
  induction s as [|c s IH]; simpl; [reflexivity|].
  destruct (Js.is_white_space c) eqn:E; simpl; [exact IH|].
  now rewrite E.
Qed.

(** The guard [!prompt.trim()] holds exactly of the prompts made of white
    space only. *)
Lemma trim_falsy_iff (s : string) :
  Js.truthy (Js.trim s) = false <-> Js.all_white_space s = true.
Proof.
  split.
  - intros H. apply trimStart_white_space_inv, trimEnd_empty_inv.
    unfold Js.trim in H. now destruct (Js.trimEnd (Js.trimStart s)).
  - intros H. now rewrite trim_all_white_space.
Qed.

(** The percentage is [Math.round] of the binary64 product: [0.285 * 100]
    is [28.499999999999996], below the half that the exact product is. *)
Lemma percent_of_binary64_product :
  Js.Math_round (Js.mul (Js.to_double (285 # 1000)) (Js.Finite 100))
  = Js.Finite 28
  /\ Js.round ((285 # 1000) * 100) = 29%Z
  /\ Js.Math_round (Js.mul (Js.to_double (3 # 10)) (Js.Finite 100))
     = Js.Finite 30
  /\ Js.Math_round (Js.mul (Js.or_zero None) (Js.Finite 100)) = Js.Finite 0.
Proof. vm_compute. repeat split. Qed.

End JsFacts.

(** ** The video generator *)

Module VideoGeneratorFacts.
Import VideoGenerator VideoGeneratorSpec.

(** *** Effects and the commit *)

Lemma effects_due_effect_cmd (w : World) : Forall effect_cmd (effects_due w).
Proof.
  unfold effects_due, effect_poll_timer_cleanup, effect_provider,
    effect_poll_timer, effect_terminal.
  repeat apply Forall_app_2; repeat case_match;
    repeat first [apply Forall_app_2 | apply Forall_cons_2 | apply Forall_nil_2];
    exact I.
Qed.

Lemma exec_app (c1 c2 : list Cmd) (w : World) :
  exec (c1 ++ c2) w = exec c2 (exec c1 w).
Proof. apply fold_left_app. Qed.

(** A projection of the world that a class of commands leaves alone is
    left alone by a list of them. *)
Lemma exec_frame {A} (f : World -> A) (P : Cmd -> Prop) :
  (forall w c, P c -> f (exec_cmd w c) = f w) ->
  forall cmds w, Forall P cmds -> f (exec cmds w) = f w.
Proof.
  intros Hf cmds. induction cmds as [|c cmds IH]; intros w H; [reflexivity|].
  inversion H; subst. simpl. rewrite IH by assumption. now apply Hf.
Qed.

Lemma commit_frame {A} (f : World -> A) :
  (forall w c, effect_cmd c -> f (exec_cmd w c) = f w) ->
  forall w, f (commit w) =
    f {| state := state w;
       deps_provider := provider (state w); deps_taskId := taskId (state w);
       deps_taskStatus := fst <$> taskStatus (state w);
       cleanup_statusInterval :=
         if negb (bool_decide (taskId (state w) = deps_taskId w))
         then statusInterval (state w) else cleanup_statusInterval w;
       timers := timers w; next_timer := next_timer w;
       next_object := next_object w; pending_posts := pending_posts w;
       pending_gets := pending_gets w; requests := requests w |}.
Proof.
  intros Hf w. unfold commit.
  apply (exec_frame f effect_cmd Hf), effects_due_effect_cmd.
Qed.

Ltac frame := intros ? [] ?; simpl in *; (reflexivity || contradiction).

Lemma commit_requests w : requests (commit w) = requests w.
Proof. rewrite (commit_frame requests); [reflexivity | frame]. Qed.
Lemma commit_pending_posts w : pending_posts (commit w) = pending_posts w.
Proof. rewrite (commit_frame pending_posts); [reflexivity | frame]. Qed.
Lemma commit_pending_gets w : pending_gets (commit w) = pending_gets w.
Proof. rewrite (commit_frame pending_gets); [reflexivity | frame]. Qed.
Lemma commit_loading w : loading (state (commit w)) = loading (state w).
Proof. rewrite (commit_frame (fun w => loading (state w))); [reflexivity | frame]. Qed.
Lemma commit_prompt w : prompt (state (commit w)) = prompt (state w).
Proof. rewrite (commit_frame (fun w => prompt (state w))); [reflexivity | frame]. Qed.
Lemma commit_provider w : provider (state (commit w)) = provider (state w).
Proof. rewrite (commit_frame (fun w => provider (state w))); [reflexivity | frame]. Qed.
Lemma commit_error w : error (state (commit w)) = error (state w).
Proof. rewrite (commit_frame (fun w => error (state w))); [reflexivity | frame]. Qed.
Lemma commit_taskId w : taskId (state (commit w)) = taskId (state w).
Proof. rewrite (commit_frame (fun w => taskId (state w))); [reflexivity | frame]. Qed.
Lemma commit_taskStatus w : taskStatus (state (commit w)) = taskStatus (state w).
Proof. rewrite (commit_frame (fun w => taskStatus (state w))); [reflexivity | frame]. Qed.
Lemma commit_next_object w : next_object (commit w) = next_object w.
Proof. rewrite (commit_frame next_object); [reflexivity | frame]. Qed.
Lemma commit_showAdvancedSettings w :
  showAdvancedSettings (state (commit w)) = showAdvancedSettings (state w).
Proof.
  rewrite (commit_frame (fun w => showAdvancedSettings (state w)));
    [reflexivity | frame].
Qed.
Lemma commit_deps_provider w : deps_provider (commit w) = provider (state w).
Proof. rewrite (commit_frame deps_provider); [reflexivity | frame]. Qed.
Lemma commit_deps_taskId w : deps_taskId (commit w) = taskId (state w).
Proof. rewrite (commit_frame deps_taskId); [reflexivity | frame]. Qed.
Lemma commit_deps_taskStatus w :
  deps_taskStatus (commit w) = fst <$> taskStatus (state w).
Proof. rewrite (commit_frame deps_taskStatus); [reflexivity | frame]. Qed.

Lemma commit_deps_synced w : deps_synced (commit w).
Proof.
  unfold deps_synced.
  now rewrite commit_deps_provider, commit_deps_taskId, commit_deps_taskStatus,
    commit_provider, commit_taskId, commit_taskStatus.
Qed.

Lemma effects_due_synced w : deps_synced w -> effects_due w = [].
Proof.
  intros (H1 & H2 & H3). unfold effects_due.
  rewrite !bool_decide_eq_true_2 by congruence. reflexivity.
Qed.

(** With nothing changed, the render runs no effect. *)
Lemma commit_synced w : deps_synced w -> commit w = w.
Proof.
  intros H. unfold commit. rewrite (effects_due_synced _ H).
  destruct H as (H1 & H2 & H3).
  rewrite bool_decide_eq_true_2 by congruence.
  destruct w; simpl in *. now subst.
Qed.

Lemma commit_idempotent w : commit (commit w) = commit w.
Proof. apply commit_synced, commit_deps_synced. Qed.

(** *** The poll timer and its handle *)

Lemma exec_cmd_timers_ok w c :
  handler_cmd c -> timers_ok w -> timers_ok (exec_cmd w c).
Proof.
  intros Hc [H1 H2 H3 H4 H5].
  destruct c; simpl in Hc; try contradiction;
    constructor; simpl; try assumption.
  - intros o d. destruct v as [d'|]; simpl; [|discriminate].
    intros [= <- _]. lia.
  - apply Forall_app_2; [assumption|]. now constructor.
Qed.

Lemma exec_timers_ok cmds w :
  Forall handler_cmd cmds -> timers_ok w -> timers_ok (exec cmds w).
Proof.
  revert w. induction cmds as [|c cmds IH]; intros w H Hw; [assumption|].
  inversion H; subst. simpl. apply IH; [assumption|].
  now apply exec_cmd_timers_ok.
Qed.

Lemma clearInterval_timers_ok w i :
  timers_ok w -> timers_ok (exec_cmd w (clearInterval i)).
Proof.
  intros [H1 H2 H3 H4 H5]. constructor; simpl; try assumption.
  - intros t Ht. apply H1. now apply list_elem_of_filter in Ht as [_ Ht].
  - etransitivity; [apply length_filter | assumption].
  - rewrite Forall_forall in H3 |- *. intros t Ht.
    apply list_elem_of_filter in Ht as [_ Ht]. now apply H3.
Qed.

Lemma timers_ok_no_handle w :
  timers_ok w -> statusInterval (state w) = None -> timers w = [].
Proof.
  intros [H1 _ _ _ _] Hn. destruct (timers w) as [|t ts]; [reflexivity|].
  specialize (H1 t ltac:(left)). congruence.
Qed.

Lemma timers_ok_cleanup w c :
  timers_ok w -> timers_ok (exec (effect_poll_timer_cleanup c) w).
Proof.
  intros H. destruct c as [i|]; simpl; [|assumption].
  now apply clearInterval_timers_ok.
Qed.

Lemma timers_ok_effect_poll_timer w r fresh :
  timers_ok w -> statusInterval (state w) = statusInterval r ->
  timers_ok (exec (effect_poll_timer r fresh) w).
Proof.
  intros Hw Hsi. unfold effect_poll_timer.
  destruct (Js.truthy_opt (taskId r)) eqn:Ht; simpl; [|assumption].
  case_bool_decide as Hs; simpl; [assumption|].
  assert (statusInterval r = None) as Hn.
  { destruct (statusInterval r); [|reflexivity]. exfalso. apply Hs. eauto. }
  rewrite Hn in Hsi. pose proof (timers_ok_no_handle w Hw Hsi) as Hnil.
  destruct Hw as [H1 H2 H3 H4 H5].
  constructor; simpl; rewrite ?Hnil; simpl; try assumption.
  - intros t Ht'. apply list_elem_of_singleton in Ht'. now subst.
  - lia.
  - repeat constructor; simpl; assumption.
Qed.

Lemma timers_ok_stop w i :
  timers_ok w -> statusInterval (state w) = Some i ->
  timers_ok (exec [clearInterval i; setStatusInterval None] w)
  /\ timers (exec [clearInterval i; setStatusInterval None] w) = [].
Proof.
  intros [H1 H2 H3 H4 H5] Hsi.
  assert (filter (fun t => timer_id t ≠ i) (timers w) = []) as Hnil.
  { destruct (filter _ _) as [|t ts] eqn:E; [reflexivity|].
    assert (t ∈ filter (fun t => timer_id t ≠ i) (timers w)) as Ht
      by (rewrite E; left).
    apply list_elem_of_filter in Ht as [Hne Ht].
    specialize (H1 t Ht). congruence. }
  split; [|exact Hnil].
  constructor; simpl; rewrite ?Hnil; simpl; try assumption.
  - intros t Ht. inversion Ht.
  - lia.
  - constructor.
Qed.

Lemma timers_ok_effect_terminal w r :
  timers_ok w ->
  statusInterval (state w) = statusInterval r \/ statusInterval r = None ->
  timers_ok (exec (effect_terminal r) w).
Proof.
  intros Hw Hsi. unfold effect_terminal.
  destruct (taskStatus r) as [[o d]|]; [|assumption].
  destruct (TaskStatus.is_terminal d); [|assumption].
  rewrite exec_app.
  apply exec_timers_ok.
  { repeat case_match; repeat constructor. }
  destruct (statusInterval r) as [i|] eqn:E; [|assumption].
  destruct Hsi as [Hsi|]; [|discriminate].
  now apply timers_ok_stop.
Qed.

Lemma effect_poll_timer_handle w r fresh :
  statusInterval (state (exec (effect_poll_timer r fresh) w))
    = statusInterval (state w)
  \/ statusInterval r = None.
Proof.
  unfold effect_poll_timer.
  destruct (Js.truthy_opt (taskId r)); simpl; [|now left].
  case_bool_decide as Hs; simpl; [now left|].
  right. destruct (statusInterval r); [|reflexivity]. exfalso. apply Hs. eauto.
Qed.

(** The commit re-establishes the invariant whatever the handler did to
    the state cells. *)
Lemma commit_timers_ok w : timers_ok w -> timers_ok (commit w).
Proof.
  intros Hw. unfold commit, effects_due. rewrite !exec_app.
  set (r := state w).
  match goal with |- context [exec _ ?w0] =>
    match w0 with {| state := _ |} => set (w1 := w0) end end.
  assert (timers_ok w1) as H1 by (destruct Hw; now constructor).
  assert (statusInterval (state w1) = statusInterval r) as E1 by reflexivity.
  clearbody w1.
  match goal with |- context [exec ?c w1] => set (w2 := exec c w1) end.
  assert (timers_ok w2 /\ statusInterval (state w2) = statusInterval r)
    as [H2 E2].
  { subst w2. case_match; simpl; [|now split]. split.
    - now apply timers_ok_cleanup.
    - destruct (cleanup_statusInterval w); simpl; assumption. }
  clearbody w2.
  match goal with |- context [exec ?c w2] => set (w3 := exec c w2) end.
  assert (timers_ok w3 /\ statusInterval (state w3) = statusInterval r)
    as [H3 E3].
  { subst w3. case_match; [|now split]. split; [|assumption].
    apply exec_timers_ok; [repeat constructor | assumption]. }
  clearbody w3.
  match goal with |- context [exec ?c w3] => set (w4 := exec c w3) end.
  assert (timers_ok w4 /\
          (statusInterval (state w4) = statusInterval r
           \/ statusInterval r = None)) as [H4 E4].
  { subst w4. case_match; simpl; [|split; [assumption | now left]]. split.
    - now apply timers_ok_effect_poll_timer.
    - destruct (effect_poll_timer_handle w3 r (next_timer w)) as [E|E];
        [left; congruence | now right]. }
  clearbody w4.
  case_match; simpl; [|assumption].
  now apply timers_ok_effect_terminal.
Qed.

(** *** One turn of the event loop, taken apart *)

Lemma step_handler w e :
  step w e = match handler_of w e with
             | Some (cmds, w0) => dispatch cmds w0
             | None => w
             end.
Proof. destruct e; simpl; repeat case_match; simplify_eq/=; reflexivity. Qed.

Lemma same_but_pending_refl w : same_but_pending w w.
Proof. constructor; auto. Qed.

Lemma same_but_pending_forget_post w : same_but_pending (forget_post w) w.
Proof. constructor; simpl; auto. lia. Qed.

Lemma same_but_pending_forget_get n w : same_but_pending (forget_get n w) w.
Proof.
  constructor; simpl; auto. intros k Hk.
  now apply list_elem_of_delete_inv in Hk.
Qed.

Lemma find_timer_elem id w t : find_timer id w = Some t -> t ∈ timers w.
Proof.
  unfold find_timer. intros H.
  apply head_Some_elem_of, list_elem_of_filter in H. tauto.
Qed.

Lemma same_but_pending_timers_ok w0 w :
  same_but_pending w0 w -> timers_ok w -> timers_ok w0.
Proof.
  intros [] [H1 H2 H3 H4 H5].
  constructor; rewrite ?sbp_state0, ?sbp_timers0, ?sbp_next_object0; auto.
  rewrite Forall_forall in H4 |- *. auto.
Qed.

Lemma handler_of_spec w e cmds w0 :
  timers_ok w -> handler_of w e = Some (cmds, w0) ->
  Forall handler_cmd cmds /\ same_but_pending w0 w.
Proof.
  intros Hw He. destruct e; simpl in He.
  - simplify_eq. split; [repeat constructor | apply same_but_pending_refl].
  - simplify_eq. split; [repeat constructor | apply same_but_pending_refl].
  - simplify_eq. split; [repeat constructor | apply same_but_pending_refl].
  - simplify_eq. split; [repeat constructor | apply same_but_pending_refl].
  - simplify_eq. split; [|apply same_but_pending_refl].
    unfold handleGenerateVideo. case_match; repeat constructor.
  - destruct (pending_posts w); simplify_eq.
    split; [repeat constructor | apply same_but_pending_forget_post].
  - destruct (pending_posts w); simplify_eq.
    split; [repeat constructor | apply same_but_pending_forget_post].
  - destruct (find_timer id w) as [t|] eqn:Ht; simplify_eq/=.
    split; [|apply same_but_pending_refl].
    apply find_timer_elem in Ht.
    destruct Hw as [_ _ H3 _ _]. rewrite Forall_forall in H3.
    specialize (H3 t Ht). unfold checkTaskStatus.
    repeat case_match; repeat constructor; apply H3.
  - destruct (pending_gets w !! n) as [k|] eqn:Hk; simplify_eq/=.
    split; [repeat constructor | apply same_but_pending_forget_get].
  - destruct (pending_gets w !! n) as [k|] eqn:Hk; simplify_eq/=.
    split; [|apply same_but_pending_forget_get].
    destruct Hw as [_ _ _ H4 _]. rewrite Forall_forall in H4.
    assert (k ∈ pending_gets w) as Hin by (apply list_elem_of_lookup; eauto).
    destruct (H4 k Hin) as [Hs _]. unfold checkTaskStatus_catch.
    rewrite Hs. repeat constructor.
Qed.

(** *** The invariant of the mounted component *)

Lemma mount_inv : Inv mount.
Proof.
  split; [|repeat split].
  constructor; simpl.
  - intros t Ht. inversion Ht.
  - lia.
  - constructor.
  - constructor.
  - discriminate.
Qed.

Lemma step_inv w e : Inv w -> Inv (step w e).
Proof.
  intros [Hw Hd]. rewrite step_handler.
  destruct (handler_of w e) as [[cmds w0]|] eqn:He; [|now split].
  destruct (handler_of_spec _ _ _ _ Hw He) as [Hc Hs].
  split; [|apply commit_deps_synced].
  apply commit_timers_ok, exec_timers_ok; [assumption|].
  now apply (same_but_pending_timers_ok w0 w).
Qed.

Lemma run_inv es : forall w, Inv w -> Inv (run w es).
Proof.
  induction es as [|e es IH]; intros w Hw; [assumption|].
  simpl. apply IH. now apply step_inv.
Qed.

Lemma run_app w es1 es2 : run w (es1 ++ es2) = run (run w es1) es2.
Proof. apply fold_left_app. Qed.

(** *** A terminal status stops the timer *)

Lemma commit_terminal w o d :
  timers_ok w ->
  deps_provider w = provider (state w) ->
  deps_taskId w = taskId (state w) ->
  taskStatus (state w) = Some (o, d) ->
  deps_taskStatus w <> Some o ->
  TaskStatus.is_terminal d = true ->
  timers (commit w) = []
  /\ statusInterval (state (commit w)) = None
  /\ generatedVideo (state (commit w)) = result_of d (generatedVideo (state w)).
Proof.
  intros Hw Hp Ht Hs Hd Hterm.
  unfold commit, effects_due.
  rewrite (bool_decide_eq_true_2 (provider (state w) = deps_provider w))
    by congruence.
  rewrite (bool_decide_eq_true_2 (taskId (state w) = deps_taskId w))
    by congruence.
  rewrite bool_decide_eq_false_2 by (rewrite Hs; simpl; congruence).
  simpl. unfold effect_terminal, result_of. rewrite Hs, Hterm, exec_app.
  match goal with |- context [exec _ ?w0] =>
    match w0 with {| state := _ |} => set (w1 := w0) end end.
  assert (timers_ok w1) as H1 by (destruct Hw; now constructor).
  assert (generatedVideo (state w1) = generatedVideo (state w)) as Hg
    by reflexivity.
  assert (statusInterval (state w1) = statusInterval (state w)) as Hsi1
    by reflexivity.
  clearbody w1. rewrite <- Hg.
  destruct (statusInterval (state w)) as [i|] eqn:Hsi.
  - destruct (timers_ok_stop w1 i H1 Hsi1) as [_ Hnil].
    simpl in Hnil |- *.
    repeat case_match; simpl; rewrite ?Hnil; auto.
  - pose proof (timers_ok_no_handle w1 H1 Hsi1) as Hnil.
    repeat case_match; simpl; rewrite ?Hnil; auto.
Qed.

Lemma step_terminal w n k data :
  Inv w -> pending_gets w !! n = Some k ->
  TaskStatus.is_terminal data = true ->
  timers (step w (GetResolved n data)) = []
  /\ statusInterval (state (step w (GetResolved n data))) = None
  /\ snd <$> taskStatus (state (step w (GetResolved n data))) = Some data
  /\ generatedVideo (state (step w (GetResolved n data)))
      = result_of data (generatedVideo (state w)).
Proof.
  intros [Hw (Hp & Ht & Hs)] Hk Hterm. simpl. rewrite Hk. unfold dispatch.
  set (w1 := exec (checkTaskStatus_then data) (forget_get n w)).
  assert (timers_ok w1) as H1.
  { apply exec_timers_ok; [repeat constructor|].
    apply (same_but_pending_timers_ok _ w); [|assumption].
    apply same_but_pending_forget_get. }
  destruct (commit_terminal w1 (next_object w) data) as (A & B & C);
    try assumption; try reflexivity.
  - simpl. rewrite Hs. destruct (taskStatus (state w)) as [[o d]|] eqn:E;
      simpl; [|discriminate].
    destruct Hw as [_ _ _ _ H5]. specialize (H5 o d E).
    intros [= ->]. lia.
  - rewrite commit_taskStatus. repeat split; assumption.
Qed.

(** *** Where timers and requests come from *)

Lemma exec_timers_origin P cmds :
  Forall (starts_only P) cmds ->
  forall w t, t ∈ timers (exec cmds w) -> t ∈ timers w \/ P (callback t).
Proof.
  induction 1 as [|c cmds Hc _ IH]; intros w t Ht; [now left|].
  simpl in Ht. destruct (IH _ _ Ht) as [Hin|]; [|now right].
  destruct c; simpl in Hin, Hc; auto.
  - apply elem_of_app in Hin as [|Hin]; [now left|].
    apply list_elem_of_singleton in Hin. subst. now right.
  - apply list_elem_of_filter in Hin. now left.
Qed.

Lemma effects_due_starts w :
  Forall (starts_only (fun k =>
            taskId (state w) <> deps_taskId w /\ k = closure_of (state w)))
    (effects_due w).
Proof.
  unfold effects_due, effect_poll_timer_cleanup, effect_provider,
    effect_poll_timer, effect_terminal.
  repeat apply Forall_app_2; repeat case_match;
    repeat first [apply Forall_app_2 | apply Forall_cons_2 | apply Forall_nil_2];
    try exact I.
  simpl. split; [|reflexivity].
  match goal with H : negb (bool_decide _) = true |- _ =>
    apply negb_true_iff, bool_decide_eq_false in H; exact H end.
Qed.

Lemma commit_timers_origin w t :
  t ∈ timers (commit w) ->
  t ∈ timers w
  \/ (taskId (state w) <> deps_taskId w /\ callback t = closure_of (state w)).
Proof.
  unfold commit. intros H.
  apply (exec_timers_origin _ _ (effects_due_starts w)) in H. exact H.
Qed.

Lemma exec_handler_timers cmds w :
  Forall handler_cmd cmds -> timers (exec cmds w) = timers w.
Proof.
  apply (exec_frame timers handler_cmd).
  intros ? [] ?; simpl in *; (reflexivity || contradiction).
Qed.

Lemma exec_deps_taskId cmds w : deps_taskId (exec cmds w) = deps_taskId w.
Proof.
  apply (exec_frame deps_taskId (fun _ => True)).
  - intros ? [] _; reflexivity.
  - apply Forall_forall. auto.
Qed.

(** A handler leaves [taskId] alone, clears it, or stores the id that the
    generation request answered. *)
Lemma handler_taskId w e cmds w0 :
  handler_of w e = Some (cmds, w0) ->
  taskId (state (exec cmds w0)) = taskId (state w)
  \/ taskId (state (exec cmds w0)) = None
  \/ exists t, e = PostResolved t /\ taskId (state (exec cmds w0)) = Some t.
Proof.
  intros He. destruct e; simpl in He; simplify_eq/=; auto.
  - unfold handleGenerateVideo. case_match; simpl; auto.
  - destruct (pending_posts w); simplify_eq/=. eauto.
  - destruct (pending_posts w); simplify_eq/=. eauto.
  - destruct (find_timer id w); simplify_eq/=.
    unfold checkTaskStatus. repeat case_match; simpl; auto.
  - destruct (pending_gets w !! n); simplify_eq/=. auto.
  - destruct (pending_gets w !! n); simplify_eq/=.
    unfold checkTaskStatus_catch. case_match; simpl; auto.
Qed.

Section Selected.

(** The tasks of interest. *)
Variable P : string -> bool.

Lemma step_no_timer_of w e :
  Inv w -> no_timer_of P w -> not_post_of P e -> no_timer_of P (step w e).
Proof.
  intros [Hw (_ & Hd & _)] Hn He. rewrite step_handler.
  destruct (handler_of w e) as [[cmds w0]|] eqn:Hh; [|assumption].
  destruct (handler_of_spec _ _ _ _ Hw Hh) as [Hc Hs].
  intros tm t Htm Ht. unfold dispatch in Htm.
  apply commit_timers_origin in Htm as [Hin|[Hch Hcb]].
  - rewrite (exec_handler_timers _ _ Hc), (sbp_timers _ _ Hs) in Hin. eauto.
  - rewrite exec_deps_taskId, (sbp_deps_taskId _ _ Hs), Hd in Hch.
    rewrite Hcb in Ht. simpl in Ht.
    destruct (handler_taskId _ _ _ _ Hh) as [E|[E|(t' & -> & E)]];
      simpl in He; congruence.
Qed.

Lemma step_status_requests w e :
  Inv w -> no_timer_of P w ->
  List.filter (is_status_request P) (requests (step w e))
  = List.filter (is_status_request P) (requests w).
Proof.
  intros [Hw _] Hn. rewrite step_handler.
  destruct (handler_of w e) as [[cmds w0]|] eqn:Hh; [|reflexivity].
  unfold dispatch. rewrite commit_requests.
  destruct e; simpl in Hh; simplify_eq/=; auto.
  - unfold handleGenerateVideo. case_match; simpl; [reflexivity|].
    rewrite List.filter_app. simpl. apply app_nil_r.
  - destruct (pending_posts w); simplify_eq/=. reflexivity.
  - destruct (pending_posts w); simplify_eq/=. reflexivity.
  - destruct (find_timer id w) as [tm|] eqn:Hf; simplify_eq/=.
    apply find_timer_elem in Hf. unfold checkTaskStatus.
    destruct (cl_taskId (callback tm)) as [t|] eqn:Ht; [|reflexivity].
    destruct (Js.truthy t); [|reflexivity]. simpl.
    rewrite List.filter_app. simpl. rewrite (Hn tm t Hf Ht).
    apply app_nil_r.
  - destruct (pending_gets w !! n); simplify_eq/=. reflexivity.
  - destruct (pending_gets w !! n); simplify_eq/=.
    unfold checkTaskStatus_catch. case_match; reflexivity.
Qed.

Lemma run_status_requests es :
  forall w, Inv w -> no_timer_of P w -> Forall (not_post_of P) es ->
  List.filter (is_status_request P) (requests (run w es))
  = List.filter (is_status_request P) (requests w).
Proof.
  induction es as [|e es IH]; intros w Hw Hn Hes; [reflexivity|].
  inversion Hes; subst. simpl.
  rewrite IH; auto using step_inv, step_no_timer_of, step_status_requests.
Qed.
End Selected.

Lemma no_timer_of_nil P w : timers w = [] -> no_timer_of P w.
Proof. intros H tm t Htm. rewrite H in Htm. inversion Htm. Qed.

(** *** Runs that the page offers *)

Lemma step_timers_origin w e tm :
  Inv w -> tm ∈ timers (step w e) ->
  tm ∈ timers w
  \/ (taskId (state (step w e)) <> taskId (state w)
      /\ cl_taskId (callback tm) = taskId (state (step w e))).
Proof.
  intros [Hw (_ & Hd & _)]. rewrite step_handler.
  destruct (handler_of w e) as [[cmds w0]|] eqn:Hh; [|now left].
  destruct (handler_of_spec _ _ _ _ Hw Hh) as [Hc Hs].
  unfold dispatch. rewrite commit_taskId. intros Htm.
  apply commit_timers_origin in Htm as [Hin|[Hch Hcb]].
  - left. now rewrite (exec_handler_timers _ _ Hc), (sbp_timers _ _ Hs) in Hin.
  - right. rewrite exec_deps_taskId, (sbp_deps_taskId _ _ Hs), Hd in Hch.
    split; [assumption|]. now rewrite Hcb.
Qed.

Ltac fields :=
  unfold dispatch;
  rewrite ?commit_loading, ?commit_taskId, ?commit_pending_posts,
    ?commit_pending_gets; simpl.

Lemma page_ok_quiet w w' :
  page_ok w -> Inv w' ->
  loading (state w') = loading (state w) ->
  taskId (state w') = taskId (state w) ->
  pending_posts w' = pending_posts w ->
  (forall k, k ∈ pending_gets w' -> polling_closure w k) ->
  (forall tm, tm ∈ timers w' ->
     tm ∈ timers w
     \/ (taskId (state w') <> taskId (state w)
         /\ cl_taskId (callback tm) = taskId (state w'))) ->
  page_ok w'.
Proof.
  intros [Hinv Hp1 Hp2 Hp3] Hinv' Hl Ht Hp Hg Htm.
  constructor; rewrite ?Hl, ?Ht, ?Hp; try assumption.
  intros k [Hk|(tm & Hin & <-)].
  - apply Hp3, Hg, Hk.
  - destruct (Htm tm Hin) as [Hold|[Hne _]]; [|congruence].
    apply Hp3. right. eauto.
Qed.

Lemma step_page_ok w e : page_ok w -> offered w e = true -> page_ok (step w e).
Proof.
  intros Hw Ho.
  pose proof (step_inv w e (page_inv w Hw)) as Hinv'.
  pose proof (fun tm => step_timers_origin w e tm (page_inv w Hw)) as Htm.
  destruct e; simpl in Ho.
  - apply (page_ok_quiet w); try assumption; simpl; fields; auto.
    intros k Hk. now left.
  - apply (page_ok_quiet w); try assumption; simpl; fields; auto.
    intros k Hk. now left.
  - apply (page_ok_quiet w); try assumption; simpl; fields; auto.
    intros k Hk. now left.
  - apply (page_ok_quiet w); try assumption; simpl; fields; auto.
    intros k Hk. now left.
  - (* SubmitForm, offered: not loading, prompt not blank *)
    apply negb_true_iff, orb_false_iff in Ho as [Hl Hb].
    apply negb_false_iff in Hb.
    assert (forall k, ~ polling_closure w k) as Hnone.
    { intros k Hk. apply (page_polling w Hw) in Hk as (_ & Hk & _). congruence. }
    assert (pending_posts w = 0%nat) as Hp0.
    { pose proof (page_posts w Hw). pose proof (page_posting w Hw).
      destruct (pending_posts w) as [|[|?]]; [reflexivity | | lia].
      rewrite Hl in *. intuition discriminate. }
    assert (loading (state (step w SubmitForm)) = true
            /\ taskId (state (step w SubmitForm)) = None
            /\ pending_posts (step w SubmitForm) = 1%nat
            /\ pending_gets (step w SubmitForm) = pending_gets w)
      as (E1 & E2 & E3 & E4).
    { simpl. unfold handleGenerateVideo. rewrite Hb. fields.
      rewrite Hp0. auto. }
    set (w' := step w SubmitForm) in *. clearbody w'.
    assert (forall tm, tm ∉ timers w') as Hnt.
    { intros tm Hin. destruct (Htm tm Hin) as [Hold|[_ Hcl]].
      - apply (Hnone (callback tm)). right. eauto.
      - destruct Hinv' as [[_ _ Hcb _ _] _]. rewrite Forall_forall in Hcb.
        destruct (Hcb tm Hin) as [_ Htr]. rewrite Hcl, E2 in Htr.
        discriminate. }
    constructor; [assumption | lia | auto |].
    intros k [Hk|(tm & Hin & _)]; [|now apply Hnt in Hin].
    exfalso. apply (Hnone k). left. now rewrite <- E4.
  - (* PostResolved *)
    destruct (pending_posts w) as [|m] eqn:Hm;
      [simpl; rewrite Hm; assumption|].
    assert (m = 0%nat) as -> by (pose proof (page_posts w Hw); lia).
    assert (forall k, ~ polling_closure w k) as Hnone.
    { intros k Hk. apply (page_polling w Hw) in Hk as (_ & _ & Hk). congruence. }
    pose proof (page_posting w Hw Hm) as Hl.
    assert (loading (state (step w (PostResolved task_id))) = true
            /\ pending_posts (step w (PostResolved task_id)) = 0%nat
            /\ pending_gets (step w (PostResolved task_id)) = pending_gets w)
      as (E1 & E3 & E4).
    { simpl. rewrite Hm. fields. rewrite Hm. auto. }
    set (w' := step w (PostResolved task_id)) in *. clearbody w'.
    constructor; [assumption | lia | intros; lia || auto |].
    intros k [Hk|(tm & Hin & <-)].
    + exfalso. apply (Hnone k). left. now rewrite <- E4.
    + destruct (Htm tm Hin) as [Hold|[_ Hcl]]; [|auto].
      exfalso. apply (Hnone (callback tm)). right. eauto.
  - (* PostRejected *)
    destruct (pending_posts w) as [|m] eqn:Hm;
      [simpl; rewrite Hm; assumption|].
    assert (m = 0%nat) as -> by (pose proof (page_posts w Hw); lia).
    assert (forall k, ~ polling_closure w k) as Hnone.
    { intros k Hk. apply (page_polling w Hw) in Hk as (_ & _ & Hk). congruence. }
    assert (taskId (state (step w (PostRejected detail))) = taskId (state w)
            /\ pending_posts (step w (PostRejected detail)) = 0%nat
            /\ pending_gets (step w (PostRejected detail)) = pending_gets w)
      as (E2 & E3 & E4).
    { simpl. rewrite Hm. fields. rewrite Hm. auto. }
    set (w' := step w (PostRejected detail)) in *. clearbody w'.
    constructor; [assumption | lia | intros; lia || auto |].
    intros k [Hk|(tm & Hin & <-)].
    + exfalso. apply (Hnone k). left. now rewrite <- E4.
    + destruct (Htm tm Hin) as [Hold|[Hne _]]; [|congruence].
      exfalso. apply (Hnone (callback tm)). right. eauto.
  - (* TimerFired *)
    revert Hinv' Htm. simpl.
    destruct (find_timer id w) as [tm|] eqn:Hf; [|intros; assumption].
    intros Hinv' Htm. apply find_timer_elem in Hf.
    apply (page_ok_quiet w); try assumption; unfold checkTaskStatus;
      repeat case_match; fields; auto.
    + intros k Hk. apply elem_of_app in Hk as [Hk|Hk]; [now left|].
      apply list_elem_of_singleton in Hk. subst. right. eauto.
    + intros k Hk. now left.
    + intros k Hk. now left.
  - (* GetResolved *)
    revert Hinv' Htm. simpl.
    destruct (pending_gets w !! n) as [k0|] eqn:Hk0; [|intros; assumption].
    intros Hinv' Htm.
    apply (page_ok_quiet w); try assumption; fields; auto.
    intros k Hk. left. now apply list_elem_of_delete_inv in Hk.
  - (* GetRejected *)
    revert Hinv' Htm. simpl.
    destruct (pending_gets w !! n) as [k0|] eqn:Hk0; [|intros; assumption].
    intros Hinv' Htm.
    apply (page_ok_quiet w); try assumption; unfold checkTaskStatus_catch;
      repeat case_match; fields; auto.
    + intros k Hk. left. now apply list_elem_of_delete_inv in Hk.
    + intros k Hk. left. now apply list_elem_of_delete_inv in Hk.
Qed.

Lemma mount_page_ok : page_ok mount.
Proof.
  constructor; simpl; auto using mount_inv; try discriminate.
  intros k [Hk|(tm & Hin & _)]; inversion Hk || inversion Hin.
Qed.

Lemma run_page_ok es :
  forall w, page_ok w -> offered_run w es = true -> page_ok (run w es).
Proof.
  induction es as [|e es IH]; intros w Hw Ho; [assumption|].
  simpl in Ho. apply andb_true_iff in Ho as [Ho1 Ho2].
  simpl. apply IH; [|assumption]. now apply step_page_ok.
Qed.

(** *** Turns that run no effect *)

Lemma step_synced w e cmds w0 :
  handler_of w e = Some (cmds, w0) -> deps_synced (exec cmds w0) ->
  step w e = exec cmds w0.
Proof.
  intros Hh Hd. rewrite step_handler, Hh. now apply commit_synced.
Qed.

Lemma commit_running w :
  deps_provider w = provider (state w) ->
  deps_taskId w = taskId (state w) ->
  (forall o d, taskStatus (state w) = Some (o, d) ->
     TaskStatus.is_terminal d = false) ->
  effects_due w = [].
Proof.
  intros Hp Ht Hs. unfold effects_due.
  rewrite (bool_decide_eq_true_2 (provider (state w) = deps_provider w))
    by congruence.
  rewrite (bool_decide_eq_true_2 (taskId (state w) = deps_taskId w))
    by congruence.
  simpl. case_match; [|reflexivity]. unfold effect_terminal.
  destruct (taskStatus (state w)) as [[o d]|]; [|reflexivity].
  now rewrite (Hs o d eq_refl).
Qed.

Lemma step_TimerFired w id tm t :
  Inv w -> find_timer id w = Some tm -> cl_taskId (callback tm) = Some t ->
  step w (TimerFired id)
  = exec [axios_get (GET_video_generation_status t) (callback tm)] w.
Proof.
  intros [Hw Hd] Hf Ht.
  assert (Js.truthy t = true) as Htr.
  { apply find_timer_elem in Hf. destruct Hw as [_ _ H3 _ _].
    rewrite Forall_forall in H3. destruct (H3 tm Hf) as [_ H].
    now rewrite Ht in H. }
  assert (handler_of w (TimerFired id)
          = Some ([axios_get (GET_video_generation_status t) (callback tm)], w))
    as Hh.
  { simpl. rewrite Hf. simpl. unfold checkTaskStatus. now rewrite Ht, Htr. }
  apply (step_synced _ _ _ _ Hh). exact Hd.
Qed.

Lemma step_GetResolved_running w n k data :
  Inv w -> pending_gets w !! n = Some k ->
  TaskStatus.is_terminal data = false ->
  timers (step w (GetResolved n data)) = timers w
  /\ statusInterval (state (step w (GetResolved n data)))
      = statusInterval (state w)
  /\ generatedVideo (state (step w (GetResolved n data)))
      = generatedVideo (state w).
Proof.
  intros [Hw (Hp & Ht & Hs)] Hk Hrun. simpl. rewrite Hk.
  unfold dispatch, commit. rewrite commit_running; try assumption.
  - repeat split.
  - simpl. intros o d [= _ <-]. assumption.
Qed.

Lemma step_GetResolved_frame w n data :
  requests (step w (GetResolved n data)) = requests w
  /\ pending_posts (step w (GetResolved n data)) = pending_posts w
  /\ loading (state (step w (GetResolved n data))) = loading (state w)
  /\ prompt (state (step w (GetResolved n data))) = prompt (state w)
  /\ provider (state (step w (GetResolved n data))) = provider (state w)
  /\ taskId (state (step w (GetResolved n data))) = taskId (state w).
Proof.
  simpl. destruct (pending_gets w !! n); [|repeat split].
  unfold dispatch.
  rewrite commit_requests, commit_pending_posts, commit_loading,
    commit_prompt, commit_provider, commit_taskId.
  repeat split.
Qed.

(** *** A task being polled *)

Lemma polling_tick p t w :
  polling p t w ->
  step w (TimerFired 1)
  = exec [axios_get (GET_video_generation_status t)
            {| cl_taskId := Some t; cl_statusInterval := None |}] w.
Proof.
  intros H.
  apply (step_TimerFired w 1 (first_timer t)); [apply H | | reflexivity].
  unfold find_timer. now rewrite (polling_timer _ _ _ H).
Qed.

Lemma poll_round_running p t w data :
  polling p t w -> TaskStatus.is_terminal data = false ->
  polling p t (run w [TimerFired 1; GetResolved 0 data])
  /\ requests (run w [TimerFired 1; GetResolved 0 data])
      = requests w ++ [GET_video_generation_status t]
  /\ generatedVideo (state (run w [TimerFired 1; GetResolved 0 data]))
      = generatedVideo (state w).
Proof.
  intros H Hrun.
  pose proof (step_inv w (TimerFired 1) (polling_inv _ _ _ H)) as Hinv1.
  change (run w [TimerFired 1; GetResolved 0 data])
    with (step (step w (TimerFired 1)) (GetResolved 0 data)).
  pose proof (step_inv _ (GetResolved 0 data) Hinv1) as Hinv2.
  revert Hinv1 Hinv2. rewrite (polling_tick p t w H). intros Hinv1 Hinv2.
  set (k := {| cl_taskId := Some t; cl_statusInterval := None |}) in *.
  set (w1 := exec [axios_get (GET_video_generation_status t) k] w) in *.
  assert (pending_gets w1 !! 0%nat = Some k) as Hk
    by (simpl; now rewrite (polling_gets _ _ _ H)).
  destruct (step_GetResolved_running w1 0 k data Hinv1 Hk Hrun)
    as (T1 & T2 & T3).
  destruct (step_GetResolved_frame w1 0 data) as (F1 & F2 & F3 & F4 & F5 & F6).
  assert (pending_gets (step w1 (GetResolved 0 data)) = []) as Hg.
  { simpl. rewrite (polling_gets _ _ _ H). simpl. unfold dispatch.
    rewrite commit_pending_gets. simpl. now rewrite (polling_gets _ _ _ H). }
  split; [|split].
  - destruct H. constructor; rewrite ?T1, ?F2, ?F3, ?F4, ?F5, ?F6; assumption.
  - now rewrite F1.
  - now rewrite T3.
Qed.

Lemma poll_round_terminal p t w data :
  polling p t w -> TaskStatus.is_terminal data = true ->
  Inv (run w [TimerFired 1; GetResolved 0 data])
  /\ timers (run w [TimerFired 1; GetResolved 0 data]) = []
  /\ pending_posts (run w [TimerFired 1; GetResolved 0 data]) = 0%nat
  /\ loading (state (run w [TimerFired 1; GetResolved 0 data])) = true
  /\ prompt (state (run w [TimerFired 1; GetResolved 0 data])) = p
  /\ provider (state (run w [TimerFired 1; GetResolved 0 data])) = "replicate"
  /\ requests (run w [TimerFired 1; GetResolved 0 data])
      = requests w ++ [GET_video_generation_status t]
  /\ generatedVideo (state (run w [TimerFired 1; GetResolved 0 data]))
      = result_of data (generatedVideo (state w)).
Proof.
  intros H Hterm.
  pose proof (step_inv w (TimerFired 1) (polling_inv _ _ _ H)) as Hinv1.
  change (run w [TimerFired 1; GetResolved 0 data])
    with (step (step w (TimerFired 1)) (GetResolved 0 data)).
  pose proof (step_inv _ (GetResolved 0 data) Hinv1) as Hinv2.
  revert Hinv1 Hinv2. rewrite (polling_tick p t w H). intros Hinv1 Hinv2.
  set (k := {| cl_taskId := Some t; cl_statusInterval := None |}) in *.
  set (w1 := exec [axios_get (GET_video_generation_status t) k] w) in *.
  assert (pending_gets w1 !! 0%nat = Some k) as Hk
    by (simpl; now rewrite (polling_gets _ _ _ H)).
  destruct (step_terminal w1 0 k data Hinv1 Hk Hterm) as (T1 & T2 & T3 & T4).
  destruct (step_GetResolved_frame w1 0 data) as (F1 & F2 & F3 & F4 & F5 & F6).
  destruct H.
  split; [exact Hinv2|].
  rewrite T1, T4, F1, F2, F3, F4, F5. repeat split; assumption.
Qed.

(** The answer to the generation request starts the timer. *)
Lemma step_PostResolved_start w t m :
  Inv w -> pending_posts w = S m ->
  taskId (state w) = None -> statusInterval (state w) = None ->
  Js.truthy t = true ->
  timers (step w (PostResolved t))
  = [{| timer_id := next_timer w;
        callback := {| cl_taskId := Some t; cl_statusInterval := None |} |}]
  /\ statusInterval (state (step w (PostResolved t))) = Some (next_timer w)
  /\ generatedVideo (state (step w (PostResolved t)))
      = generatedVideo (state w)
  /\ pending_posts (step w (PostResolved t)) = m
  /\ pending_gets (step w (PostResolved t)) = pending_gets w
  /\ requests (step w (PostResolved t)) = requests w
  /\ loading (state (step w (PostResolved t))) = loading (state w)
  /\ prompt (state (step w (PostResolved t))) = prompt (state w)
  /\ provider (state (step w (PostResolved t))) = provider (state w)
  /\ taskId (state (step w (PostResolved t))) = Some t.
Proof.
  intros [Hw (Hp & Ht & Hs)] Hm Hid Hsi Htr.
  pose proof (timers_ok_no_handle w Hw Hsi) as Hnil.
  simpl. rewrite Hm. unfold dispatch.
  rewrite commit_pending_posts, commit_pending_gets, commit_requests,
    commit_loading, commit_prompt, commit_provider, commit_taskId.
  simpl. rewrite Hm. simpl.
  unfold commit, effects_due. simpl.
  rewrite (bool_decide_eq_true_2 (provider (state w) = deps_provider w))
    by congruence.
  rewrite (bool_decide_eq_false_2 (Some t = deps_taskId w))
    by (rewrite Ht, Hid; discriminate).
  rewrite bool_decide_eq_true_2 by congruence.
  simpl. unfold effect_poll_timer. simpl. rewrite Htr, Hsi.
  rewrite (bool_decide_eq_false_2 (is_Some None)) by (intros [? ?]; discriminate).
  destruct (cleanup_statusInterval w); simpl; rewrite Hnil; repeat split.
Qed.

Lemma start_polling p t :
  Js.truthy (Js.trim p) = true -> Js.truthy t = true ->
  polling p t (run mount [ChangePrompt p; SubmitForm; PostResolved t])
  /\ requests (run mount [ChangePrompt p; SubmitForm; PostResolved t])
      = [POST_generate_video p "replicate" replicate_template]
  /\ generatedVideo
       (state (run mount [ChangePrompt p; SubmitForm; PostResolved t])) = None.
Proof.
  intros Hp Ht.
  change (run mount [ChangePrompt p; SubmitForm; PostResolved t])
    with (step (step (step mount (ChangePrompt p)) SubmitForm) (PostResolved t)).
  pose proof (step_inv _ (ChangePrompt p) mount_inv) as I1.
  pose proof (step_inv _ SubmitForm I1) as I2.
  pose proof (step_inv _ (PostResolved t) I2) as I3.
  revert I1 I2 I3.
  rewrite (step_synced mount (ChangePrompt p) [setPrompt p] mount eq_refl)
    by (repeat split).
  set (w1 := exec [setPrompt p] mount).
  assert (handler_of w1 SubmitForm
          = Some ([setLoading true; setError ""; setTaskId None;
                   setTaskStatus None; setGeneratedVideo None;
                   axios_post
                     (POST_generate_video p "replicate" replicate_template)],
                  w1)) as Hh.
  { unfold handler_of, handleGenerateVideo.
    change (prompt (state w1)) with p. rewrite Hp. reflexivity. }
  rewrite (step_synced w1 SubmitForm _ w1 Hh) by (repeat split).
  match goal with |- context [step ?w _] => set (w2 := w) end.
  intros I1 I2 I3.
  destruct (step_PostResolved_start w2 t 0 I2)
    as (T1 & T2 & T3 & T4 & T5 & T6 & T7 & T8 & T9 & T10);
    try reflexivity; try assumption.
  split; [|split].
  - constructor; try assumption.
  - rewrite T6. reflexivity.
  - rewrite T3. reflexivity.
Qed.

(** *** The loading flag *)

(** Only the [catch] of [handleGenerateVideo] resets [loading]. *)
Lemma loading_reset w e :
  loading (state w) = true -> loading (state (step w e)) = false ->
  exists detail, e = PostRejected detail /\ pending_posts w <> 0%nat.
Proof.
  intros Hl. destruct e; simpl.
  - fields. congruence.
  - fields. congruence.
  - fields. congruence.
  - fields. congruence.
  - unfold handleGenerateVideo. case_match; fields; congruence.
  - destruct (pending_posts w); [congruence|]. fields. congruence.
  - destruct (pending_posts w); [congruence|]. eauto.
  - destruct (find_timer id w); [|congruence].
    unfold checkTaskStatus. repeat case_match; fields; congruence.
  - destruct (pending_gets w !! n); [|congruence]. fields. congruence.
  - destruct (pending_gets w !! n); [|congruence].
    unfold checkTaskStatus_catch. case_match; fields; congruence.
Qed.

(** While [loading] is set and no generation request is in flight, the
    page offers nothing that resets it or stores another task. *)
Lemma step_busy w e :
  loading (state w) = true -> pending_posts w = 0%nat ->
  offered w e = true ->
  loading (state (step w e)) = true
  /\ pending_posts (step w e) = 0%nat
  /\ taskId (state (step w e)) = taskId (state w).
Proof.
  intros Hl Hp Ho. destruct e; simpl in Ho; rewrite ?Hl in Ho;
    try discriminate; simpl.
  - fields. auto.
  - rewrite Hp. auto.
  - rewrite Hp. auto.
  - destruct (find_timer id w); [|auto].
    unfold checkTaskStatus. repeat case_match; fields; auto.
  - destruct (pending_gets w !! n); [|auto]. fields. auto.
  - destruct (pending_gets w !! n); [|auto].
    unfold checkTaskStatus_catch. case_match; fields; auto.
Qed.

Lemma run_busy es :
  forall w, loading (state w) = true -> pending_posts w = 0%nat ->
  offered_run w es = true ->
  loading (state (run w es)) = true /\ pending_posts (run w es) = 0%nat.
Proof.
  induction es as [|e es IH]; intros w Hl Hp Ho; [auto|].
  simpl in Ho. apply andb_true_iff in Ho as [Ho1 Ho2].
  destruct (step_busy w e Hl Hp Ho1) as (Hl' & Hp' & _).
  simpl. now apply IH.
Qed.

(** Once the timer is gone in that situation, no status request follows. *)
Lemma step_idle w e :
  Inv w -> timers w = [] ->
  loading (state w) = true -> pending_posts w = 0%nat ->
  offered w e = true ->
  timers (step w e) = []
  /\ status_requests (requests (step w e)) = status_requests (requests w).
Proof.
  intros Hinv Hnil Hl Hp Ho.
  destruct (step_busy w e Hl Hp Ho) as (_ & _ & Hid).
  split.
  - destruct (timers (step w e)) as [|tm tms] eqn:E; [reflexivity|].
    assert (tm ∈ timers (step w e)) as Hin by (rewrite E; left).
    destruct (step_timers_origin w e tm Hinv Hin) as [Hold|[Hne _]];
      [|congruence].
    rewrite Hnil in Hold. inversion Hold.
  - apply step_status_requests; [assumption|]. now apply no_timer_of_nil.
Qed.

Lemma run_idle es :
  forall w, Inv w -> timers w = [] ->
  loading (state w) = true -> pending_posts w = 0%nat ->
  offered_run w es = true ->
  timers (run w es) = []
  /\ status_requests (requests (run w es)) = status_requests (requests w).
Proof.
  induction es as [|e es IH]; intros w Hinv Hnil Hl Hp Ho; [auto|].
  simpl in Ho. apply andb_true_iff in Ho as [Ho1 Ho2].
  destruct (step_busy w e Hl Hp Ho1) as (Hl' & Hp' & _).
  destruct (step_idle w e Hinv Hnil Hl Hp Ho1) as (Hnil' & Hr).
  simpl. rewrite <- Hr. apply IH; auto using step_inv.
Qed.

(** *** Further steps *)


(** A poll that fails leaves the timer and its handle as they are: the
    [catch] block reads the [statusInterval] that its closure captured. *)
Lemma GetRejected_keeps_timer (es : list Event) (n : nat) (k : Closure) :
  pending_gets (run mount es) !! n = Some k ->
  timers (step (run mount es) (GetRejected n)) = timers (run mount es)
  /\ statusInterval (state (step (run mount es) (GetRejected n)))
     = statusInterval (state (run mount es))
  /\ taskStatus (state (step (run mount es) (GetRejected n)))
     = taskStatus (state (run mount es))
  /\ error (state (step (run mount es) (GetRejected n))) = poll_error_message.
Proof.
  intros Hk. destruct (run_inv es mount mount_inv) as [Hw Hd].
  assert (cl_statusInterval k = None) as Hs.
  { destruct Hw as [_ _ _ H4 _]. rewrite Forall_forall in H4.
    apply H4, list_elem_of_lookup. eauto. }
  rewrite (step_synced _ (GetRejected n) [setError poll_error_message]
             (forget_get n (run mount es))).
  - repeat split.
  - simpl. rewrite Hk. simpl. unfold checkTaskStatus_catch. now rewrite Hs.
  - exact Hd.
Qed.




Lemma terminal_cases (d : TaskStatus.t) :
  TaskStatus.status d = "completed" \/ TaskStatus.status d = "failed" ->
  TaskStatus.is_terminal d = true.
Proof. unfold TaskStatus.is_terminal. intros [-> | ->]; reflexivity. Qed.


End VideoGeneratorFacts.

(** * The claims of the specification *)

Import VideoGenerator VideoGeneratorSpec VideoGeneratorFacts.

(** C1. Once the answer to a status request carries the status [completed]
    or [failed] and has been stored in the component state, the poll timer
    is cleared: no timer is active and the handle is [null].  From then on,
    as long as the backend does not hand out the id of that task again, no
    further request for the status of that task is issued, whatever else
    happens. *)
Theorem terminal_status_stops_polling
  (es : list Event) (n : nat) (k : Closure) (t : string) (data : TaskStatus.t) :
  pending_gets (run mount es) !! n = Some k ->
  cl_taskId k = Some t ->
  TaskStatus.status data = "completed" \/ TaskStatus.status data = "failed" ->
  snd <$> taskStatus (state (step (run mount es) (GetResolved n data)))
    = Some data
  /\ timers (step (run mount es) (GetResolved n data)) = []
  /\ statusInterval (state (step (run mount es) (GetResolved n data))) = None
  /\ forall es' : list Event,
       Forall (fun e => e <> PostResolved t) es' ->
       status_requests_for t
         (requests (run (step (run mount es) (GetResolved n data)) es'))
       = status_requests_for t
           (requests (step (run mount es) (GetResolved n data))).
Proof.
  intros Hk Ht Hterm. apply terminal_cases in Hterm.
  pose proof (run_inv es mount mount_inv) as Hinv.
  destruct (step_terminal _ n k data Hinv Hk Hterm) as (T1 & T2 & T3 & _).
  repeat split; try assumption.
  intros es' Hes'. unfold status_requests_for.
  apply run_status_requests.
  - now apply step_inv.
  - now apply no_timer_of_nil.
  - eapply Forall_impl; [exact Hes'|]. intros [] He; simpl; try exact I.
    apply String.eqb_neq. congruence.
Qed.

Lemma terminal_status_stops_polling_witness :
  pending_gets (run mount first_poll_run) !! 0%nat
    = Some {| cl_taskId := Some "t1"; cl_statusInterval := None |}
  /\ timers (step (run mount first_poll_run)
               (GetResolved 0 (completed_answer cat_video))) = [].
Proof.
  assert (pending_gets (run mount first_poll_run) !! 0%nat
          = Some {| cl_taskId := Some "t1"; cl_statusInterval := None |}) as H
    by (vm_compute; reflexivity).
  split; [exact H|].
  exact (proj1 (proj2 (terminal_status_stops_polling first_poll_run 0 _ "t1"
                         (completed_answer cat_video) H eq_refl
                         (or_introl eq_refl)))).
Defined.

(** C2. Whatever the sequence of submissions, answers and ticks (a
    resubmission while a task is still polled included), at most one
    [setInterval] timer is active. *)
Theorem at_most_one_poll_timer (es : list Event) :
  (length (timers (run mount es)) <= 1)%nat.
Proof.
  destruct (run_inv es mount mount_inv) as [[_ H _ _ _] _]. exact H.
Qed.



(** C4, on the code.  After a poll that failed, the error message is set and
    [taskStatus] is as it was, but the timer is still active with its handle
    stored, and its next tick issues another status request: the [catch]
    block tests the [statusInterval] of the render in which the timer was
    created, which is [null]. *)
Theorem poll_error_leaves_timer_running :
  timers (run mount (first_poll_run ++ [GetRejected 0])) = [first_timer "t1"]
  /\ statusInterval (state (run mount (first_poll_run ++ [GetRejected 0])))
     = Some 1%positive
  /\ error (state (run mount (first_poll_run ++ [GetRejected 0])))
     = poll_error_message
  /\ taskStatus (state (run mount (first_poll_run ++ [GetRejected 0])))
     = taskStatus (state (run mount first_poll_run))
  /\ status_requests
       (requests (run mount (first_poll_run ++ [GetRejected 0; TimerFired 1])))
     = [GET_video_generation_status "t1"; GET_video_generation_status "t1"].
Proof. vm_compute. repeat split. Qed.

(** C5. After a submission and the scripted answers pending, running(0.3),
    running(0.7), completed(with [video_info]), [generatedVideo] is the
    [video_info] of the completed answer and the page shows it as the
    result; four status requests were issued, the timer is gone, and
    whatever the page offers from then on, no further status request is
    issued. *)
Theorem scripted_run_shows_completed_video (p t : string) (v : VideoInfo) :
  Js.truthy (Js.trim p) = true -> Js.truthy t = true ->
  generatedVideo (state (run mount (scripted_run p t v))) = Some v
  /\ generated_video (render (state (run mount (scripted_run p t v))))
     = Some (p, "replicate", file_id v)
  /\ timers (run mount (scripted_run p t v)) = []
  /\ status_requests (requests (run mount (scripted_run p t v)))
     = [GET_video_generation_status t; GET_video_generation_status t;
        GET_video_generation_status t; GET_video_generation_status t]
  /\ forall es' : list Event,
       offered_run (run mount (scripted_run p t v)) es' = true ->
       status_requests (requests (run (run mount (scripted_run p t v)) es'))
       = status_requests (requests (run mount (scripted_run p t v))).
Proof.
  intros Hp Ht. unfold scripted_run, poll_round. rewrite !run_app.
  destruct (start_polling p t Hp Ht) as (P0 & R0 & G0).
  revert P0 R0 G0.
  generalize (run mount [ChangePrompt p; SubmitForm; PostResolved t]).
  intros w0 P0 R0 G0.
  destruct (poll_round_running p t w0 pending_answer P0 eq_refl)
    as (P1 & R1 & G1).
  revert P1 R1 G1.
  generalize (run w0 [TimerFired 1; GetResolved 0 pending_answer]).
  intros w1 P1 R1 G1.
  destruct (poll_round_running p t w1 (running_answer (3 # 10)) P1 eq_refl)
    as (P2 & R2 & G2).
  revert P2 R2 G2.
  generalize (run w1 [TimerFired 1; GetResolved 0 (running_answer (3 # 10))]).
  intros w2 P2 R2 G2.
  destruct (poll_round_running p t w2 (running_answer (7 # 10)) P2 eq_refl)
    as (P3 & R3 & G3).
  revert P3 R3 G3.
  generalize (run w2 [TimerFired 1; GetResolved 0 (running_answer (7 # 10))]).
  intros w3 P3 R3 G3.
  destruct (poll_round_terminal p t w3 (completed_answer v) P3 eq_refl)
    as (I4 & T4 & Q4 & L4 & A4 & B4 & R4 & G4).
  revert I4 T4 Q4 L4 A4 B4 R4 G4.
  generalize (run w3 [TimerFired 1; GetResolved 0 (completed_answer v)]).
  intros w4 I4 T4 Q4 L4 A4 B4 R4 G4.
  assert (generatedVideo (state w4) = Some v) as Hv.
  { rewrite G4. reflexivity. }
  split; [exact Hv|]. split; [|split; [exact T4|split]].
  - unfold render, generated_video. now rewrite Hv, A4, B4.
  - rewrite R4, R3, R2, R1, R0. reflexivity.
  - intros es' Ho. now apply run_idle.
Qed.

Lemma scripted_run_shows_completed_video_witness :
  Js.truthy (Js.trim "a cat") = true /\ Js.truthy "t1" = true
  /\ generatedVideo (state (run mount (scripted_run "a cat" "t1" cat_video)))
     = Some cat_video.
Proof.
  split; [reflexivity|]. split; [reflexivity|].
  exact (proj1 (scripted_run_shows_completed_video "a cat" "t1" cat_video
                  eq_refl eq_refl)).
Defined.

(** C6. When the selection of the provider [<select>] changes, the
    [settings] cell becomes the template object of the selected provider:
    the same fields with the same values, and nothing of the settings that
    were there before. *)
Theorem provider_change_resets_settings (es : list Event) (o : ProviderOption) :
  option_value o <> provider (state (run mount es)) ->
  provider (state (step (run mount es) (ChangeProvider o))) = option_value o
  /\ settingsTemplates (option_value o)
     = Some (settings (state (step (run mount es) (ChangeProvider o)))).
Proof.
  intros Hne. destruct (run_inv es mount mount_inv) as [_ (Hp & Ht & Hs)].
  revert Hne Hp Ht Hs. generalize (run mount es). intros w Hne Hp Ht Hs.
  unfold step, dispatch. rewrite commit_provider. split; [reflexivity|].
  unfold commit, effects_due. simpl.
  rewrite (bool_decide_eq_false_2 (option_value o = deps_provider w))
    by congruence.
  rewrite (bool_decide_eq_true_2 (taskId (state w) = deps_taskId w))
    by congruence.
  rewrite bool_decide_eq_true_2 by congruence.
  destruct o; reflexivity.
Qed.

Lemma provider_change_resets_settings_witness :
  option_value opt_runway
    <> provider (state (run mount [ToggleAdvancedSettings;
                                   ChangeSetting "motion_bucket_id" Js.NaN]))
  /\ settingsTemplates (option_value opt_runway)
     = Some (settings (state (step (run mount [ToggleAdvancedSettings;
                                     ChangeSetting "motion_bucket_id" Js.NaN])
                              (ChangeProvider opt_runway)))).
Proof.
  assert (option_value opt_runway
          <> provider (state (run mount [ToggleAdvancedSettings;
                                   ChangeSetting "motion_bucket_id" Js.NaN])))
    as H by (vm_compute; discriminate).
  split; [exact H|].
  exact (proj2 (provider_change_resets_settings
                  [ToggleAdvancedSettings; ChangeSetting "motion_bucket_id" Js.NaN]
                  opt_runway H)).
Defined.

(** C7. A submission whose prompt is empty or made of white space only
    issues no request and leaves none in flight, in the modal's
    [handleSubmit] and in the generator's [handleGenerateVideo] alike. *)
Theorem blank_prompt_issues_no_request (p : string) :
  Js.all_white_space p = true ->
  (forall w : AIModal.World,
     AIModal.prompt (AIModal.state w) = p ->
     AIModal.requests (AIModal.step w AIModal.SubmitForm) = AIModal.requests w
     /\ AIModal.pending_submits (AIModal.step w AIModal.SubmitForm)
        = AIModal.pending_submits w
     /\ AIModal.pending_uploads (AIModal.step w AIModal.SubmitForm)
        = AIModal.pending_uploads w)
  /\ (forall w : World,
        prompt (state w) = p ->
        requests (step w SubmitForm) = requests w
        /\ pending_posts (step w SubmitForm) = pending_posts w
        /\ pending_gets (step w SubmitForm) = pending_gets w).
Proof.
  intros Hp. apply JsFacts.trim_all_white_space in Hp. split.
  - intros w <-. unfold AIModal.step, AIModal.handleSubmit. rewrite Hp.
    repeat split.
  - intros w <-. unfold step, dispatch, handleGenerateVideo. rewrite Hp.
    rewrite commit_requests, commit_pending_posts, commit_pending_gets.
    repeat split.
Qed.

Lemma blank_prompt_issues_no_request_witness :
  Js.all_white_space "   " = true
  /\ requests (step (run mount [ChangePrompt "   "]) SubmitForm)
     = requests (run mount [ChangePrompt "   "])
  /\ AIModal.requests
       (AIModal.step (AIModal.run AIModal.mount [AIModal.ChangePrompt "   "])
          AIModal.SubmitForm)
     = AIModal.requests (AIModal.run AIModal.mount [AIModal.ChangePrompt "   "]).
Proof.
  split; [reflexivity|]. split.
  - exact (proj1 (proj2 (blank_prompt_issues_no_request "   " eq_refl)
                    (run mount [ChangePrompt "   "]) eq_refl)).
  - exact (proj1 (proj1 (blank_prompt_issues_no_request "   " eq_refl)
                    (AIModal.run AIModal.mount [AIModal.ChangePrompt "   "])
                    eq_refl)).
Defined.

(** C8. Selecting a file whose declared type does not start with [video/]
    issues no upload request and sets the validation message, which the open
    modal shows. *)
Theorem non_video_file_is_rejected
  (w : AIModal.World) (file : AIModal.File) (others : list AIModal.File) :
  Js.startsWith (AIModal.type file) "video/" = false ->
  AIModal.requests (AIModal.step w (AIModal.SelectFiles (file :: others)))
    = AIModal.requests w
  /\ AIModal.pending_uploads (AIModal.step w (AIModal.SelectFiles (file :: others)))
     = AIModal.pending_uploads w
  /\ AIModal.error
       (AIModal.state (AIModal.step w (AIModal.SelectFiles (file :: others))))
     = AIModal.not_a_video_message
  /\ AIModal.error_message <$>
       AIModal.render true
         (AIModal.state (AIModal.step w (AIModal.SelectFiles (file :: others))))
     = Some (Some AIModal.not_a_video_message).
Proof.
  intros Hf. unfold AIModal.step, AIModal.handleVideoUpload. rewrite Hf.
  repeat split.
Qed.

Lemma non_video_file_is_rejected_witness :
  Js.startsWith (AIModal.type AIModalSpec.notes_txt) "video/" = false
  /\ AIModal.requests
       (AIModal.step AIModal.mount (AIModal.SelectFiles [AIModalSpec.notes_txt]))
     = AIModal.requests AIModal.mount.
Proof.
  split; [reflexivity|].
  exact (proj1 (non_video_file_is_rejected AIModal.mount AIModalSpec.notes_txt []
                  eq_refl)).
Defined.




(** C10, as amended.  In a run of the page, once the POST of a generation
    submission has succeeded, [loading] stays set whatever follows, a
    terminal status included, so the generate button, the prompt, the
    provider select and the settings toggle stay disabled for the rest of
    the mount.  In any state, the one event that resets [loading] is the
    failure of a generation request. *)
Theorem loading_stays_set_after_accepted_submission :
  (forall (es : list Event) (t : string) (es' : list Event),
     offered_run mount es = true ->
     pending_posts (run mount es) <> 0%nat ->
     offered_run (step (run mount es) (PostResolved t)) es' = true ->
     loading (state (run (step (run mount es) (PostResolved t)) es')) = true
     /\ generate_disabled
          (render (state (run (step (run mount es) (PostResolved t)) es'))) = true
     /\ prompt_disabled
          (render (state (run (step (run mount es) (PostResolved t)) es'))) = true
     /\ provider_disabled
          (render (state (run (step (run mount es) (PostResolved t)) es'))) = true
     /\ settings_toggle_disabled
          (render (state (run (step (run mount es) (PostResolved t)) es'))) = true)
  /\ (forall (w : World) (e : Event),
        loading (state w) = true -> loading (state (step w e)) = false ->
        exists detail, e = PostRejected detail /\ pending_posts w <> 0%nat).
Proof.
  split; [|exact loading_reset].
  intros es t es' Ho Hp Ho'.
  pose proof (run_page_ok es mount mount_page_ok Ho) as Hw.
  revert Hp Ho' Hw. generalize (run mount es). intros w Hp Ho' Hw.
  assert (pending_posts w = 1%nat) as Hp1
    by (pose proof (page_posts w Hw); lia).
  pose proof (page_posting w Hw Hp1) as Hl.
  assert (loading (state (step w (PostResolved t))) = true
          /\ pending_posts (step w (PostResolved t)) = 0%nat) as [Hl1 Hp0].
  { simpl. rewrite Hp1. unfold dispatch.
    rewrite commit_loading, commit_pending_posts. simpl. now rewrite Hp1. }
  destruct (run_busy es' _ Hl1 Hp0 Ho') as [Hl2 _].
  split; [exact Hl2|]. unfold render.
  cbn [generate_disabled prompt_disabled provider_disabled
         settings_toggle_disabled].
  rewrite Hl2. repeat split.
Qed.

Lemma loading_stays_set_after_accepted_submission_witness :
  offered_run mount [ChangePrompt "a cat"; SubmitForm] = true
  /\ pending_posts (run mount [ChangePrompt "a cat"; SubmitForm]) <> 0%nat
  /\ loading (state (run (step (run mount [ChangePrompt "a cat"; SubmitForm])
                            (PostResolved "t1"))
                       (poll_round (failed_answer "boom"))))
     = true.
Proof.
  assert (offered_run mount [ChangePrompt "a cat"; SubmitForm] = true) as H1
    by (vm_compute; reflexivity).
  assert (pending_posts (run mount [ChangePrompt "a cat"; SubmitForm]) <> 0%nat)
    as H2 by (vm_compute; discriminate).
  split; [exact H1|]. split; [exact H2|].
  apply (proj1 loading_stays_set_after_accepted_submission
           [ChangePrompt "a cat"; SubmitForm] "t1"
           (poll_round (failed_answer "boom")) H1 H2).
  vm_compute. reflexivity.
Defined.

(** C10 as stated fails for the number inputs of the advanced settings:
    they carry no [disabled] attribute, so after an accepted submission the
    page still offers their edits. *)
Lemma settings_inputs_stay_enabled :
  ~ (forall (es : list Event) (t : string) (e : Event),
       offered_run mount es = true ->
       pending_posts (run mount es) <> 0%nat ->
       form_control e = true ->
       offered (step (run mount es) (PostResolved t)) e = false).
Proof.
  intros H.
  specialize (H [ToggleAdvancedSettings; ChangePrompt "a cat"; SubmitForm] "t1"
                (ChangeSetting "fps" (int 12))).
  vm_compute in H.
  assert (true = false) as E
    by (apply H; [reflexivity | discriminate | reflexivity]).
  discriminate.
Qed.

(** * Further properties *)

Module VideoGeneratorExtra.
Import VideoGenerator VideoGeneratorSpec VideoGeneratorFacts.
Import VideoGeneratorUnmount ExtraSpec.

(** *** Where the stored values come from *)

Lemma step_taskId_cases w e :
  taskId (state (step w e)) = taskId (state w)
  \/ taskId (state (step w e)) = None
  \/ exists t, e = PostResolved t /\ taskId (state (step w e)) = Some t.
Proof.
  rewrite step_handler.
  destruct (handler_of w e) as [[cmds w0]|] eqn:Hh; [|now left].
  unfold dispatch. rewrite commit_taskId. now apply handler_taskId.
Qed.

Lemma step_gets_origin w e k :
  k ∈ pending_gets (step w e) ->
  k ∈ pending_gets w \/ exists tm, tm ∈ timers w /\ k = callback tm.
Proof.
  destruct e; simpl.
  - fields. auto.
  - fields. auto.
  - fields. auto.
  - fields. auto.
  - unfold handleGenerateVideo. case_match; fields; auto.
  - destruct (pending_posts w); [auto|]. fields. auto.
  - destruct (pending_posts w); [auto|]. fields. auto.
  - destruct (find_timer id w) as [tm|] eqn:Hf; [|auto].
    apply find_timer_elem in Hf.
    unfold checkTaskStatus. repeat case_match; fields; auto.
    intros Hk. apply elem_of_app in Hk as [Hk|Hk]; [now left|].
    apply list_elem_of_singleton in Hk. subst. right. eauto.
  - destruct (pending_gets w !! n); [|auto]. fields.
    intros Hk. left. now apply list_elem_of_delete_inv in Hk.
  - destruct (pending_gets w !! n); [|auto].
    unfold checkTaskStatus_catch. case_match; fields;
      intros Hk; left; now apply list_elem_of_delete_inv in Hk.
Qed.

Lemma step_requests_origin w e q :
  q ∈ requests (step w e) ->
  q ∈ requests w
  \/ (e = SubmitForm
      /\ q = POST_generate_video (prompt (state w)) (provider (state w))
               (settings (state w)))
  \/ exists tm t, tm ∈ timers w /\ cl_taskId (callback tm) = Some t
                  /\ q = GET_video_generation_status t.
Proof.
  rewrite step_handler.
  destruct (handler_of w e) as [[cmds w0]|] eqn:Hh; [|auto].
  unfold dispatch. rewrite commit_requests.
  destruct e; simpl in Hh; simplify_eq/=; auto.
  - unfold handleGenerateVideo. case_match; simpl; [now left|].
    intros Hq. apply elem_of_app in Hq as [Hq|Hq]; [now left|].
    apply list_elem_of_singleton in Hq. right. left. auto.
  - destruct (pending_posts w); simplify_eq/=. auto.
  - destruct (pending_posts w); simplify_eq/=. auto.
  - destruct (find_timer id w) as [tm|] eqn:Hf; simplify_eq/=.
    apply find_timer_elem in Hf. unfold checkTaskStatus.
    destruct (cl_taskId (callback tm)) as [t|] eqn:Ht; [|now left].
    destruct (Js.truthy t); [|now left]. simpl.
    intros Hq. apply elem_of_app in Hq as [Hq|Hq]; [now left|].
    apply list_elem_of_singleton in Hq. right. right. eauto.
  - destruct (pending_gets w !! n); simplify_eq/=. auto.
  - destruct (pending_gets w !! n); simplify_eq/=.
    unfold checkTaskStatus_catch. case_match; simpl; auto.
Qed.

Lemma run_snoc w es e : run w (es ++ [e]) = step (run w es) e.
Proof. now rewrite run_app. Qed.

(** Every task id that the component stores, polls or has asked about was
    handed out by the backend. *)
Lemma handed_out_inv (es : list Event) :
  (forall t, taskId (state (run mount es)) = Some t -> PostResolved t ∈ es)
  /\ (forall k t, polling_closure (run mount es) k -> cl_taskId k = Some t ->
        PostResolved t ∈ es)
  /\ (forall t, GET_video_generation_status t ∈ requests (run mount es) ->
        PostResolved t ∈ es).
Proof.
  induction es as [|e es IH] using rev_ind.
  - repeat split.
    + discriminate.
    + intros k t [Hk|(tm & Hin & _)]; inversion Hk || inversion Hin.
    + intros t Hin. inversion Hin.
  - destruct IH as (I1 & I2 & I3). rewrite run_snoc.
    pose proof (run_inv es mount mount_inv) as Hinv.
    revert I1 I2 I3 Hinv. generalize (run mount es). intros w I1 I2 I3 Hinv.
    assert (forall t, taskId (state (step w e)) = Some t ->
                      PostResolved t ∈ es ++ [e]) as J1.
    { intros t Ht. apply elem_of_app.
      destruct (step_taskId_cases w e) as [E|[E|(t' & -> & E)]].
      - left. apply I1. congruence.
      - congruence.
      - right. apply list_elem_of_singleton. congruence. }
    assert (forall tm t, tm ∈ timers (step w e) ->
              cl_taskId (callback tm) = Some t -> PostResolved t ∈ es ++ [e])
      as J2.
    { intros tm t Hin Ht.
      destruct (step_timers_origin w e tm Hinv Hin) as [Hold|[_ Hcl]].
      - apply elem_of_app. left. apply (I2 (callback tm)); [|assumption].
        right. eauto.
      - apply J1. congruence. }
    repeat split; [exact J1 | |].
    + intros k t [Hk|(tm & Hin & <-)] Ht; [|eauto].
      apply elem_of_app. left.
      apply step_gets_origin in Hk as [Hk|(tm & Hin & ->)].
      * apply (I2 k); [now left | assumption].
      * apply (I2 (callback tm)); [right; eauto | assumption].
    + intros t Hq. apply elem_of_app. left.
      apply step_requests_origin in Hq as [Hq|[[_ Hq]|(tm & t' & Hin & Ht & Hq)]].
      * now apply I3.
      * discriminate.
      * injection Hq as ->. apply (I2 (callback tm)); [right; eauto | assumption].
Qed.

Lemma exec_generatedVideo cmds w :
  Forall (fun c => match c with setGeneratedVideo _ => False | _ => True end) cmds ->
  generatedVideo (state (exec cmds w)) = generatedVideo (state w).
Proof.
  apply (exec_frame (fun w => generatedVideo (state w))).
  intros ? [] ?; simpl in *; (reflexivity || contradiction).
Qed.

(** A commit changes [generatedVideo] only to the [video_info] of the
    completed answer that the state holds. *)
Lemma commit_generatedVideo_cases w :
  generatedVideo (state (commit w)) = generatedVideo (state w)
  \/ exists o d v,
       taskStatus (state w) = Some (o, d)
       /\ TaskStatus.status d = "completed"
       /\ TaskStatus.video_info d = Some v
       /\ generatedVideo (state (commit w)) = Some v.
Proof.
  unfold commit, effects_due. rewrite !app_assoc, exec_app.
  match goal with |- context [exec ((?a ++ ?b) ++ ?c) ?w0] =>
    set (w1 := exec ((a ++ b) ++ c) w0);
    assert (generatedVideo (state w1) = generatedVideo (state w)) as E1
  end.
  { subst w1. rewrite exec_generatedVideo; [reflexivity|].
    unfold effect_poll_timer_cleanup, effect_provider, effect_poll_timer.
    repeat apply Forall_app_2; repeat case_match;
      repeat first [apply Forall_cons_2 | apply Forall_nil_2]; exact I. }
  clearbody w1. rewrite <- E1.
  case_match; [|now left]. unfold effect_terminal.
  destruct (taskStatus (state w)) as [[o d]|] eqn:Hs; [|now left].
  destruct (TaskStatus.is_terminal d); [|now left].
  rewrite exec_app.
  match goal with |- context [exec ?x w1] =>
    set (w2 := exec x w1);
    assert (generatedVideo (state w2) = generatedVideo (state w1)) as E2
  end.
  { subst w2. apply exec_generatedVideo.
    case_match; repeat first [apply Forall_cons_2 | apply Forall_nil_2]; exact I. }
  clearbody w2. rewrite <- E2.
  destruct (String.eqb (TaskStatus.status d) "completed") eqn:Hc; [|now left].
  apply String.eqb_eq in Hc.
  destruct (TaskStatus.video_info d) as [v|] eqn:Hv; [|now left].
  right. exists o, d, v. repeat split; assumption || reflexivity.
Qed.

Lemma step_taskStatus_cases w e :
  taskStatus (state (step w e)) = taskStatus (state w)
  \/ taskStatus (state (step w e)) = None
  \/ exists n d o, e = GetResolved n d /\ taskStatus (state (step w e)) = Some (o, d).
Proof.
  rewrite step_handler.
  destruct (handler_of w e) as [[cmds w0]|] eqn:Hh; [|now left].
  unfold dispatch. rewrite commit_taskStatus.
  destruct e; simpl in Hh; simplify_eq/=; auto.
  - unfold handleGenerateVideo. case_match; simpl; auto.
  - destruct (pending_posts w); simplify_eq/=. auto.
  - destruct (pending_posts w); simplify_eq/=. auto.
  - destruct (find_timer id w); simplify_eq/=.
    unfold checkTaskStatus. repeat case_match; simpl; auto.
  - destruct (pending_gets w !! n); simplify_eq/=. right. right. eauto.
  - destruct (pending_gets w !! n); simplify_eq/=.
    unfold checkTaskStatus_catch. case_match; simpl; auto.
Qed.

Lemma handler_generatedVideo w e cmds w0 :
  handler_of w e = Some (cmds, w0) ->
  generatedVideo (state (exec cmds w0)) = generatedVideo (state w)
  \/ generatedVideo (state (exec cmds w0)) = None.
Proof.
  intros He. destruct e; simpl in He; simplify_eq/=; auto.
  - unfold handleGenerateVideo. case_match; simpl; auto.
  - destruct (pending_posts w); simplify_eq/=. auto.
  - destruct (pending_posts w); simplify_eq/=. auto.
  - destruct (find_timer id w); simplify_eq/=.
    unfold checkTaskStatus. repeat case_match; simpl; auto.
  - destruct (pending_gets w !! n); simplify_eq/=. auto.
  - destruct (pending_gets w !! n); simplify_eq/=.
    unfold checkTaskStatus_catch. case_match; simpl; auto.
Qed.

Lemma step_generatedVideo_cases w e :
  generatedVideo (state (step w e)) = generatedVideo (state w)
  \/ generatedVideo (state (step w e)) = None
  \/ exists o d v,
       taskStatus (state (step w e)) = Some (o, d)
       /\ TaskStatus.status d = "completed"
       /\ TaskStatus.video_info d = Some v
       /\ generatedVideo (state (step w e)) = Some v.
Proof.
  rewrite step_handler.
  destruct (handler_of w e) as [[cmds w0]|] eqn:Hh; [|now left].
  unfold dispatch. rewrite commit_taskStatus.
  destruct (commit_generatedVideo_cases (exec cmds w0)) as [E|H].
  - rewrite E. destruct (handler_generatedVideo _ _ _ _ Hh); auto.
  - right. right. exact H.
Qed.

(** The answer held in [taskStatus] and the video held in [generatedVideo]
    came with answers of the status endpoint. *)
Lemma answers_inv (es : list Event) :
  (forall o d, taskStatus (state (run mount es)) = Some (o, d) ->
     exists n, GetResolved n d ∈ es)
  /\ (forall v, generatedVideo (state (run mount es)) = Some v ->
        exists n d, GetResolved n d ∈ es
                    /\ TaskStatus.status d = "completed"
                    /\ TaskStatus.video_info d = Some v).
Proof.
  induction es as [|e es IH] using rev_ind.
  - split; discriminate.
  - destruct IH as (I1 & I2). rewrite run_snoc.
    revert I1 I2. generalize (run mount es). intros w I1 I2.
    assert (forall o d, taskStatus (state (step w e)) = Some (o, d) ->
              exists n, GetResolved n d ∈ es ++ [e]) as J1.
    { intros o d Hs.
      destruct (step_taskStatus_cases w e) as [E|[E|(n & d' & o' & -> & E)]].
      - destruct (I1 o d) as [n Hn]; [congruence|].
        exists n. apply elem_of_app. now left.
      - congruence.
      - exists n. apply elem_of_app. right. apply list_elem_of_singleton.
        congruence. }
    split; [exact J1|].
    intros v Hv.
    destruct (step_generatedVideo_cases w e)
      as [E|[E|(o & d & v' & Hs & Hc & Hi & E)]].
    + destruct (I2 v) as (n & d & Hn & H); [congruence|].
      exists n, d. split; [|exact H]. apply elem_of_app. now left.
    + congruence.
    + destruct (J1 o d Hs) as [n Hn]. exists n, d.
      repeat split; congruence.
Qed.

(** *** The settings *)

Lemma commit_settings w :
  provider (state w) = deps_provider w ->
  settings (state (commit w)) = settings (state w).
Proof.
  intros Hp. unfold commit.
  rewrite (exec_frame (fun w => settings (state w))
             (fun c => match c with setSettings _ => False | _ => True end)).
  - reflexivity.
  - intros ? [] ?; simpl in *; (reflexivity || contradiction).
  - unfold effects_due. rewrite (bool_decide_eq_true_2 _ Hp). simpl.
    unfold effect_poll_timer_cleanup, effect_poll_timer, effect_terminal.
    repeat apply Forall_app_2; repeat case_match;
      repeat first [apply Forall_app_2 | apply Forall_cons_2 | apply Forall_nil_2];
      exact I.
Qed.

Lemma exec_deps_provider cmds w : deps_provider (exec cmds w) = deps_provider w.
Proof.
  apply (exec_frame deps_provider (fun _ => True)).
  - intros ? [] _; reflexivity.
  - apply Forall_forall. auto.
Qed.

Lemma step_provider_cases w e :
  provider (state (step w e)) = provider (state w)
  \/ exists o, e = ChangeProvider o /\ provider (state (step w e)) = option_value o.
Proof.
  rewrite step_handler.
  destruct (handler_of w e) as [[cmds w0]|] eqn:Hh; [|now left].
  unfold dispatch. rewrite commit_provider.
  destruct e; simpl in Hh; simplify_eq/=; eauto.
  - unfold handleGenerateVideo. case_match; simpl; auto.
  - destruct (pending_posts w); simplify_eq/=. auto.
  - destruct (pending_posts w); simplify_eq/=. auto.
  - destruct (find_timer id w); simplify_eq/=.
    unfold checkTaskStatus. repeat case_match; simpl; auto.
  - destruct (pending_gets w !! n); simplify_eq/=. auto.
  - destruct (pending_gets w !! n); simplify_eq/=.
    unfold checkTaskStatus_catch. case_match; simpl; auto.
Qed.

(** An edit of a setting goes into the settings of the render and nothing
    else touches them in that turn. *)
Lemma step_ChangeSetting w key value :
  Inv w ->
  settings (state (step w (ChangeSetting key value)))
  = <[key := value]> (settings (state w)).
Proof.
  intros [_ (Hp & _ & _)]. simpl. unfold dispatch, updateSetting.
  rewrite commit_settings; [reflexivity|]. simpl. congruence.
Qed.

(** In one turn the provider and the settings stay, or a setting is
    edited, or another provider is selected, whose template the settings
    become. *)
Lemma step_settings_cases w e :
  Inv w ->
  (provider (state (step w e)) = provider (state w)
   /\ settings (state (step w e)) = settings (state w))
  \/ (exists key value, e = ChangeSetting key value
        /\ provider (state (step w e)) = provider (state w)
        /\ settings (state (step w e)) = <[key := value]> (settings (state w)))
  \/ (exists o, e = ChangeProvider o
        /\ option_value o <> provider (state w)
        /\ provider (state (step w e)) = option_value o
        /\ settingsTemplates (option_value o) = Some (settings (state (step w e)))).
Proof.
  intros Hinv. pose proof Hinv as [_ (Hp & Ht & Hs)].
  destruct e.
  - left. simpl. unfold dispatch. rewrite commit_provider, commit_settings;
      [split; reflexivity|]. simpl. congruence.
  - destruct (decide (option_value o = provider (state w))) as [E|E].
    + left. simpl. unfold dispatch. rewrite commit_provider, commit_settings;
        [split; [exact E | reflexivity]|]. simpl. congruence.
    + right. right. exists o. split; [reflexivity|]. split; [assumption|].
      simpl. unfold dispatch. rewrite commit_provider. split; [reflexivity|].
      unfold commit, effects_due. simpl.
      rewrite (bool_decide_eq_false_2 (option_value o = deps_provider w))
        by congruence.
      rewrite (bool_decide_eq_true_2 (taskId (state w) = deps_taskId w))
        by congruence.
      rewrite bool_decide_eq_true_2 by congruence.
      destruct o; reflexivity.
  - left. simpl. unfold dispatch. rewrite commit_provider, commit_settings;
      [split; reflexivity|]. simpl. congruence.
  - right. left. exists key, value. split; [reflexivity|].
    split; [|now apply step_ChangeSetting].
    simpl. unfold dispatch. now rewrite commit_provider.
  - left. simpl. unfold dispatch. rewrite commit_provider, commit_settings.
    + unfold handleGenerateVideo. case_match; split; reflexivity.
    + rewrite exec_deps_provider. unfold handleGenerateVideo.
      case_match; simpl; congruence.
  - left. simpl. destruct (pending_posts w); [split; reflexivity|].
    unfold dispatch. rewrite commit_provider, commit_settings;
      [split; reflexivity|]. simpl. congruence.
  - left. simpl. destruct (pending_posts w); [split; reflexivity|].
    unfold dispatch. rewrite commit_provider, commit_settings;
      [split; reflexivity|]. simpl. congruence.
  - left. simpl. destruct (find_timer id w); [|split; reflexivity].
    unfold dispatch. rewrite commit_provider, commit_settings.
    + unfold checkTaskStatus. repeat case_match; split; reflexivity.
    + rewrite exec_deps_provider. unfold checkTaskStatus.
      repeat case_match; simpl; congruence.
  - left. simpl. destruct (pending_gets w !! n); [|split; reflexivity].
    unfold dispatch. rewrite commit_provider, commit_settings;
      [split; reflexivity|]. simpl. congruence.
  - left. simpl. destruct (pending_gets w !! n); [|split; reflexivity].
    unfold dispatch. rewrite commit_provider, commit_settings.
    + unfold checkTaskStatus_catch. case_match; split; reflexivity.
    + rewrite exec_deps_provider. unfold checkTaskStatus_catch.
      case_match; simpl; congruence.
Qed.

Lemma run_edits kvs :
  forall w, Inv w ->
  settings (state (run w (edits kvs))) = apply_edits kvs (settings (state w))
  /\ provider (state (run w (edits kvs))) = provider (state w).
Proof.
  induction kvs as [|[key value] kvs IH]; intros w Hinv; [now split|].
  change (run w (edits ((key, value) :: kvs)))
    with (run (step w (ChangeSetting key value)) (edits kvs)).
  destruct (IH (step w (ChangeSetting key value))) as [E1 E2];
    [now apply step_inv|].
  rewrite E1, E2, step_ChangeSetting by assumption.
  split; [reflexivity|].
  simpl. unfold dispatch. now rewrite commit_provider.
Qed.

(** The inputs that [renderSettings] shows edit fields of the template of
    the selected provider. *)
Lemma renderSettings_in_template (r : State) (o : ProviderOption)
    (tpl : Settings) (key : string) :
  provider r = option_value o ->
  settingsTemplates (option_value o) = Some tpl ->
  key ∈ renderSettings r -> key ∈ dom tpl.
Proof.
  intros Hp Ht. unfold renderSettings. rewrite Hp.
  destruct (showAdvancedSettings r); simpl; [|intros H; inversion H].
  destruct o; simpl in Ht |- *; injection Ht as <-; intros Hk;
    repeat (apply elem_of_cons in Hk as [-> | Hk];
            [apply elem_of_dom; vm_compute; eauto|]);
    inversion Hk.
Qed.

Lemma shaped_insert name s key value :
  shaped name s -> key ∈ dom s -> shaped name (<[key := value]> s).
Proof.
  intros (tpl & Ht & Hd) Hk. exists tpl. split; [assumption|].
  rewrite dom_insert_L, <- Hd.
  now apply subseteq_union_1_L, singleton_subseteq_l.
Qed.

Lemma step_settings_ok w e :
  Inv w -> settings_ok w -> offered w e = true -> settings_ok (step w e).
Proof.
  intros Hinv [(o & Ho) Hs Hr] Hoff.
  assert (shaped (provider (state (step w e))) (settings (state (step w e)))
          /\ exists o', provider (state (step w e)) = option_value o')
    as [Hs' Ho'].
  { destruct (step_settings_cases w e Hinv)
      as [[Ep E]|[(key & value & -> & Ep & E)|(o' & -> & Hne & Ep & E)]].
    - rewrite E, Ep. eauto.
    - rewrite E, Ep. split; [|eauto].
      apply shaped_insert; [assumption|].
      destruct Hs as (tpl & Ht & Hd). rewrite Hd.
      simpl in Hoff. apply bool_decide_eq_true in Hoff.
      rewrite Ho in Ht. now apply (renderSettings_in_template (state w) o).
    - rewrite Ep. split; [|eauto]. eexists. split; [exact E|reflexivity]. }
  constructor; try assumption.
  intros p pr s Hq.
  apply step_requests_origin in Hq as [Hq|[[_ Hq]|(tm & t & _ & _ & Hq)]].
  - now apply (Hr p).
  - injection Hq as -> -> ->. assumption.
  - discriminate.
Qed.

Lemma mount_settings_ok : settings_ok mount.
Proof.
  constructor.
  - exists opt_replicate. reflexivity.
  - exists replicate_template. split; reflexivity.
  - intros p pr s H. inversion H.
Qed.

Lemma run_settings_ok es :
  forall w, Inv w -> settings_ok w -> offered_run w es = true ->
  settings_ok (run w es).
Proof.
  induction es as [|e es IH]; intros w Hinv Hs Ho; [assumption|].
  simpl in Ho. apply andb_true_iff in Ho as [Ho1 Ho2].
  simpl. apply IH; auto using step_inv, step_settings_ok.
Qed.

(** *** Answers and submissions *)

Lemma not_terminal (d : TaskStatus.t) :
  TaskStatus.status d <> "completed" -> TaskStatus.status d <> "failed" ->
  TaskStatus.is_terminal d = false.
Proof.
  intros H1 H2. unfold TaskStatus.is_terminal.
  apply String.eqb_neq in H1, H2. now rewrite H1, H2.
Qed.

Lemma step_GetResolved_taskStatus w n k data :
  pending_gets w !! n = Some k ->
  snd <$> taskStatus (state (step w (GetResolved n data))) = Some data.
Proof.
  intros Hk. simpl. rewrite Hk. unfold dispatch. now rewrite commit_taskStatus.
Qed.

(** A poll that fails runs the first statement of the [catch] block and
    nothing else: the closure's [statusInterval] is [null]. *)
Lemma step_GetRejected_eq (es : list Event) (n : nat) (k : Closure) :
  pending_gets (run mount es) !! n = Some k ->
  step (run mount es) (GetRejected n)
  = exec [setError poll_error_message] (forget_get n (run mount es)).
Proof.
  intros Hk. destruct (run_inv es mount mount_inv) as [Hw Hd].
  assert (cl_statusInterval k = None) as Hs.
  { destruct Hw as [_ _ _ H4 _]. rewrite Forall_forall in H4.
    apply H4, list_elem_of_lookup. eauto. }
  apply step_synced; [|exact Hd].
  simpl. rewrite Hk. simpl. unfold checkTaskStatus_catch. now rewrite Hs.
Qed.

(** A submission with a blank prompt runs the guard's [setError] and
    nothing else. *)
Lemma step_SubmitForm_blank (es : list Event) :
  Js.all_white_space (prompt (state (run mount es))) = true ->
  step (run mount es) SubmitForm
  = exec [setError empty_prompt_message] (run mount es).
Proof.
  intros Hb. destruct (run_inv es mount mount_inv) as [_ Hd].
  apply step_synced; [|exact Hd].
  simpl. unfold handleGenerateVideo.
  now rewrite (JsFacts.trim_all_white_space _ Hb).
Qed.

(** While [loading] is set and no generation request is in flight, the
    page issues no generation request. *)
Lemma step_busy_posts w e :
  loading (state w) = true -> pending_posts w = 0%nat ->
  offered w e = true ->
  List.filter is_post (requests (step w e)) = List.filter is_post (requests w).
Proof.
  intros Hl Hp Ho. destruct e; simpl in Ho; rewrite ?Hl in Ho;
    try discriminate; simpl; unfold dispatch; rewrite ?Hp;
    try reflexivity.
  - now rewrite commit_requests.
  - destruct (find_timer id w); [|reflexivity]. rewrite commit_requests.
    unfold checkTaskStatus. repeat case_match; simpl; try reflexivity.
    rewrite List.filter_app. simpl. apply app_nil_r.
  - destruct (pending_gets w !! n); [|reflexivity]. now rewrite commit_requests.
  - destruct (pending_gets w !! n); [|reflexivity]. rewrite commit_requests.
    unfold checkTaskStatus_catch. case_match; reflexivity.
Qed.

Lemma run_busy_posts es :
  forall w, loading (state w) = true -> pending_posts w = 0%nat ->
  offered_run w es = true ->
  List.filter is_post (requests (run w es)) = List.filter is_post (requests w)
  /\ taskId (state (run w es)) = taskId (state w).
Proof.
  induction es as [|e es IH]; intros w Hl Hp Ho; [auto|].
  simpl in Ho. apply andb_true_iff in Ho as [Ho1 Ho2].
  destruct (step_busy w e Hl Hp Ho1) as (Hl' & Hp' & Ht').
  destruct (IH (step w e) Hl' Hp' Ho2) as [E1 E2].
  simpl. rewrite E1, E2, Ht'. split; [|reflexivity].
  now apply step_busy_posts.
Qed.

(** The answer of a generation request starts no timer while a handle is
    stored. *)
Lemma step_PostResolved_blocked w t tm :
  Inv w -> statusInterval (state w) <> None ->
  tm ∈ timers (step w (PostResolved t)) -> tm ∈ timers w.
Proof.
  intros Hinv Hsi Hin.
  pose proof (step_inv w (PostResolved t) Hinv) as [[_ _ Hcb _ _] _].
  rewrite Forall_forall in Hcb. destruct (Hcb tm Hin) as [Hstale _].
  revert Hin. simpl. destruct (pending_posts w); [auto|].
  unfold dispatch. intros Hin.
  apply commit_timers_origin in Hin as [Hin|[_ Hcl]]; [exact Hin|].
  rewrite Hcl in Hstale. simpl in Hstale. congruence.
Qed.

(** *** A run of the page, before and after the accepted submission *)

Lemma commit_cleanup w :
  cleanup_statusInterval (commit w)
  = if bool_decide (taskId (state w) = deps_taskId w)
    then cleanup_statusInterval w else statusInterval (state w).
Proof.
  rewrite (commit_frame cleanup_statusInterval).
  - simpl. now case_bool_decide.
  - intros ? [] ?; simpl in *; (reflexivity || contradiction).
Qed.

Lemma exec_cleanup cmds w :
  cleanup_statusInterval (exec cmds w) = cleanup_statusInterval w.
Proof.
  apply (exec_frame cleanup_statusInterval (fun _ => True)).
  - intros ? [] _; reflexivity.
  - apply Forall_forall. auto.
Qed.

Lemma exec_statusInterval_cases cmds :
  Forall (fun c => match c with
                   | setStatusInterval (Some _) => False
                   | _ => True
                   end) cmds ->
  forall w,
  statusInterval (state (exec cmds w)) = statusInterval (state w)
  \/ statusInterval (state (exec cmds w)) = None.
Proof.
  induction 1 as [|c cmds Hc _ IH]; intros w; [now left|].
  simpl. destruct (IH (exec_cmd w c)) as [E|E]; [|now right].
  rewrite E. destruct c as [| | | | | | | |[i|]| | | | |]; simpl in *;
    (now left) || (now right) || contradiction.
Qed.

(** A turn leaves the handle, clears it, or is the answer of a generation
    request. *)
Lemma step_statusInterval_cases w e :
  Inv w ->
  statusInterval (state (step w e)) = statusInterval (state w)
  \/ statusInterval (state (step w e)) = None
  \/ exists t, e = PostResolved t /\ pending_posts w <> 0%nat.
Proof.
  intros [Hw (Hp & Ht & Hs)]. rewrite step_handler.
  destruct (handler_of w e) as [[cmds w0]|] eqn:Hh; [|now left].
  assert ((exists t, e = PostResolved t) \/ ~ (exists t, e = PostResolved t))
    as [[t ->]|Hne]
    by (destruct e; (left; eauto; fail) || (right; intros [? ?]; discriminate)).
  { right. right. exists t. split; [reflexivity|].
    simpl in Hh. destruct (pending_posts w); [discriminate | lia]. }
  assert (taskId (state (exec cmds w0)) = deps_taskId (exec cmds w0)
          \/ Js.truthy_opt (taskId (state (exec cmds w0))) = false) as Hid.
  { rewrite exec_deps_taskId.
    destruct (handler_of_spec _ _ _ _ Hw Hh) as [_ Hsbp].
    rewrite (sbp_deps_taskId _ _ Hsbp), Ht.
    destruct (handler_taskId _ _ _ _ Hh) as [E|[E|(t & -> & _)]].
    - now left.
    - right. now rewrite E.
    - exfalso. apply Hne. eauto. }
  assert (statusInterval (state (exec cmds w0)) = statusInterval (state w)
          \/ statusInterval (state (exec cmds w0)) = None) as Hh2.
  { destruct (handler_of_spec _ _ _ _ Hw Hh) as [_ Hsbp].
    rewrite <- (sbp_state _ _ Hsbp).
    apply exec_statusInterval_cases.
    destruct e; simpl in Hh; simplify_eq/=;
      repeat first [apply Forall_cons_2 | apply Forall_nil_2]; try exact I.
    - unfold handleGenerateVideo. case_match;
        repeat first [apply Forall_cons_2 | apply Forall_nil_2]; exact I.
    - destruct (pending_posts w); simplify_eq/=.
      repeat first [apply Forall_cons_2 | apply Forall_nil_2]; exact I.
    - destruct (pending_posts w); simplify_eq/=.
      repeat first [apply Forall_cons_2 | apply Forall_nil_2]; exact I.
    - destruct (find_timer id w); simplify_eq/=.
      unfold checkTaskStatus. repeat case_match;
        repeat first [apply Forall_cons_2 | apply Forall_nil_2]; exact I.
    - destruct (pending_gets w !! n); simplify_eq/=.
      repeat first [apply Forall_cons_2 | apply Forall_nil_2]; exact I.
    - destruct (pending_gets w !! n); simplify_eq/=.
      unfold checkTaskStatus_catch. case_match;
        repeat first [apply Forall_cons_2 | apply Forall_nil_2]; exact I. }
  unfold dispatch.
  assert (Forall (fun c => match c with
                            | setStatusInterval (Some _) => False
                            | _ => True
                            end) (effects_due (exec cmds w0))) as HF.
  { unfold effects_due, effect_poll_timer_cleanup, effect_provider,
      effect_poll_timer, effect_terminal.
    destruct Hid as [Hid|Hid].
    - rewrite (bool_decide_eq_true_2 _ Hid). simpl.
      repeat apply Forall_app_2; repeat case_match;
        repeat first [apply Forall_app_2 | apply Forall_cons_2 | apply Forall_nil_2];
        exact I.
    - rewrite Hid. simpl.
      repeat apply Forall_app_2; repeat case_match;
        repeat first [apply Forall_app_2 | apply Forall_cons_2 | apply Forall_nil_2];
        exact I. }
  assert (statusInterval (state (commit (exec cmds w0)))
          = statusInterval (state (exec cmds w0))
          \/ statusInterval (state (commit (exec cmds w0))) = None) as Hc.
  { unfold commit.
    match goal with |- context [exec (effects_due ?x) ?w1] =>
      exact (exec_statusInterval_cases (effects_due x) HF w1) end. }
  destruct Hc as [Hc|Hc]; [|auto]. rewrite Hc.
  destruct Hh2; auto.
Qed.

(** The cleanup closure stays, or is replaced in a turn that changes
    [taskId], capturing the handle stored before that turn. *)
Lemma step_cleanup w e :
  Inv w ->
  cleanup_statusInterval (step w e) = cleanup_statusInterval w
  \/ (taskId (state (step w e)) <> taskId (state w)
      /\ cleanup_statusInterval (step w e) = statusInterval (state w)).
Proof.
  intros [Hw (Hp & Ht & Hs)]. rewrite step_handler.
  destruct (handler_of w e) as [[cmds w0]|] eqn:Hh; [|now left].
  destruct (handler_of_spec _ _ _ _ Hw Hh) as [_ Hsbp].
  unfold dispatch. rewrite commit_cleanup, commit_taskId, exec_deps_taskId,
    exec_cleanup, (sbp_deps_taskId _ _ Hsbp), (sbp_cleanup _ _ Hsbp), Ht.
  case_bool_decide as Hid; [now left|]. right. split; [exact Hid|].
  clear Hid.
  destruct e; simpl in Hh.
  - simplify_eq/=. reflexivity.
  - simplify_eq/=. reflexivity.
  - simplify_eq/=. reflexivity.
  - simplify_eq/=. reflexivity.
  - simplify_eq/=. unfold handleGenerateVideo. case_match; reflexivity.
  - destruct (pending_posts w); simplify_eq/=. reflexivity.
  - destruct (pending_posts w); simplify_eq/=. reflexivity.
  - destruct (find_timer id w); simplify_eq/=.
    unfold checkTaskStatus. repeat case_match; reflexivity.
  - destruct (pending_gets w !! n); simplify_eq/=. reflexivity.
  - destruct (pending_gets w !! n) as [k|] eqn:Hk; simplify_eq/=.
    destruct Hw as [_ _ _ H4 _]. rewrite Forall_forall in H4.
    assert (k ∈ pending_gets w) as Hin by (apply list_elem_of_lookup; eauto).
    destruct (H4 k Hin) as [Hst _]. unfold checkTaskStatus_catch.
    rewrite Hst. reflexivity.
Qed.

Lemma page_more_quiet w w' :
  page_more w -> page_ok w' ->
  cleanup_statusInterval w' = None ->
  (statusInterval (state w') = statusInterval (state w)
   \/ statusInterval (state w') = None) ->
  loading (state w') = loading (state w) ->
  pending_posts w' = pending_posts w ->
  taskId (state w') = taskId (state w) ->
  (prompt (state w') = prompt (state w) \/ loading (state w) = false) ->
  page_more w'.
Proof.
  intros [Hpage Hcl Hbefore Hprompt] Hpage' Hcl' Hsi Hl Hp Ht Hpr.
  constructor; try assumption.
  - rewrite Hl, Hp, Ht. intros Hpre. destruct (Hbefore Hpre) as [E1 E2].
    split; [assumption|]. destruct Hsi as [Hsi|Hsi]; congruence.
  - rewrite Hp. intros Hp1. destruct Hpr as [Hpr|Hlf].
    + rewrite Hpr. auto.
    + pose proof (page_posting w Hpage Hp1). congruence.
Qed.

Lemma step_page_more w e :
  page_more w -> offered w e = true -> page_more (step w e).
Proof.
  intros Hw Ho. pose proof Hw as [Hpage Hcl Hbefore Hprompt].
  pose proof (page_inv w Hpage) as Hinv.
  pose proof (step_page_ok w e Hpage Ho) as Hpage'.
  pose proof (step_cleanup w e Hinv) as Hcl'.
  pose proof (step_statusInterval_cases w e Hinv) as Hsi'.
  assert (forall w', cleanup_statusInterval w' = cleanup_statusInterval w
            \/ taskId (state w') <> taskId (state w)
               /\ cleanup_statusInterval w' = statusInterval (state w) ->
            taskId (state w') = taskId (state w) ->
            cleanup_statusInterval w' = None) as Hquiet_cl.
  { intros w' [E|[Hne _]] Ht; congruence. }
  assert (forall w' : World,
            statusInterval (state w') = statusInterval (state w)
            \/ statusInterval (state w') = None
            \/ (exists t, e = PostResolved t /\ pending_posts w <> 0%nat) ->
            (forall t, e <> PostResolved t) ->
            statusInterval (state w') = statusInterval (state w)
            \/ statusInterval (state w') = None) as Hquiet_si.
  { intros w' [E|[E|(t & -> & _)]] Hne; auto. now destruct (Hne t). }
  destruct e; simpl in Ho.
  - (* ChangePrompt *)
    apply negb_true_iff in Ho.
    assert (loading (state (step w (ChangePrompt value))) = loading (state w)
            /\ pending_posts (step w (ChangePrompt value)) = pending_posts w
            /\ taskId (state (step w (ChangePrompt value))) = taskId (state w))
      as (E1 & E2 & E3) by (simpl; fields; auto).
    apply (page_more_quiet w); auto;
      (apply Hquiet_si; [assumption|discriminate]).
  - (* ChangeProvider *)
    assert (loading (state (step w (ChangeProvider o))) = loading (state w)
            /\ pending_posts (step w (ChangeProvider o)) = pending_posts w
            /\ taskId (state (step w (ChangeProvider o))) = taskId (state w)
            /\ prompt (state (step w (ChangeProvider o))) = prompt (state w))
      as (E1 & E2 & E3 & E4)
      by (simpl; fields; rewrite commit_prompt; auto).
    apply (page_more_quiet w); auto;
      (apply Hquiet_si; [assumption|discriminate]).
  - (* ToggleAdvancedSettings *)
    assert (loading (state (step w ToggleAdvancedSettings)) = loading (state w)
            /\ pending_posts (step w ToggleAdvancedSettings) = pending_posts w
            /\ taskId (state (step w ToggleAdvancedSettings)) = taskId (state w)
            /\ prompt (state (step w ToggleAdvancedSettings)) = prompt (state w))
      as (E1 & E2 & E3 & E4)
      by (simpl; fields; rewrite commit_prompt; auto).
    apply (page_more_quiet w); auto;
      (apply Hquiet_si; [assumption|discriminate]).
  - (* ChangeSetting *)
    assert (loading (state (step w (ChangeSetting key value))) = loading (state w)
            /\ pending_posts (step w (ChangeSetting key value)) = pending_posts w
            /\ taskId (state (step w (ChangeSetting key value))) = taskId (state w)
            /\ prompt (state (step w (ChangeSetting key value))) = prompt (state w))
      as (E1 & E2 & E3 & E4)
      by (simpl; fields; rewrite commit_prompt; auto).
    apply (page_more_quiet w); auto;
      (apply Hquiet_si; [assumption|discriminate]).
  - (* SubmitForm, offered *)
    apply negb_true_iff, orb_false_iff in Ho as [Hl Hb].
    apply negb_false_iff in Hb.
    destruct (Hbefore (or_introl Hl)) as [Hid Hsi].
    assert (pending_posts w = 0%nat) as Hp0.
    { pose proof (page_posts w Hpage). pose proof (page_posting w Hpage).
      destruct (pending_posts w) as [|[|?]]; [reflexivity | | lia].
      rewrite Hl in *. intuition discriminate. }
    assert (loading (state (step w SubmitForm)) = true
            /\ pending_posts (step w SubmitForm) = 1%nat
            /\ taskId (state (step w SubmitForm)) = None
            /\ prompt (state (step w SubmitForm)) = prompt (state w))
      as (E1 & E2 & E3 & E4).
    { simpl. unfold handleGenerateVideo. rewrite Hb. fields.
      rewrite commit_prompt, Hp0. auto. }
    constructor; [assumption | | |].
    + apply Hquiet_cl; [assumption|congruence].
    + intros _. split; [assumption|].
      destruct (Hquiet_si (step w SubmitForm) Hsi') as [E|E];
        [discriminate | congruence | assumption].
    + intros _. now rewrite E4.
  - (* PostResolved *)
    destruct (pending_posts w) as [|m] eqn:Hm;
      [simpl; rewrite Hm; assumption|].
    assert (m = 0%nat) as -> by (pose proof (page_posts w Hpage); lia).
    destruct (Hbefore (or_intror eq_refl)) as [Hid Hsi].
    pose proof (page_posting w Hpage Hm) as Hl.
    assert (loading (state (step w (PostResolved task_id))) = true
            /\ pending_posts (step w (PostResolved task_id)) = 0%nat)
      as (E1 & E2).
    { simpl. rewrite Hm. fields. rewrite Hm. auto. }
    constructor; [assumption | | |].
    + destruct Hcl' as [E|[_ E]]; congruence.
    + intros [E|E]; congruence.
    + intros E. congruence.
  - (* PostRejected *)
    destruct (pending_posts w) as [|m] eqn:Hm;
      [simpl; rewrite Hm; assumption|].
    assert (m = 0%nat) as -> by (pose proof (page_posts w Hpage); lia).
    destruct (Hbefore (or_intror eq_refl)) as [Hid Hsi].
    assert (taskId (state (step w (PostRejected detail))) = taskId (state w)
            /\ pending_posts (step w (PostRejected detail)) = 0%nat)
      as (E1 & E2).
    { simpl. rewrite Hm. fields. rewrite Hm. auto. }
    constructor; [assumption | | |].
    + now apply Hquiet_cl.
    + intros _. split; [congruence|].
      destruct (Hquiet_si (step w (PostRejected detail)) Hsi') as [E|E];
        [discriminate | congruence | assumption].
    + intros E. congruence.
  - (* TimerFired *)
    assert (loading (state (step w (TimerFired id))) = loading (state w)
            /\ pending_posts (step w (TimerFired id)) = pending_posts w
            /\ taskId (state (step w (TimerFired id))) = taskId (state w)
            /\ prompt (state (step w (TimerFired id))) = prompt (state w))
      as (E1 & E2 & E3 & E4).
    { simpl. destruct (find_timer id w); [|auto].
      unfold checkTaskStatus. repeat case_match; fields;
        rewrite commit_prompt; auto. }
    apply (page_more_quiet w); auto;
      (apply Hquiet_si; [assumption|discriminate]).
  - (* GetResolved *)
    assert (loading (state (step w (GetResolved n data))) = loading (state w)
            /\ pending_posts (step w (GetResolved n data)) = pending_posts w
            /\ taskId (state (step w (GetResolved n data))) = taskId (state w)
            /\ prompt (state (step w (GetResolved n data))) = prompt (state w))
      as (E1 & E2 & E3 & E4).
    { simpl. destruct (pending_gets w !! n); [|auto].
      fields. rewrite commit_prompt. auto. }
    apply (page_more_quiet w); auto;
      (apply Hquiet_si; [assumption|discriminate]).
  - (* GetRejected *)
    assert (loading (state (step w (GetRejected n))) = loading (state w)
            /\ pending_posts (step w (GetRejected n)) = pending_posts w
            /\ taskId (state (step w (GetRejected n))) = taskId (state w)
            /\ prompt (state (step w (GetRejected n))) = prompt (state w))
      as (E1 & E2 & E3 & E4).
    { simpl. destruct (pending_gets w !! n); [|auto].
      unfold checkTaskStatus_catch. case_match; fields;
        rewrite commit_prompt; auto. }
    apply (page_more_quiet w); auto;
      (apply Hquiet_si; [assumption|discriminate]).
Qed.

Lemma mount_page_more : page_more mount.
Proof.
  constructor; auto using mount_page_ok. discriminate.
Qed.

Lemma run_page_more es :
  forall w, page_more w -> offered_run w es = true -> page_more (run w es).
Proof.
  induction es as [|e es IH]; intros w Hw Ho; [assumption|].
  simpl in Ho. apply andb_true_iff in Ho as [Ho1 Ho2].
  simpl. apply IH; [|assumption]. now apply step_page_more.
Qed.

(** *** After the unmount *)

Lemma unmount_page w : page_more w -> unmount w = w.
Proof. intros Hw. unfold unmount. now rewrite (pm_cleanup w Hw). Qed.

Lemma inv_unmounted_ok w : Inv w -> unmounted_ok w.
Proof. intros [[_ _ H3 H4 _] _]. now split. Qed.

Lemma step_unmounted_timers w e :
  unmounted_ok w ->
  timers (step_unmounted w e) = timers w /\ unmounted_ok (step_unmounted w e).
Proof.
  intros [H3 H4]. destruct e; simpl; try (split; [reflexivity | now split]).
  - destruct (pending_posts w); split; try reflexivity; now split.
  - destruct (pending_posts w); split; try reflexivity; now split.
  - destruct (find_timer id w) as [tm|] eqn:Hf; [|split; [reflexivity | now split]].
    apply find_timer_elem in Hf.
    assert (stale_closure (callback tm)) as Hs
      by (rewrite Forall_forall in H3; now apply H3).
    unfold checkTaskStatus. repeat case_match; simpl;
      (split; [reflexivity|]); split; simpl; try assumption.
    apply Forall_app_2; [assumption | now constructor].
  - destruct (pending_gets w !! n); split; try reflexivity; try now split.
    split; simpl; [assumption | now apply Forall_delete].
  - destruct (pending_gets w !! n) as [k|] eqn:Hk;
      [|split; [reflexivity | now split]].
    assert (cl_statusInterval k = None) as Hs.
    { rewrite Forall_forall in H4. apply H4, list_elem_of_lookup. eauto. }
    unfold checkTaskStatus_catch. rewrite Hs. simpl.
    split; [reflexivity|]. split; simpl; [assumption | now apply Forall_delete].
Qed.

Lemma run_unmounted_timers es :
  forall w, unmounted_ok w ->
  timers (run_unmounted w es) = timers w /\ unmounted_ok (run_unmounted w es).
Proof.
  induction es as [|e es IH]; intros w Hw; [now split|].
  destruct (step_unmounted_timers w e Hw) as [E Hw'].
  destruct (IH _ Hw') as [E' Hw'']. simpl. split; [congruence | assumption].
Qed.

(** The tick of a timer of an unmounted instance issues its request as
    before. *)
Lemma step_unmounted_tick w tm t :
  timers w = [tm] -> cl_taskId (callback tm) = Some t -> Js.truthy t = true ->
  requests (step_unmounted w (TimerFired (timer_id tm)))
  = requests w ++ [GET_video_generation_status t].
Proof.
  intros Ht Hcl Htr. simpl. unfold find_timer. rewrite Ht.
  rewrite filter_cons_True by reflexivity. simpl.
  unfold checkTaskStatus. now rewrite Hcl, Htr.
Qed.

Lemma timers_singleton w tm : Inv w -> tm ∈ timers w -> timers w = [tm].
Proof.
  intros [[_ H2 _ _ _] _] Hin.
  destruct (timers w) as [|x [|y l]]; simpl in H2; [inversion Hin | | lia].
  apply list_elem_of_singleton in Hin. now subst.
Qed.

End VideoGeneratorExtra.

Import VideoGeneratorExtra VideoGeneratorUnmount ExtraSpec.

(** X1. The generator only ever asks for the status of a task id that an
    answer of [/api/generate-video] carried earlier in the run. *)
Theorem polls_only_tasks_handed_out (es : list Event) (t : string) :
  GET_video_generation_status t ∈ requests (run mount es) ->
  PostResolved t ∈ es.
Proof. apply handed_out_inv. Qed.

Lemma polls_only_tasks_handed_out_witness :
  GET_video_generation_status "t1" ∈ requests (run mount first_poll_run)
  /\ PostResolved "t1" ∈ first_poll_run.
Proof.
  assert (GET_video_generation_status "t1" ∈ requests (run mount first_poll_run))
    as H by (vm_compute; apply list_elem_of_In; simpl; auto).
  split; [exact H|].
  exact (polls_only_tasks_handed_out first_poll_run "t1" H).
Defined.

(** X2. The video that the generator shows as the result is the
    [video_info] of an answer of the status endpoint that arrived earlier
    with the status [completed]. *)
Theorem shown_video_comes_from_completed_answer (es : list Event) (v : VideoInfo) :
  generatedVideo (state (run mount es)) = Some v ->
  exists n d, GetResolved n d ∈ es
              /\ TaskStatus.status d = "completed"
              /\ TaskStatus.video_info d = Some v.
Proof. apply answers_inv. Qed.

Lemma shown_video_comes_from_completed_answer_witness :
  generatedVideo
    (state (run mount (first_poll_run ++ [GetResolved 0 (completed_answer cat_video)])))
  = Some cat_video
  /\ exists n d,
       GetResolved n d ∈ first_poll_run ++ [GetResolved 0 (completed_answer cat_video)]
       /\ TaskStatus.status d = "completed"
       /\ TaskStatus.video_info d = Some cat_video.
Proof.
  assert (generatedVideo
            (state (run mount (first_poll_run
                               ++ [GetResolved 0 (completed_answer cat_video)])))
          = Some cat_video) as H by (vm_compute; reflexivity).
  split; [exact H|].
  exact (shown_video_comes_from_completed_answer _ cat_video H).
Defined.

(** X3. Edits of the settings accumulate in the order they are made: none
    is lost, the last edit of a key decides its value, and the provider
    stays. *)
Theorem setting_edits_accumulate (es : list Event) (kvs : list (string * Js.number)) :
  settings (state (run (run mount es) (edits kvs)))
  = apply_edits kvs (settings (state (run mount es)))
  /\ provider (state (run (run mount es) (edits kvs)))
     = provider (state (run mount es)).
Proof. apply run_edits, run_inv, mount_inv. Qed.

(** X4. In a run of the page the provider is one of the select's options
    and the settings have exactly the fields of its template; so do the
    settings of every generation request issued, for the provider the
    request names. *)
Theorem settings_keep_template_fields (es : list Event) :
  offered_run mount es = true ->
  shaped (provider (state (run mount es))) (settings (state (run mount es)))
  /\ forall p pr s,
       POST_generate_video p pr s ∈ requests (run mount es) -> shaped pr s.
Proof.
  intros Ho.
  destruct (run_settings_ok es mount mount_inv mount_settings_ok Ho)
    as [_ H1 H2].
  split; assumption.
Qed.

Lemma settings_keep_template_fields_witness :
  offered_run mount [ChangeProvider opt_stability; ToggleAdvancedSettings;
                     ChangeSetting "cfg_scale" Js.NaN; ChangePrompt "a cat";
                     SubmitForm] = true
  /\ shaped
       (provider (state (run mount [ChangeProvider opt_stability;
                                    ToggleAdvancedSettings;
                                    ChangeSetting "cfg_scale" Js.NaN;
                                    ChangePrompt "a cat"; SubmitForm])))
       (settings (state (run mount [ChangeProvider opt_stability;
                                    ToggleAdvancedSettings;
                                    ChangeSetting "cfg_scale" Js.NaN;
                                    ChangePrompt "a cat"; SubmitForm]))).
Proof.
  assert (offered_run mount [ChangeProvider opt_stability; ToggleAdvancedSettings;
                             ChangeSetting "cfg_scale" Js.NaN;
                             ChangePrompt "a cat"; SubmitForm] = true) as H
    by (vm_compute; reflexivity).
  split; [exact H|].
  exact (proj1 (settings_keep_template_fields _ H)).
Defined.

(** X5. An answer of the status endpoint whose status is neither
    [completed] nor [failed] replaces the stored answer, whichever request
    it answers, and changes nothing else: the timer, its handle, the shown
    video and the requests issued are as before. *)
Theorem unfinished_answer_keeps_polling
  (es : list Event) (n : nat) (k : Closure) (data : TaskStatus.t) :
  pending_gets (run mount es) !! n = Some k ->
  TaskStatus.status data <> "completed" ->
  TaskStatus.status data <> "failed" ->
  snd <$> taskStatus (state (step (run mount es) (GetResolved n data)))
    = Some data
  /\ timers (step (run mount es) (GetResolved n data)) = timers (run mount es)
  /\ statusInterval (state (step (run mount es) (GetResolved n data)))
     = statusInterval (state (run mount es))
  /\ generatedVideo (state (step (run mount es) (GetResolved n data)))
     = generatedVideo (state (run mount es))
  /\ requests (step (run mount es) (GetResolved n data))
     = requests (run mount es).
Proof.
  intros Hk H1 H2.
  pose proof (run_inv es mount mount_inv) as Hinv.
  destruct (step_GetResolved_running _ n k data Hinv Hk (not_terminal _ H1 H2))
    as (T1 & T2 & T3).
  destruct (step_GetResolved_frame (run mount es) n data) as (F1 & _).
  pose proof (step_GetResolved_taskStatus _ n k data Hk) as T0.
  repeat split; assumption.
Qed.

Lemma unfinished_answer_keeps_polling_witness :
  pending_gets (run mount first_poll_run) !! 0%nat
    = Some {| cl_taskId := Some "t1"; cl_statusInterval := None |}
  /\ timers (step (run mount first_poll_run)
               (GetResolved 0 (running_answer (3 # 10))))
     = timers (run mount first_poll_run).
Proof.
  assert (pending_gets (run mount first_poll_run) !! 0%nat
          = Some {| cl_taskId := Some "t1"; cl_statusInterval := None |}) as H
    by (vm_compute; reflexivity).
  split; [exact H|].
  apply (unfinished_answer_keeps_polling first_poll_run 0 _
           (running_answer (3 # 10)) H); discriminate.
Defined.

(** X6. A status request that fails sets the error message and changes
    nothing else: the timer keeps running with its handle stored, and the
    stored answer, the shown video and the requests issued are as before. *)
Theorem failed_poll_keeps_polling (es : list Event) (n : nat) (k : Closure) :
  pending_gets (run mount es) !! n = Some k ->
  error (state (step (run mount es) (GetRejected n))) = poll_error_message
  /\ timers (step (run mount es) (GetRejected n)) = timers (run mount es)
  /\ statusInterval (state (step (run mount es) (GetRejected n)))
     = statusInterval (state (run mount es))
  /\ taskStatus (state (step (run mount es) (GetRejected n)))
     = taskStatus (state (run mount es))
  /\ generatedVideo (state (step (run mount es) (GetRejected n)))
     = generatedVideo (state (run mount es))
  /\ requests (step (run mount es) (GetRejected n)) = requests (run mount es).
Proof.
  intros Hk. rewrite (step_GetRejected_eq es n k Hk). repeat split.
Qed.

Lemma failed_poll_keeps_polling_witness :
  pending_gets (run mount first_poll_run) !! 0%nat
    = Some {| cl_taskId := Some "t1"; cl_statusInterval := None |}
  /\ timers (step (run mount first_poll_run) (GetRejected 0))
     = timers (run mount first_poll_run).
Proof.
  assert (pending_gets (run mount first_poll_run) !! 0%nat
          = Some {| cl_taskId := Some "t1"; cl_statusInterval := None |}) as H
    by (vm_compute; reflexivity).
  split; [exact H|].
  exact (proj1 (proj2 (failed_poll_keeps_polling first_poll_run 0 _ H))).
Defined.

(** X7. In a run of the page, a generation request that fails shows
    [Erreur: ] followed by the server's [detail], or by the fixed fallback
    when there is none, resets [loading] and leaves no task and no timer
    behind; the form is offered again with the prompt that was submitted. *)
Theorem rejected_submission_can_be_retried (es : list Event) (detail : option string) :
  offered_run mount es = true ->
  pending_posts (run mount es) <> 0%nat ->
  error_message (render (state (step (run mount es) (PostRejected detail))))
  = Some ("Erreur: "
          ++ Js.or_else detail "Impossible de communiquer avec le serveur")%string
  /\ loading (state (step (run mount es) (PostRejected detail))) = false
  /\ taskId (state (step (run mount es) (PostRejected detail))) = None
  /\ timers (step (run mount es) (PostRejected detail)) = []
  /\ prompt (state (step (run mount es) (PostRejected detail)))
     = prompt (state (run mount es))
  /\ offered (step (run mount es) (PostRejected detail)) SubmitForm = true.
Proof.
  intros Ho Hp.
  pose proof (run_page_more es mount mount_page_more Ho) as Hw.
  pose proof (step_page_more _ (PostRejected detail) Hw eq_refl) as Hw'.
  revert Hp Hw Hw'. generalize (run mount es). intros w Hp Hw Hw'.
  assert (pending_posts w = 1%nat) as Hp1
    by (pose proof (page_posts w (pm_page w Hw)); lia).
  pose proof (pm_prompt w Hw Hp1) as Hb.
  assert (error (state (step w (PostRejected detail)))
          = ("Erreur: "
             ++ Js.or_else detail "Impossible de communiquer avec le serveur")%string
          /\ loading (state (step w (PostRejected detail))) = false
          /\ prompt (state (step w (PostRejected detail))) = prompt (state w))
    as (E1 & E2 & E3).
  { simpl. rewrite Hp1. unfold dispatch.
    rewrite commit_error, commit_loading, commit_prompt. auto. }
  destruct (pm_before _ Hw' (or_introl E2)) as [E4 E5].
  pose proof (timers_ok_no_handle _ (proj1 (page_inv _ (pm_page _ Hw'))) E5) as E6.
  repeat split; try assumption.
  - unfold render, error_message. rewrite E1. reflexivity.
  - unfold offered, render, generate_disabled. now rewrite E2, E3, Hb.
Qed.

Lemma rejected_submission_can_be_retried_witness :
  offered_run mount [ChangePrompt "a cat"; SubmitForm] = true
  /\ pending_posts (run mount [ChangePrompt "a cat"; SubmitForm]) <> 0%nat
  /\ offered (step (run mount [ChangePrompt "a cat"; SubmitForm])
                (PostRejected None)) SubmitForm = true.
Proof.
  assert (offered_run mount [ChangePrompt "a cat"; SubmitForm] = true) as H1
    by (vm_compute; reflexivity).
  assert (pending_posts (run mount [ChangePrompt "a cat"; SubmitForm]) <> 0%nat)
    as H2 by (vm_compute; discriminate).
  split; [exact H1|]. split; [exact H2|].
  apply (rejected_submission_can_be_retried
           [ChangePrompt "a cat"; SubmitForm] None H1 H2).
Defined.

(** X8. In a run of the page, once a generation request has been accepted,
    no second generation request is issued and the stored task stays the
    accepted one, whatever follows. *)
Theorem one_generation_per_mount (es : list Event) (t : string) (es' : list Event) :
  offered_run mount es = true ->
  pending_posts (run mount es) <> 0%nat ->
  offered_run (step (run mount es) (PostResolved t)) es' = true ->
  List.filter is_post (requests (run (step (run mount es) (PostResolved t)) es'))
  = List.filter is_post (requests (run mount es))
  /\ taskId (state (run (step (run mount es) (PostResolved t)) es')) = Some t.
Proof.
  intros Ho Hp Ho'.
  pose proof (run_page_ok es mount mount_page_ok Ho) as Hw.
  revert Hp Ho' Hw. generalize (run mount es). intros w Hp Ho' Hw.
  assert (pending_posts w = 1%nat) as Hp1
    by (pose proof (page_posts w Hw); lia).
  pose proof (page_posting w Hw Hp1) as Hl.
  assert (loading (state (step w (PostResolved t))) = true
          /\ pending_posts (step w (PostResolved t)) = 0%nat
          /\ taskId (state (step w (PostResolved t))) = Some t
          /\ requests (step w (PostResolved t)) = requests w)
    as (Hl1 & Hp0 & Ht & Hr).
  { simpl. rewrite Hp1. unfold dispatch.
    rewrite commit_loading, commit_pending_posts, commit_taskId, commit_requests.
    simpl. now rewrite Hp1. }
  destruct (run_busy_posts es' _ Hl1 Hp0 Ho') as [E1 E2].
  now rewrite E1, E2, Hr.
Qed.

Lemma one_generation_per_mount_witness :
  offered_run mount [ChangePrompt "a cat"; SubmitForm] = true
  /\ pending_posts (run mount [ChangePrompt "a cat"; SubmitForm]) <> 0%nat
  /\ taskId (state (run (step (run mount [ChangePrompt "a cat"; SubmitForm])
                           (PostResolved "t1"))
                      (poll_round (completed_answer cat_video))))
     = Some "t1".
Proof.
  assert (offered_run mount [ChangePrompt "a cat"; SubmitForm] = true) as H1
    by (vm_compute; reflexivity).
  assert (pending_posts (run mount [ChangePrompt "a cat"; SubmitForm]) <> 0%nat)
    as H2 by (vm_compute; discriminate).
  split; [exact H1|]. split; [exact H2|].
  apply (one_generation_per_mount [ChangePrompt "a cat"; SubmitForm] "t1"
           (poll_round (completed_answer cat_video)) H1 H2).
  vm_compute. reflexivity.
Defined.

(** X9. The effects settle in one pass: they set only [settings],
    [statusInterval] and [generatedVideo], on which no effect depends, so
    the render that follows a commit runs no effect and changes nothing. *)
Theorem effects_settle (w : World) : commit (commit w) = commit w.
Proof. apply commit_synced, commit_deps_synced. Qed.

(** X10. In a run of the page the cleanup of the poll-timer effect never
    holds a handle: unmounting the generator clears no timer.  A timer that
    is active at the unmount stays active whatever follows, and each of its
    ticks issues another status request. *)
Theorem unmount_leaves_timer_running (es es' : list Event) :
  offered_run mount es = true ->
  unmount (run mount es) = run mount es
  /\ timers (run_unmounted (unmount (run mount es)) es') = timers (run mount es)
  /\ forall tm t,
       tm ∈ timers (run mount es) -> cl_taskId (callback tm) = Some t ->
       requests (step_unmounted (run_unmounted (unmount (run mount es)) es')
                   (TimerFired (timer_id tm)))
       = requests (run_unmounted (unmount (run mount es)) es')
         ++ [GET_video_generation_status t].
Proof.
  intros Ho.
  pose proof (run_page_more es mount mount_page_more Ho) as Hw.
  pose proof (run_inv es mount mount_inv) as Hinv.
  rewrite (unmount_page _ Hw).
  destruct (run_unmounted_timers es' _ (inv_unmounted_ok _ Hinv)) as [E _].
  split; [reflexivity|]. split; [exact E|].
  intros tm t Hin Hcl. apply step_unmounted_tick; [|assumption|].
  - rewrite E. now apply timers_singleton.
  - destruct Hinv as [[_ _ H3 _ _] _]. rewrite Forall_forall in H3.
    destruct (H3 tm Hin) as [_ Htr]. now rewrite Hcl in Htr.
Qed.

Lemma unmount_leaves_timer_running_witness :
  offered_run mount accepted_run = true
  /\ timers (run_unmounted (unmount (run mount accepted_run))
               [TimerFired 1; GetResolved 0 (completed_answer cat_video)])
     = timers (run mount accepted_run).
Proof.
  assert (offered_run mount accepted_run = true) as H by (vm_compute; reflexivity).
  split; [exact H|].
  exact (proj1 (proj2 (unmount_leaves_timer_running accepted_run
                         [TimerFired 1; GetResolved 0 (completed_answer cat_video)]
                         H))).
Defined.

(** X11. A task that is accepted while the handle of an earlier timer is
    still stored gets no timer: it becomes the stored task, and unless a
    timer polls it already or the backend hands out its id again, no
    request for its status is ever issued. *)
Theorem stored_handle_blocks_new_timer
  (es : list Event) (t : string) (es' : list Event) :
  statusInterval (state (run mount es)) <> None ->
  pending_posts (run mount es) <> 0%nat ->
  (forall tm, tm ∈ timers (run mount es) -> cl_taskId (callback tm) <> Some t) ->
  Forall (fun e => e <> PostResolved t) es' ->
  taskId (state (step (run mount es) (PostResolved t))) = Some t
  /\ (forall tm, tm ∈ timers (step (run mount es) (PostResolved t)) ->
                 tm ∈ timers (run mount es))
  /\ status_requests_for t
       (requests (run (step (run mount es) (PostResolved t)) es'))
     = status_requests_for t (requests (run mount es)).
Proof.
  intros Hsi Hp Hno Hes'.
  pose proof (run_inv es mount mount_inv) as Hinv.
  revert Hsi Hp Hno Hinv. generalize (run mount es). intros w Hsi Hp Hno Hinv.
  assert (taskId (state (step w (PostResolved t))) = Some t
          /\ requests (step w (PostResolved t)) = requests w) as [Ht Hr].
  { simpl. destruct (pending_posts w); [congruence|]. unfold dispatch.
    now rewrite commit_taskId, commit_requests. }
  split; [exact Ht|]. split; [intros tm; now apply step_PostResolved_blocked|].
  unfold status_requests_for. rewrite <- Hr.
  apply run_status_requests.
  - now apply step_inv.
  - intros tm t' Hin Hcl. apply String.eqb_neq. intros ->.
    apply (Hno tm); [|assumption].
    now apply (step_PostResolved_blocked w t').
  - eapply Forall_impl; [exact Hes'|]. intros [] He; simpl; try exact I.
    apply String.eqb_neq. congruence.
Qed.

Lemma stored_handle_blocks_new_timer_witness :
  statusInterval (state (run mount resubmitted_run)) <> None
  /\ pending_posts (run mount resubmitted_run) <> 0%nat
  /\ status_requests_for "t2"
       (requests (run (step (run mount resubmitted_run) (PostResolved "t2"))
                    [TimerFired 1; TimerFired 2]))
     = status_requests_for "t2" (requests (run mount resubmitted_run)).
Proof.
  assert (statusInterval (state (run mount resubmitted_run)) <> None) as H1
    by (vm_compute; discriminate).
  assert (pending_posts (run mount resubmitted_run) <> 0%nat) as H2
    by (vm_compute; discriminate).
  split; [exact H1|]. split; [exact H2|].
  apply (stored_handle_blocks_new_timer resubmitted_run "t2"
           [TimerFired 1; TimerFired 2] H1 H2).
  - intros tm Hin. vm_compute in Hin.
    apply list_elem_of_singleton in Hin. subst. discriminate.
  - repeat constructor; discriminate.
Defined.

(** X12. A submission with a blank prompt shows the generator's validation
    message and changes nothing else of the generator; in the modal it
    changes nothing at all. *)
Theorem blank_submission_only_sets_message (es : list Event) (m : AIModal.World) :
  Js.all_white_space (prompt (state (run mount es))) = true ->
  Js.all_white_space (AIModal.prompt (AIModal.state m)) = true ->
  step (run mount es) SubmitForm
    = exec [setError empty_prompt_message] (run mount es)
  /\ error_message (render (state (step (run mount es) SubmitForm)))
     = Some empty_prompt_message
  /\ AIModal.step m AIModal.SubmitForm = m.
Proof.
  intros Hb Hm. rewrite (step_SubmitForm_blank es Hb).
  split; [reflexivity|]. split; [reflexivity|].
  unfold AIModal.step, AIModal.handleSubmit.
  now rewrite (JsFacts.trim_all_white_space _ Hm).
Qed.

Lemma blank_submission_only_sets_message_witness :
  Js.all_white_space (prompt (state (run mount [ChangePrompt "  "]))) = true
  /\ error_message (render (state (step (run mount [ChangePrompt "  "]) SubmitForm)))
     = Some empty_prompt_message.
Proof.
  assert (Js.all_white_space (prompt (state (run mount [ChangePrompt "  "]))) = true)
    as H by (vm_compute; reflexivity).
  split; [exact H|].
  exact (proj1 (proj2 (blank_submission_only_sets_message
                         [ChangePrompt "  "] AIModal.mount H eq_refl))).
Defined.

(** ** AIModal.js *)

Module AIModalExtra.
Import AIModal AIModalPage AIModalExtraSpec.

Lemma modal_run_snoc w es e : run w (es ++ [e]) = step (run w es) e.
Proof. unfold run. now rewrite fold_left_app. Qed.

Lemma modal_run_app w es es' : run w (es ++ es') = run (run w es) es'.
Proof. unfold run. now rewrite fold_left_app. Qed.

Lemma modal_mount_page_ok : page_ok mount.
Proof. split; unfold in_flight; simpl; [lia | split; [discriminate | lia] | lia]. Qed.

Lemma modal_step_page_ok w e :
  page_ok w -> offered w e = true -> page_ok (step w e).
Proof.
  intros [H1 H2 H3] Ho.
  destruct w as [[p r l er pr v sh] ps pu rq].
  unfold in_flight in *. simpl in *.
  assert (l = false -> ps = 0%nat /\ pu = 0%nat) as Hidle.
  { intros ->. destruct H2 as [_ H2].
    destruct (decide (ps + pu = 1)%nat) as [E|E]; [now apply H2 in E | lia]. }
  assert (forall p' r' er' pr' v' sh' a b,
            (a + b)%nat = (ps + pu)%nat ->
            (a + b = 1 -> er' = er)%nat ->
            page_ok {| state := {| prompt := p'; response := r'; loading := l;
                                   error := er'; provider := pr'; video := v';
                                   showVideoViewer := sh' |};
                       pending_submits := a; pending_uploads := b;
                       requests := rq |}) as Hkeep.
  { intros p' r' er' pr' v' sh' a b E Her.
    split; unfold in_flight; simpl; rewrite ?E; auto.
    intros E1. rewrite Her by lia. apply H3. lia. }
  assert (forall p' r' er' pr' v' sh' rq',
            page_ok {| state := {| prompt := p'; response := r'; loading := false;
                                   error := er'; provider := pr'; video := v';
                                   showVideoViewer := sh' |};
                       pending_submits := 0; pending_uploads := 0;
                       requests := rq' |}) as Hidle'.
  { intros. split; unfold in_flight; simpl; [lia | split; [discriminate | lia] | lia]. }
  assert (forall p' r' pr' v' sh' rq' a b, (a + b = 1)%nat ->
            page_ok {| state := {| prompt := p'; response := r'; loading := true;
                                   error := ""; provider := pr'; video := v';
                                   showVideoViewer := sh' |};
                       pending_submits := a; pending_uploads := b;
                       requests := rq' |}) as Hbusy.
  { intros. split; unfold in_flight; simpl; [lia | split; auto | auto]. }
  destruct e; simpl in *.
  - now apply Hkeep.
  - now apply Hkeep.
  - now apply Hkeep.
  - apply negb_true_iff, orb_false_iff in Ho. destruct Ho as [-> Hb].
    apply negb_false_iff in Hb. destruct (Hidle eq_refl) as [-> ->].
    unfold handleSubmit. simpl. rewrite Hb. simpl.
    destruct v; simpl; now apply Hbusy.
  - destruct ps as [|ps]; [now apply Hkeep|]. simpl.
    assert (ps = 0%nat /\ pu = 0%nat) as [-> ->] by lia. apply Hidle'.
  - destruct ps as [|ps]; [now apply Hkeep|]. simpl.
    assert (ps = 0%nat /\ pu = 0%nat) as [-> ->] by lia. apply Hidle'.
  - apply negb_true_iff in Ho. subst l. destruct (Hidle eq_refl) as [-> ->].
    destruct files as [|f fs]; simpl; [apply Hidle'|].
    destruct (Js.startsWith (type f) "video/"); simpl;
      [now apply Hbusy | apply Hidle'].
  - destruct pu as [|pu]; [now apply Hkeep|]. simpl.
    assert (ps = 0%nat /\ pu = 0%nat) as [-> ->] by lia. apply Hidle'.
  - destruct pu as [|pu]; [now apply Hkeep|]. simpl.
    assert (ps = 0%nat /\ pu = 0%nat) as [-> ->] by lia. apply Hidle'.
Qed.

Lemma modal_run_page_ok es :
  forall w, page_ok w -> offered_run w es = true -> page_ok (run w es).
Proof.
  induction es as [|e es IH]; intros w Hw Ho; [exact Hw|].
  simpl in Ho. apply andb_true_iff in Ho. destruct Ho as [Ho Hr].
  simpl. apply IH; [now apply modal_step_page_ok | exact Hr].
Qed.

(** *** What the requests carry *)

Lemma request_ok_mono es e q : request_ok es q -> request_ok (es ++ [e]) q.
Proof.
  destruct q; simpl; auto.
  intros ((data & Hin & E) & H). split; [|exact H].
  exists data. split; [|exact E]. apply elem_of_app. now left.
Qed.

Lemma modal_requests_inv es :
  (forall v, video (state (run mount es)) = Some v -> UploadResolved v ∈ es)
  /\ (exists o, provider (state (run mount es)) = option_value o)
  /\ (forall q, q ∈ requests (run mount es) -> request_ok es q).
Proof.
  induction es as [|e es IH] using rev_ind.
  { split; [discriminate|]. split; [now exists opt_openai|].
    intros q Hq. inversion Hq. }
  rewrite modal_run_snoc. destruct IH as (Hv & Hp & Hq).
  assert (forall v, video (state (run mount es)) = Some v ->
                    UploadResolved v ∈ es ++ [e]) as Hv'.
  { intros v E. apply elem_of_app. left. now apply Hv. }
  assert (forall q, q ∈ requests (run mount es) -> request_ok (es ++ [e]) q) as Hq'.
  { intros q Hin. now apply request_ok_mono, Hq. }
  clear Hv Hq. revert Hv' Hp Hq'. generalize (run mount es). intros w Hv Hp Hq.
  destruct e; simpl.
  - auto.
  - split; [exact Hv|]. split; [now exists o | exact Hq].
  - auto.
  - unfold handleSubmit.
    destruct (Js.truthy (Js.trim (prompt (state w)))) eqn:Hb; simpl; [|auto].
    destruct (video (state w)) as [v|] eqn:Ev; simpl;
      (split; [intros v0 E; apply Hv; congruence|]); (split; [exact Hp|]);
      intros q Hin; apply elem_of_app in Hin; destruct Hin as [Hin|Hin]; auto;
      apply list_elem_of_singleton in Hin; subst q; simpl; auto.
    split; [|auto]. exists v. split; [now apply Hv | reflexivity].
  - destruct (pending_submits w); simpl; auto.
  - destruct (pending_submits w); simpl; auto.
  - destruct files as [|f fs]; simpl; [auto|].
    destruct (Js.startsWith (type f) "video/") eqn:Hs; simpl; [|auto].
    split; [exact Hv|]. split; [exact Hp|].
    intros q Hin. apply elem_of_app in Hin. destruct Hin as [Hin|Hin]; auto.
    apply list_elem_of_singleton in Hin. now subst q.
  - destruct (pending_uploads w); simpl; [auto|].
    split; [|auto]. intros v E. injection E as <-.
    apply elem_of_app. right. now apply list_elem_of_singleton.
  - destruct (pending_uploads w); simpl; auto.
Qed.

(** *** Once a video is selected *)

Lemma modal_step_video w e :
  is_Some (video (state w)) ->
  is_Some (video (state (step w e)))
  /\ exists qs, requests (step w e) = requests w ++ qs
                /\ Forall (fun q => is_process q = false) qs.
Proof.
  intros [v Ev].
  assert (forall w', video (state w') = Some v -> requests w' = requests w ->
            is_Some (video (state w'))
            /\ exists qs, requests w' = requests w ++ qs
                          /\ Forall (fun q => is_process q = false) qs) as Hsame.
  { intros w' E1 E2. split; [eauto|]. exists []. rewrite app_nil_r. auto. }
  destruct e; simpl; try (apply Hsame; simpl; auto; fail).
  - unfold handleSubmit. rewrite Ev.
    destruct (Js.truthy (Js.trim (prompt (state w)))); simpl;
      [|apply Hsame; auto].
    split; [eauto|]. eexists. split; [reflexivity|]. now constructor.
  - destruct (pending_submits w); simpl; apply Hsame; auto.
  - destruct (pending_submits w); simpl; apply Hsame; auto.
  - destruct files as [|f fs]; simpl; [apply Hsame; auto|].
    destruct (Js.startsWith (type f) "video/"); simpl; [|apply Hsame; auto].
    split; [eauto|]. eexists. split; [reflexivity|]. now constructor.
  - destruct (pending_uploads w); simpl; [apply Hsame; auto|].
    split; [eauto|]. exists []. rewrite app_nil_r. auto.
  - destruct (pending_uploads w); simpl; apply Hsame; auto.
Qed.

Lemma modal_run_video es :
  forall w, is_Some (video (state w)) ->
  is_Some (video (state (run w es)))
  /\ exists qs, requests (run w es) = requests w ++ qs
                /\ Forall (fun q => is_process q = false) qs.
Proof.
  induction es as [|e es IH]; intros w Hv.
  { split; [exact Hv|]. exists []. rewrite app_nil_r. auto. }
  destruct (modal_step_video w e Hv) as (Hv' & qs & E & Hqs).
  destruct (IH _ Hv') as (Hv'' & qs' & E' & Hqs').
  simpl. split; [exact Hv''|]. exists (qs ++ qs'). split.
  - change (fold_left step es (step w e)) with (run (step w e) es).
    rewrite E', E. now rewrite app_assoc.
  - now apply Forall_app_2.
Qed.

End AIModalExtra.

Import AIModalExtraSpec AIModalExtra.

(** X13. A request to [/api/analyze-video] names a video whose upload
    succeeded earlier in the run. *)
Theorem analysis_names_an_uploaded_video
    (es : list AIModal.Event) (id p pr : string) :
  AIModal.POST_analyze_video id p pr ∈ AIModal.requests (AIModal.run AIModal.mount es) ->
  exists data, AIModal.UploadResolved data ∈ es /\ file_id data = id.
Proof.
  intros Hin. destruct (modal_requests_inv es) as (_ & _ & Hq).
  apply Hq in Hin. simpl in Hin. tauto.
Qed.

Lemma analysis_names_an_uploaded_video_witness :
  exists data,
    AIModal.UploadResolved data
      ∈ [AIModal.SelectFiles [clip_mp4]; AIModal.UploadResolved clip_info;
         AIModal.ChangePrompt "what happens?"; AIModal.SubmitForm]
    /\ file_id data = "f7".
Proof.
  apply (analysis_names_an_uploaded_video
           [AIModal.SelectFiles [clip_mp4]; AIModal.UploadResolved clip_info;
            AIModal.ChangePrompt "what happens?"; AIModal.SubmitForm]
           "f7" "what happens?" "openai").
  vm_compute. apply list_elem_of_lookup. exists 1%nat. reflexivity.
Defined.

(** X14. No request of the modal carries a blank prompt or a provider that
    is not an option of the select, and no upload carries a file whose type
    does not start with [video/]. *)
Theorem modal_requests_are_well_formed
    (es : list AIModal.Event) (q : AIModal.Request) :
  q ∈ AIModal.requests (AIModal.run AIModal.mount es) ->
  match q with
  | AIModal.POST_process p pr | AIModal.POST_analyze_video _ p pr =>
      Js.truthy (Js.trim p) = true /\ exists o, pr = AIModal.option_value o
  | AIModal.POST_upload_video f => Js.startsWith (AIModal.type f) "video/" = true
  end.
Proof.
  intros Hin. destruct (modal_requests_inv es) as (_ & _ & Hq).
  apply Hq in Hin. destruct q; simpl in Hin; tauto.
Qed.

Lemma modal_requests_are_well_formed_witness :
  Js.startsWith (AIModal.type clip_mp4) "video/" = true.
Proof.
  apply (modal_requests_are_well_formed
           [AIModal.SelectFiles [clip_mp4]] (AIModal.POST_upload_video clip_mp4)).
  vm_compute. apply list_elem_of_lookup. exists 0%nat. reflexivity.
Defined.

(** X15. In a run of the open modal at most one request is in flight,
    [loading] is set exactly while one is, and no error message is stored
    meanwhile. *)
Theorem modal_one_request_at_a_time (es : list AIModal.Event) :
  AIModalPage.offered_run AIModal.mount es = true ->
  (AIModalPage.in_flight (AIModal.run AIModal.mount es) <= 1)%nat
  /\ (AIModal.loading (AIModal.state (AIModal.run AIModal.mount es)) = true
      <-> AIModalPage.in_flight (AIModal.run AIModal.mount es) = 1%nat)
  /\ (AIModalPage.in_flight (AIModal.run AIModal.mount es) = 1%nat ->
      AIModal.error (AIModal.state (AIModal.run AIModal.mount es)) = "").
Proof.
  intros Ho. destruct (modal_run_page_ok es _ modal_mount_page_ok Ho); auto.
Qed.

Lemma modal_one_request_at_a_time_witness :
  AIModalPage.offered_run AIModal.mount
    [AIModal.ChangePrompt "hello"; AIModal.SubmitForm] = true
  /\ (AIModalPage.in_flight (AIModal.run AIModal.mount
                   [AIModal.ChangePrompt "hello"; AIModal.SubmitForm]) <= 1)%nat.
Proof.
  assert (AIModalPage.offered_run AIModal.mount
            [AIModal.ChangePrompt "hello"; AIModal.SubmitForm] = true) as H
    by (vm_compute; reflexivity).
  split; [exact H|].
  exact (proj1 (modal_one_request_at_a_time
                  [AIModal.ChangePrompt "hello"; AIModal.SubmitForm] H)).
Defined.

(** X16. Nothing removes a selected video: once an upload succeeded the
    video stays selected, and no later submission goes to [/api/process]. *)
Theorem selected_video_is_never_dropped (w : AIModal.World) (es : list AIModal.Event) :
  is_Some (AIModal.video (AIModal.state w)) ->
  is_Some (AIModal.video (AIModal.state (AIModal.run w es)))
  /\ exists qs, AIModal.requests (AIModal.run w es) = AIModal.requests w ++ qs
                /\ Forall (fun q => is_process q = false) qs.
Proof. apply modal_run_video. Qed.

Lemma selected_video_is_never_dropped_witness :
  is_Some (AIModal.video (AIModal.state
     (AIModal.run
        (AIModal.run AIModal.mount
           [AIModal.SelectFiles [clip_mp4]; AIModal.UploadResolved clip_info])
        [AIModal.ChangePrompt "and then?"; AIModal.SubmitForm]))).
Proof.
  apply (selected_video_is_never_dropped
           (AIModal.run AIModal.mount
              [AIModal.SelectFiles [clip_mp4]; AIModal.UploadResolved clip_info])
           [AIModal.ChangePrompt "and then?"; AIModal.SubmitForm]).
  vm_compute. eauto.
Defined.

(** X17. In a run of the open modal, the answer to the submission in flight
    becomes the response, releases the form and leaves no error message and
    no request in flight. *)
Theorem answer_becomes_the_response (es : list AIModal.Event) (result : string) :
  AIModalPage.offered_run AIModal.mount es = true ->
  AIModal.pending_submits (AIModal.run AIModal.mount es) <> 0%nat ->
  AIModal.response
    (AIModal.state (AIModal.step (AIModal.run AIModal.mount es)
                      (AIModal.SubmitResolved result))) = result
  /\ AIModal.loading
       (AIModal.state (AIModal.step (AIModal.run AIModal.mount es)
                         (AIModal.SubmitResolved result))) = false
  /\ AIModal.error
       (AIModal.state (AIModal.step (AIModal.run AIModal.mount es)
                         (AIModal.SubmitResolved result))) = ""
  /\ AIModalPage.in_flight (AIModal.step (AIModal.run AIModal.mount es)
                  (AIModal.SubmitResolved result)) = 0%nat.
Proof.
  intros Ho Hp. destruct (modal_run_page_ok es _ modal_mount_page_ok Ho) as [H1 _ H3].
  revert Hp H1 H3. generalize (AIModal.run AIModal.mount es). intros w Hp H1 H3.
  unfold AIModalPage.in_flight in *. simpl.
  destruct (AIModal.pending_submits w) as [|n] eqn:E; [congruence|].
  simpl. rewrite E. simpl. repeat split; [apply H3|]; lia.
Qed.

Lemma answer_becomes_the_response_witness :
  AIModal.response
    (AIModal.state
       (AIModal.step
          (AIModal.run AIModal.mount [AIModal.ChangePrompt "hello"; AIModal.SubmitForm])
          (AIModal.SubmitResolved "hi"))) = "hi".
Proof.
  refine (proj1 (answer_becomes_the_response
                   [AIModal.ChangePrompt "hello"; AIModal.SubmitForm] "hi" _ _)).
  - vm_compute; reflexivity.
  - vm_compute; discriminate.
Defined.

(** ** App.js *)

Module AppExtra.
Import VideoGeneratorExtra.

Lemma app_run_app w es es' : App.run w (es ++ es') = App.run (App.run w es) es'.
Proof. unfold App.run. now rewrite fold_left_app. Qed.

Lemma renderContent_tab o t o' :
  App.renderContent {| App.isModalOpen := o; App.activeTab := t |}
  = App.renderContent {| App.isModalOpen := o'; App.activeTab := t |}.
Proof. reflexivity. Qed.

Lemma renderContent_nav o b :
  App.renderContent {| App.isModalOpen := o; App.activeTab := App.nav_target b |}
  = match b with App.nav_home => App.Home | App.nav_video_generator => App.Generator end.
Proof. now destruct b. Qed.

(** What the commit of a new state leaves of the children. *)
Lemma reconcile_cases w r' :
  App.state (App.reconcile w r') = r'
  /\ App.modal (App.reconcile w r') = App.modal w
  /\ (App.renderContent r' <> App.Generator ->
      App.generator (App.reconcile w r') = None)
  /\ (App.renderContent r' = App.Generator ->
      App.renderContent (App.state w) = App.Generator ->
      App.generator (App.reconcile w r') = App.generator w)
  /\ (App.renderContent r' = App.Generator ->
      App.renderContent (App.state w) <> App.Generator ->
      App.generator (App.reconcile w r') = Some VideoGenerator.mount).
Proof.
  unfold App.reconcile.
  destruct (App.renderContent (App.state w)), (App.renderContent r'); simpl;
    repeat split; intros; congruence.
Qed.

Lemma app_step_inv w e :
  App.renderContent (App.state w) <> App.NotFound ->
  (is_Some (App.generator w) <-> App.renderContent (App.state w) = App.Generator) ->
  App.renderContent (App.state (App.step w e)) <> App.NotFound
  /\ (is_Some (App.generator (App.step w e))
      <-> App.renderContent (App.state (App.step w e)) = App.Generator).
Proof.
  intros H1 H2.
  assert (forall r', App.renderContent r' <> App.NotFound ->
            App.renderContent (App.state (App.reconcile w r')) <> App.NotFound
            /\ (is_Some (App.generator (App.reconcile w r'))
                <-> App.renderContent (App.state (App.reconcile w r')) = App.Generator))
    as Hrec.
  { intros r' Hr. destruct (reconcile_cases w r') as (E1 & _ & E3 & E4 & E5).
    rewrite E1. split; [exact Hr|].
    destruct (App.renderContent r') eqn:Er; try congruence.
    - rewrite E3 by discriminate. split; [intros [? ?]; discriminate | discriminate].
    - split; [auto|]. intros _.
      destruct (App.renderContent (App.state w)) eqn:Ew; try congruence.
      + rewrite E5 by (auto; discriminate). eauto.
      + rewrite E4 by auto. now apply H2. }
  destruct e; simpl.
  - apply Hrec. now destruct (App.state w).
  - apply Hrec. now destruct (App.state w).
  - apply Hrec. rewrite renderContent_nav. now destruct b.
  - auto.
  - split; [exact H1|]. rewrite <- H2. rewrite fmap_is_Some. tauto.
  - auto.
Qed.

Lemma app_run_inv es :
  forall w,
  App.renderContent (App.state w) <> App.NotFound ->
  (is_Some (App.generator w) <-> App.renderContent (App.state w) = App.Generator) ->
  App.renderContent (App.state (App.run w es)) <> App.NotFound
  /\ (is_Some (App.generator (App.run w es))
      <-> App.renderContent (App.state (App.run w es)) = App.Generator).
Proof.
  induction es as [|e es IH]; intros w H1 H2; [now split|].
  destruct (app_step_inv w e H1 H2) as [H1' H2']. simpl. now apply IH.
Qed.

Lemma app_step_modal w e :
  App.modal (App.step w e)
  = match e with
    | App.ModalEvent e' => AIModal.step (App.modal w) e'
    | _ => App.modal w
    end.
Proof.
  destruct e; simpl; try reflexivity; apply reconcile_cases.
Qed.

(** The events of the generator go to the mounted instance. *)
Lemma app_run_generator es :
  forall w g, App.generator w = Some g ->
  App.run w (App.GeneratorEvent <$> es)
  = {| App.state := App.state w; App.modal := App.modal w;
       App.generator := Some (VideoGenerator.run g es);
       App.detached := App.detached w |}.
Proof.
  induction es as [|e es IH]; intros w g Hg.
  { simpl. rewrite <- Hg. now destruct w. }
  simpl. rewrite (IH _ (VideoGenerator.step g e)); [reflexivity|].
  simpl. now rewrite Hg.
Qed.

End AppExtra.

Import AppExtra.

(** X18. Whatever is clicked, the application shows the home page or the
    generator, never the fallback of [renderContent], and a generator is
    mounted exactly while its tab is shown. *)
Theorem app_shows_home_or_generator (es : list App.Event) :
  App.renderContent (App.state (App.run App.mount es)) <> App.NotFound
  /\ (is_Some (App.generator (App.run App.mount es))
      <-> App.renderContent (App.state (App.run App.mount es)) = App.Generator).
Proof.
  apply app_run_inv.
  - discriminate.
  - simpl. split; [intros [? ?]; discriminate | discriminate].
Qed.

(** X19. The modal's state depends on the modal's own events only: opening
    and closing it, changing the tab and what the generator does leave it
    as it is. *)
Theorem modal_state_survives_navigation (w : App.World) (es : list App.Event) :
  App.modal (App.run w es) = AIModal.run (App.modal w) (App.modal_events es).
Proof.
  revert w. induction es as [|e es IH]; intros w; [reflexivity|].
  simpl. change (fold_left App.step es (App.step w e))
    with (App.run (App.step w e) es).
  rewrite IH, app_step_modal. now destruct e.
Qed.

(** X20. Leaving the generator tab and returning to it mounts a fresh
    generator: prompt, settings, task and result of the earlier one are
    gone. *)
Theorem returning_to_the_tab_resets_the_generator (es : list App.Event) :
  App.generator
    (App.run App.mount
       (es ++ [App.ClickNav App.nav_home; App.ClickNav App.nav_video_generator]))
  = Some VideoGenerator.mount.
Proof.
  rewrite app_run_app. generalize (App.run App.mount es). intros w. simpl.
  match goal with
  | |- App.generator (App.reconcile ?w1 ?r1) = _ =>
      destruct (reconcile_cases w1 r1) as (_ & _ & _ & _ & E5); apply E5
  end.
  - reflexivity.
  - match goal with
    | |- App.renderContent (App.state (App.reconcile ?w1 ?r1)) <> _ =>
        destruct (reconcile_cases w1 r1) as (E1 & _); rewrite E1
    end.
    discriminate.
Qed.

(** X21. Leaving the generator tab in a run of the page leaves the
    generator behind as it was, with whatever timer it had: its cleanup
    clears nothing. *)
Theorem leaving_the_tab_detaches_the_generator (es : list VideoGenerator.Event) :
  VideoGenerator.offered_run VideoGenerator.mount es = true ->
  App.detached
    (App.run App.mount
       (App.ClickNav App.nav_video_generator
          :: (App.GeneratorEvent <$> es) ++ [App.ClickNav App.nav_home]))
  = [VideoGenerator.run VideoGenerator.mount es]
  /\ App.generator
       (App.run App.mount
          (App.ClickNav App.nav_video_generator
             :: (App.GeneratorEvent <$> es) ++ [App.ClickNav App.nav_home]))
     = None.
Proof.
  intros Ho.
  change (App.run App.mount
            (App.ClickNav App.nav_video_generator
               :: (App.GeneratorEvent <$> es) ++ [App.ClickNav App.nav_home]))
    with (App.run (App.step App.mount (App.ClickNav App.nav_video_generator))
            ((App.GeneratorEvent <$> es) ++ [App.ClickNav App.nav_home])).
  rewrite app_run_app.
  rewrite (app_run_generator es _ VideoGenerator.mount) by reflexivity.
  simpl. unfold App.reconcile. simpl.
  rewrite (unmount_page _ (run_page_more es _ mount_page_more Ho)).
  now split.
Qed.

Lemma leaving_the_tab_detaches_the_generator_witness :
  VideoGenerator.offered_run VideoGenerator.mount VideoGeneratorSpec.accepted_run = true
  /\ App.generator
       (App.run App.mount
          (App.ClickNav App.nav_video_generator
             :: (App.GeneratorEvent <$> VideoGeneratorSpec.accepted_run)
                ++ [App.ClickNav App.nav_home]))
     = None.
Proof.
  assert (VideoGenerator.offered_run VideoGenerator.mount
            VideoGeneratorSpec.accepted_run = true) as H
    by (vm_compute; reflexivity).
  split; [exact H|].
  exact (proj2 (leaving_the_tab_detaches_the_generator
                  VideoGeneratorSpec.accepted_run H)).
Defined.
